(** * serve.py: a static-file HTTP server on top of the Python standard library

    [src/py/serve.py] is thirty-seven lines: two [mimetypes.add_type] calls,
    the class [ResilientTCPServer] (a [socketserver.ThreadingTCPServer] with
    [allow_reuse_address = True] and its own [handle_error]), [parse_args]
    (one [argparse] option) and the [__main__] block.

    Every definition named after a line of [serve.py] is translated from that
    line.  What [serve.py] calls in the standard library is embedded from the
    CPython 3.11 sources ([socketserver.py], [mimetypes.py], [argparse.py],
    [http/server.py], [posixpath.py], [genericpath.py]); each such definition
    names the library function it follows.  What belongs to the operating
    system (the answer of [bind], the files on disk, the platform's MIME
    table) is a field of the [platform] record and is quantified over.

    Python [str] values are modelled as [string] (sequences of 8-bit
    characters); case folding and white space are those of ASCII. *)

From stdpp Require Import gmap strings list.
From Stdlib Require Import ZArith Ascii DecimalString DecimalZ.

Open Scope string_scope.
Open Scope Z_scope.
Open Scope list_scope.

(** ** Exception classes *)

(** The built-in exception classes that the code under study can meet, and
    classes defined by [class name(base): ...].  Equality of [pyclass] values
    stands for identity of class objects. *)
Inductive pyclass : Type :=
  | BaseException
  | Exception
  | SystemExit
  | KeyboardInterrupt
  | ArithmeticError
  | OverflowError
  | RuntimeError
  | TypeError
  | ValueError
  | AttributeError
  | OSError
  | PermissionError
  | FileNotFoundError
  | TimeoutError
  | ConnectionError
  | BrokenPipeError
  | ConnectionAbortedError
  | ConnectionRefusedError
  | ConnectionResetError
  | UserClass (name : string) (base : pyclass).

#[global] Instance pyclass_eq_dec : EqDecision pyclass.
Proof. solve_decision. Defined.

(** [cls.__mro__] of a built-in class after the class itself ([object] left
    out). *)
Definition builtin_bases (c : pyclass) : list pyclass :=
  match c with
  | BaseException | UserClass _ _ => []
  | Exception | SystemExit | KeyboardInterrupt => [BaseException]
  | ArithmeticError | RuntimeError | TypeError | ValueError | AttributeError
  | OSError =>
      [Exception; BaseException]
  | OverflowError => [ArithmeticError; Exception; BaseException]
  | PermissionError | FileNotFoundError | TimeoutError | ConnectionError =>
      [OSError; Exception; BaseException]
  | BrokenPipeError | ConnectionAbortedError | ConnectionRefusedError
  | ConnectionResetError =>
      [ConnectionError; OSError; Exception; BaseException]
  end.

(** The method resolution order: the class, then its ancestors. *)
Fixpoint mro (c : pyclass) : list pyclass :=
  c :: match c with
       | UserClass _ b => mro b
       | _ => builtin_bases c
       end.

Definition issubclass (c d : pyclass) : bool := bool_decide (d ∈ mro c).

(** [c] is a subclass of [d] and is not [d] itself. *)
Definition proper_subclass (c d : pyclass) : Prop :=
  issubclass c d = true ∧ c ≠ d.

(** An exception instance: its class, the text of [str(exc)], and the
    [code] attribute that [SystemExit] carries. *)
Record exn : Type := Exn {
  exn_class : pyclass;
  exn_text : string;
  exn_code : Z
}.

#[global] Instance exn_eq_dec : EqDecision exn.
Proof. solve_decision. Defined.

Definition raise_of (c : pyclass) (msg : string) : exn := Exn c msg 1.

(** [x in (a, b, ...)] on class objects: identity or [==], which for classes
    is identity. *)
Definition class_in (o : option pyclass) (t : list pyclass) : bool :=
  match o with
  | None => false
  | Some c => bool_decide (c ∈ t)
  end.

(** ** Values *)

(** The values that [argparse] can put in a namespace, and so the values
    that [args.port] can be: an [int], a [str], or a list of converted
    values. *)
#[warnings="-register-all"]
Inductive pyvalue : Type :=
  | PyInt (n : Z)
  | PyStr (s : string)
  | PyList (l : list pyvalue).

(** ** The process and its environment *)

(** What the kernel knows about a TCP port: nobody holds it, a listening
    socket holds it, or the sockets of a server that has just stopped are
    still being torn down (TIME_WAIT). *)
Inductive port_state : Type := PortFree | PortBound | PortTeardown.

#[global] Instance port_state_eq_dec : EqDecision port_state.
Proof. solve_decision. Defined.

(** A file name as the handler sees it: [open(path, 'rb')] gives the bytes and
    the modification time (seconds since the epoch) or fails with [OSError]. *)
Record file_data : Type := FileData {
  file_bytes : list ascii;
  file_mtime : Z
}.

(** What a handler hands to [send_response], [send_header] and
    [wfile.write]: the status code, the headers in the order of the calls,
    the body. *)
Record response : Type := Response {
  status : Z;
  resp_headers : list (string * string);
  body : list ascii
}.

(** What [email.utils.parsedate_to_datetime] makes of an [If-Modified-Since]
    value: an exception, a time without zone or in UTC (seconds since the
    epoch), or a time in another zone. *)
Inductive ims_date : Type :=
  | ImsInvalid
  | ImsUtc (seconds : Z)
  | ImsOtherZone.

(** Everything the program takes from the machine it runs on, and the
    library functions whose text is not embedded here. *)
Record platform : Type := Platform {
  (** [hasattr(socket, "SO_REUSEADDR")], [hasattr(socket, "SO_REUSEPORT")] *)
  has_SO_REUSEADDR : bool;
  has_SO_REUSEPORT : bool;
  (** the network stack's answer to [bind] on a socket whose SO_REUSEADDR
      flag is the first argument: [None] when it accepts *)
  bind_answer : bool → Z → port_state → option exn;
  (** the strict extension table of [mimetypes] once [init()] has read the
      built-in defaults, the registry and the [mime.types] files *)
  mime_defaults : gmap string string;
  (** [os.getcwd()] *)
  getcwd : string;
  (** [os.path.isdir], [os.path.isfile], [open(path, 'rb')] + [os.fstat] *)
  isdir : string → bool;
  isfile : string → bool;
  open_rb : string → option file_data;
  (** [time.time()] rendered by [log_date_time_string] *)
  log_date_time_string : string;
  (** [sys.argv]: the script name, then the command-line arguments *)
  sys_argv : list string;
  (** [sys.get_int_max_str_digits()]: 4300 unless configured, 0 for no limit *)
  int_max_str_digits : Z;
  (** [ArgumentParser.format_usage()] and [format_help()] as
      [argparse.HelpFormatter] lays them out for the terminal *)
  format_usage : string;
  format_help : string;
  (** [urllib.parse.unquote] *)
  unquote : string → string;
  (** [urllib.parse.urlsplit(path).path], and [urlunsplit] of the parts with
      ['/'] added to the path *)
  urlsplit_path : string → string;
  redirect_location : string → string;
  (** the page that [SimpleHTTPRequestHandler.list_directory] builds for a
      directory, unless [os.listdir] fails; [sys.getfilesystemencoding()] *)
  list_directory : string → option (list ascii);
  getfilesystemencoding : string;
  parsedate_to_datetime : string → ims_date;
  (** [self.version_string()], [self.date_time_string()] of now and of a
      time stamp *)
  version_string : string;
  date_time_now : string;
  date_time_string : Z → string;
  (** the HTML page of [send_error], encoded *)
  error_body : Z → string → list ascii
}.

Definition address : Type := string * Z.

(** One parsed HTTP request as [BaseHTTPRequestHandler.parse_request] leaves
    it in [self.command], [self.path] and [self.headers]. *)
Record http_request : Type := HttpRequest {
  requestline : string;
  command : string;
  path : string;
  headers : list (string * string)
}.

(** What is observable of a run, in the order in which it happens. *)
Inductive event : Type :=
  | Stdout (line : string)
  | Stderr (line : string)
  | StderrTraceback (e : option exn)
  | SockCreate
  | SetSockOpt (opt : string)
  | SockBind (a : address)
  | SockListen (backlog : Z)
  | SockClose
  | ServeForever
  | Accepted (conn : nat)
  | ThreadStart (conn : nat)
  | Sent (conn : nat) (request : http_request) (r : response)
  | ConnShutdown (conn : nat)
  | ConnClose (conn : nat).

(** A [mimetypes.MimeTypes] object, as far as [guess_type] with [strict]
    true reads it and anything ever changes it: [types_map_strict] is
    [types_map[True]].  [suffix_map] and [encodings_map] are copies of the
    module's defaults that neither [read], [read_windows_registry] nor
    [add_type] touches; they are the constants [_suffix_map_default] and
    [_encodings_map_default] below. *)
Record MimeTypes : Type := Build_MimeTypes {
  types_map_strict : gmap string string
}.

(** One connection that a client makes while the server runs. *)
Record connection : Type := Connection {
  conn_id : nat;
  client_address : address;
  (** [self.socket.accept()] raising instead of returning *)
  accept_error : option exn;
  (** [Thread.start()] raising instead of starting the thread *)
  thread_start_error : option exn;
  (** the request line and headers that arrive *)
  conn_request : http_request;
  (** what writing the response to the socket raises, when the client has
      gone away *)
  write_error : option exn;
  (** the client never sends its request: the handler waits for ever *)
  client_stalls : bool
}.

(** The state of one process and of the kernel tables it shares. *)
Record world : Type := World {
  pf : platform;
  trace : list event;
  (** [sys.exc_info()] of the running thread *)
  exc_info : option exn;
  (** kernel: the state of every port that is not free *)
  ports : gmap Z port_state;
  (** the listening socket: its SO_REUSEADDR flag, the port it is bound to *)
  sock_reuseaddr : bool;
  sock_bound : option Z;
  (** [mimetypes._db], [None] before [mimetypes.init()] *)
  mime_db : option MimeTypes;
  (** the connections that clients are going to make *)
  incoming : list connection;
  (** handler threads that are still alive *)
  live_threads : nat
}.

Definition port_status (w : world) (p : Z) : port_state :=
  default PortFree (ports w !! p).

(** ** Computations: state, exceptions, calls that never return *)

Inductive result (A : Type) : Type :=
  | Ok (a : A)
  | Raise (e : exn)
  | Pending.
Arguments Ok {A} a.
Arguments Raise {A} e.
Arguments Pending {A}.

Definition M (A : Type) : Type := world → world * result A.

Definition ret {A} (a : A) : M A := fun w => (w, Ok a).

Definition bind {A B} (c : M A) (k : A → M B) : M B :=
  fun w =>
    match c w with
    | (w1, Ok a) => k a w1
    | (w1, Raise e) => (w1, Raise e)
    | (w1, Pending) => (w1, Pending)
    end.

Notation "'do' x <- c ; k" := (bind c (fun x => k))
  (at level 10, x name, c at level 100, k at level 200).
Notation "c ;; k" := (bind c (fun _ => k))
  (at level 100, k at level 200, right associativity).

Definition raise {A} (e : exn) : M A := fun w => (w, Raise e).
Definition pending {A} : M A := fun w => (w, Pending).
Definition get : M world := fun w => (w, Ok w).
Definition modify (f : world → world) : M unit := fun w => (f w, Ok tt).

Definition with_trace (f : list event → list event) (w : world) : world :=
  World (pf w) (f (trace w)) (exc_info w) (ports w) (sock_reuseaddr w)
        (sock_bound w) (mime_db w) (incoming w) (live_threads w).
Definition with_exc_info (o : option exn) (w : world) : world :=
  World (pf w) (trace w) o (ports w) (sock_reuseaddr w)
        (sock_bound w) (mime_db w) (incoming w) (live_threads w).
Definition with_ports (f : gmap Z port_state → gmap Z port_state)
    (w : world) : world :=
  World (pf w) (trace w) (exc_info w) (f (ports w)) (sock_reuseaddr w)
        (sock_bound w) (mime_db w) (incoming w) (live_threads w).
Definition with_sock (reuse : bool) (bound : option Z) (w : world) : world :=
  World (pf w) (trace w) (exc_info w) (ports w) reuse
        bound (mime_db w) (incoming w) (live_threads w).
Definition with_mime_db (o : option MimeTypes) (w : world) : world :=
  World (pf w) (trace w) (exc_info w) (ports w) (sock_reuseaddr w)
        (sock_bound w) o (incoming w) (live_threads w).
Definition with_incoming (l : list connection) (w : world) : world :=
  World (pf w) (trace w) (exc_info w) (ports w) (sock_reuseaddr w)
        (sock_bound w) (mime_db w) l (live_threads w).
Definition with_live_threads (f : nat → nat) (w : world) : world :=
  World (pf w) (trace w) (exc_info w) (ports w) (sock_reuseaddr w)
        (sock_bound w) (mime_db w) (incoming w) (f (live_threads w)).

Definition emit (e : event) : M unit := modify (with_trace (fun t => t ++ [e])).

(** The first [except] clause whose classes match the exception. *)
Fixpoint find_clause {A} (clauses : list ((exn → bool) * (exn → M A)))
    (e : exn) : option (exn → M A) :=
  match clauses with
  | [] => None
  | (catches, handler) :: rest =>
      if catches e then Some handler else find_clause rest e
  end.

(** [try: body / except ...: handler / except ...: handler]: inside a handler
    [sys.exc_info()] is the exception being handled; it is restored on the
    way out. *)
Definition try_except {A} (body : M A)
    (clauses : list ((exn → bool) * (exn → M A))) : M A :=
  fun w =>
    match body w with
    | (w1, Raise e) =>
        match find_clause clauses e with
        | Some handler =>
            let saved := exc_info w1 in
            let '(w2, r) := handler e (with_exc_info (Some e) w1) in
            (with_exc_info saved w2, r)
        | None => (w1, Raise e)
        end
    | other => other
    end.

(** [try: body / finally: fin]: [fin] runs when [body] returns or raises,
    not when [body] never returns. *)
Definition try_finally {A} (body : M A) (fin : M unit) : M A :=
  fun w =>
    match body w with
    | (w1, Pending) => (w1, Pending)
    | (w1, r) =>
        match fin w1 with
        | (w2, Ok _) => (w2, r)
        | (w2, Raise e) => (w2, Raise e)
        | (w2, Pending) => (w2, Pending)
        end
    end.

Definition except_Exception (e : exn) : bool := issubclass (exn_class e) Exception.
Definition except_OSError (e : exn) : bool := issubclass (exn_class e) OSError.
Definition except_all (e : exn) : bool := true.

(** [str(n)] of an [int]. *)
Definition str_int (n : Z) : string := NilZero.string_of_int (Z.to_int n).

(** [repr] of a [(host, port)] tuple. *)
Definition repr_address (a : address) : string :=
  "('" +:+ a.1 +:+ "', " +:+ str_int a.2 +:+ ")".

(** [print(..., file=sys.stderr)], [print(...)], [traceback.print_exc()]. *)
Definition print_stderr (s : string) : M unit := emit (Stderr s).
Definition print (s : string) : M unit := emit (Stdout s).
Definition traceback_print_exc : M unit :=
  do w <- get; emit (StderrTraceback (exc_info w)).

(** [sys.exc_info()[0]] *)
Definition sys_exc_type : M (option pyclass) :=
  do w <- get; ret (exn_class <$> exc_info w).

(** ** socketserver.py *)

(** The class attributes and the method of the [BaseServer] hierarchy that
    [serve.py] overrides. *)
Record server_class : Type := ServerClass {
  allow_reuse_address : bool;
  allow_reuse_port : bool;
  request_queue_size : Z;
  handle_error : connection → M unit
}.

(** A server object: its class, [self.server_address] and
    [self.RequestHandlerClass]. *)
Record server : Type := Server {
  server_cls : server_class;
  server_address : string * pyvalue;
  RequestHandlerClass : connection → M unit
}.

(** ['-'*40] *)
Definition dashes40 : string := "----------------------------------------".

(** [BaseServer.handle_error]: print a traceback and continue. *)
Definition BaseServer_handle_error (request : connection) : M unit :=
  print_stderr dashes40 ;;
  print_stderr ("Exception occurred during processing of request from "
                +:+ repr_address (client_address request)) ;;
  traceback_print_exc ;;
  print_stderr dashes40.

Definition TCPServer : server_class :=
  {| allow_reuse_address := false;
     allow_reuse_port := false;
     request_queue_size := 5;
     handle_error := BaseServer_handle_error |}.

(** [class ThreadingTCPServer(ThreadingMixIn, TCPServer): pass]: the
    attributes are those of [TCPServer]; the methods of [ThreadingMixIn]
    ([process_request], [server_close]) are the ones defined below. *)
Definition ThreadingTCPServer : server_class := TCPServer.

(** [socket.setsockopt(SOL_SOCKET, opt, 1)] on the listening socket. *)
Definition setsockopt (opt : string) : M unit :=
  emit (SetSockOpt opt) ;;
  if bool_decide (opt = "SO_REUSEADDR")
  then do w <- get; modify (with_sock true (sock_bound w))
  else ret tt.

(** [socket.bind((host, port))]: the socket module refuses a port that is
    not an [int] with [TypeError] and one outside 0-65535 with
    [OverflowError]; otherwise the network stack answers. *)
Definition socket_bind (a : string * pyvalue) : M unit :=
  match a.2 with
  | PyInt port =>
      emit (SockBind (a.1, port)) ;;
      if bool_decide (port < 0 ∨ 65535 < port)
      then raise (raise_of OverflowError "bind(): port must be 0-65535.")
      else
        do w <- get;
        match bind_answer (pf w) (sock_reuseaddr w) port
                (port_status w port) with
        | Some e => raise e
        | None =>
            modify (with_ports (insert port PortBound)) ;;
            modify (with_sock (sock_reuseaddr w) (Some port))
        end
  | PyStr _ =>
      raise (raise_of TypeError
               "'str' object cannot be interpreted as an integer")
  | PyList _ =>
      raise (raise_of TypeError
               "'list' object cannot be interpreted as an integer")
  end.

(** [socket.close()] on the listening socket: a port the socket was bound to
    goes into teardown. *)
Definition socket_close : M unit :=
  emit SockClose ;;
  do w <- get;
  match sock_bound w with
  | Some p =>
      modify (with_ports (insert p PortTeardown)) ;;
      modify (with_sock (sock_reuseaddr w) None)
  | None => ret tt
  end.

(** [TCPServer.server_bind] *)
Definition server_bind (self : server) : M unit :=
  do w <- get;
  (if allow_reuse_address (server_cls self) && has_SO_REUSEADDR (pf w)
   then setsockopt "SO_REUSEADDR" else ret tt) ;;
  (if allow_reuse_port (server_cls self) && has_SO_REUSEPORT (pf w)
   then setsockopt "SO_REUSEPORT" else ret tt) ;;
  socket_bind (server_address self).

(** [TCPServer.server_activate] *)
Definition server_activate (self : server) : M unit :=
  emit (SockListen (request_queue_size (server_cls self))).

(** [ThreadingMixIn.server_close]: [TCPServer.server_close], then
    [self._threads.join()], which waits for the handler threads. *)
Definition server_close (self : server) : M unit :=
  socket_close ;;
  do w <- get;
  if bool_decide (live_threads w = 0%nat) then ret tt else pending.

(** [TCPServer.__init__] with [bind_and_activate=True]. *)
Definition TCPServer_init (cls : server_class)
    (server_address : string * pyvalue)
    (RequestHandlerClass : connection → M unit) : M server :=
  let self := Server cls server_address RequestHandlerClass in
  emit SockCreate ;;
  modify (with_sock false None) ;;
  try_except (server_bind self ;; server_activate self)
    [(except_all, fun e => server_close self ;; raise e)] ;;
  ret self.

(** [TCPServer.get_request]: [self.socket.accept()]. *)
Definition get_request (c : connection) : M connection :=
  match accept_error c with
  | Some e => raise e
  | None => emit (Accepted (conn_id c)) ;; ret c
  end.

(** [TCPServer.shutdown_request]: [request.shutdown(SHUT_WR)], whose
    [OSError] is passed over, then [close_request]. *)
Definition shutdown_request (request : connection) : M unit :=
  emit (ConnShutdown (conn_id request)) ;;
  emit (ConnClose (conn_id request)).

(** [BaseServer.finish_request] *)
Definition finish_request (self : server) (request : connection) : M unit :=
  RequestHandlerClass self request.

(** [ThreadingMixIn.process_request_thread] *)
Definition process_request_thread (self : server) (request : connection)
    : M unit :=
  try_finally
    (try_except (finish_request self request)
       [(except_Exception,
         fun _ => handle_error (server_cls self) request)])
    (shutdown_request request).

(** [threading.excepthook]: what a thread does with an exception that its
    target lets through. *)
Definition threading_excepthook (e : exn) : M unit :=
  if bool_decide (exn_class e = SystemExit) then ret tt
  else
    print_stderr "Exception in thread (process_request_thread):" ;;
    emit (StderrTraceback (Some e)).

(** [Thread.start()] followed by the thread's run.  The thread has its own
    [sys.exc_info()]; nothing it raises reaches the thread that started it,
    and a target that never returns leaves the thread alive while the
    starter goes on. *)
Definition thread_run (target : M unit) : M unit :=
  fun w =>
    let saved := exc_info w in
    match target (with_exc_info None w) with
    | (w1, Ok _) => (with_exc_info saved w1, Ok tt)
    | (w1, Raise e) =>
        let '(w2, _) := threading_excepthook e w1 in
        (with_exc_info saved w2, Ok tt)
    | (w1, Pending) =>
        (with_exc_info saved (with_live_threads S w1), Ok tt)
    end.

(** [ThreadingMixIn.process_request]: one new thread per request. *)
Definition process_request (self : server) (request : connection) : M unit :=
  match thread_start_error request with
  | Some e => raise e
  | None =>
      emit (ThreadStart (conn_id request)) ;;
      thread_run (process_request_thread self request)
  end.

(** The world in which the handler thread of connection [c] starts, when
    [c] is accepted in world [w]: the connection is accepted, the thread is
    started, and the thread has no exception in flight. *)
Definition dispatched (c : connection) (w : world) : world :=
  with_exc_info None
    (with_trace (λ t, t ++ [ThreadStart (conn_id c)])
       (with_trace (λ t, t ++ [Accepted (conn_id c)]) w)).

(** The world that the main thread goes on with when the handler thread of
    [c] ends in world [w1]: the connection is shut down and closed, and
    [sys.exc_info()] is that of the main thread, [saved]. *)
Definition reaped (c : connection) (saved : option exn) (w1 : world) : world :=
  with_exc_info saved
    (with_trace (λ t, t ++ [ConnClose (conn_id c)])
       (with_trace (λ t, t ++ [ConnShutdown (conn_id c)]) w1)).

(** [BaseServer._handle_request_noblock] ([verify_request] returns [True]). *)
Definition _handle_request_noblock (self : server) (c : connection) : M unit :=
  do got <- try_except (do r <- get_request c; ret (Some r))
              [(except_OSError, fun _ => ret None)];
  match got with
  | None => ret tt
  | Some request =>
      try_except (process_request self request)
        [(except_Exception,
          fun _ => handle_error (server_cls self) request ;;
                   shutdown_request request);
         (except_all,
          fun e => shutdown_request request ;; raise e)]
  end.

(** The [while not self.__shutdown_request] loop of [serve_forever], over the
    connections that arrive; nothing in [serve.py] calls [shutdown()], so the
    loop ends only by an exception, and once the last connection is
    dispatched [selector.select] waits for the next one. *)
Fixpoint serve_loop (self : server) (arrivals : list connection) : M unit :=
  match arrivals with
  | [] => pending
  | c :: rest => _handle_request_noblock self c ;; serve_loop self rest
  end.

(** [BaseServer.serve_forever] *)
Definition serve_forever (self : server) : M unit :=
  emit ServeForever ;;
  do w <- get;
  modify (with_incoming []) ;;
  try_finally (serve_loop self (incoming w)) (ret tt).

(** [with ctor as x: body] for a server: [__enter__] returns the server and
    [__exit__] calls [server_close] and lets the exception through. *)
Definition with_server (ctor : M server) (body : server → M unit) : M unit :=
  do httpd <- ctor;
  try_finally (body httpd) (server_close httpd).

(** ** serve.py: the server class *)

(** [ResilientTCPServer.handle_error] *)
Definition ResilientTCPServer_handle_error (request : connection) : M unit :=
  do exc_type <- sys_exc_type;
  if class_in exc_type [BrokenPipeError; ConnectionResetError]
  then ret tt
  else handle_error ThreadingTCPServer request.

(** [class ResilientTCPServer(socketserver.ThreadingTCPServer)] *)
Definition ResilientTCPServer : server_class :=
  {| allow_reuse_address := true;
     allow_reuse_port := allow_reuse_port ThreadingTCPServer;
     request_queue_size := request_queue_size ThreadingTCPServer;
     handle_error := ResilientTCPServer_handle_error |}.

(** ** Strings *)

Definition chars (s : string) : list ascii := String.list_ascii_of_string s.

Definition code (c : ascii) : Z := Z.of_N (N_of_ascii c).

(** [c in s] for a one-character [c]. *)
Definition char_in (c : ascii) (s : string) : bool := bool_decide (c ∈ chars s).

(** [s.startswith(prefix)] *)
Definition startswith (s prefix : string) : bool := String.prefix prefix s.

(** [s.split(sep, 1)] when [sep] occurs in [s]: the text before the first
    [sep] and the text after it. *)
Fixpoint split_once (sep : ascii) (s : string) : option (string * string) :=
  match s with
  | EmptyString => None
  | String c r =>
      if bool_decide (c = sep) then Some (EmptyString, r)
      else match split_once sep r with
           | Some (a, b) => Some (String c a, b)
           | None => None
           end
  end.

(** [sep.join(l)] *)
Fixpoint join (sep : string) (l : list string) : string :=
  match l with
  | [] => ""
  | [x] => x
  | x :: r => x +:+ sep +:+ join sep r
  end.

Definition is_digit (c : ascii) : bool :=
  bool_decide (48 ≤ code c ≤ 57).

Definition digit_value (c : ascii) : Z := code c - 48.

(** ** The built-in [int(str)] *)

(** White space that [int] skips around the number: the C-locale [isspace]
    characters, and the Unicode spaces NEL and NBSP, which
    [_PyUnicode_TransformDecimalAndSpaceToASCII] turns into a blank. *)
Definition int_space (c : ascii) : bool :=
  bool_decide (9 ≤ code c ≤ 13) || bool_decide (code c = 32)
  || bool_decide (code c = 133) || bool_decide (code c = 160).

Fixpoint drop_while {A} (f : A → bool) (l : list A) : list A :=
  match l with
  | [] => []
  | x :: r => if f x then drop_while f r else l
  end.

Inductive scan_prev : Type := AtStart | AfterDigit | AfterUnderscore.

(** The digit loop of [long_from_non_binary_base]: digits with single
    underscores between them; gives the value, the number of digits and the
    text left over. *)
Fixpoint scan_digits (prev : scan_prev) (acc : Z) (ndigits : Z)
    (cs : list ascii) : option (Z * Z * list ascii) :=
  let stop :=
    match prev with
    | AfterDigit => Some (acc, ndigits, cs)
    | AtStart | AfterUnderscore => None
    end in
  match cs with
  | [] => stop
  | c :: r =>
      if is_digit c
      then scan_digits AfterDigit (acc * 10 + digit_value c) (ndigits + 1) r
      else if bool_decide (c = "_"%char)
      then match prev with
           | AfterDigit => scan_digits AfterUnderscore acc ndigits r
           | AtStart | AfterUnderscore => None
           end
      else stop
  end.

(** [_PY_LONG_MAX_STR_DIGITS_THRESHOLD]: shorter numbers are never refused. *)
Definition max_str_digits_threshold : Z := 640.

(** [int(s)] in base 10: [None] stands for [ValueError]. *)
Definition py_int (max_str_digits : Z) (s : string) : option Z :=
  let cs := drop_while int_space (chars s) in
  let '(negative, cs) :=
    match cs with
    | c :: r =>
        if bool_decide (c = "-"%char) then (true, r)
        else if bool_decide (c = "+"%char) then (false, r)
        else (false, cs)
    | [] => (false, cs)
    end in
  match scan_digits AtStart 0 0 cs with
  | None => None
  | Some (value, ndigits, rest) =>
      if bool_decide (max_str_digits_threshold < ndigits)
         && bool_decide (0 < max_str_digits)
         && bool_decide (max_str_digits < ndigits)
      then None
      else match drop_while int_space rest with
           | [] => Some (if negative then - value else value)
           | _ :: _ => None
           end
  end.

(** The double quote. *)
Definition double_quote : ascii := "034"%char.

(** [repr(s)] of a [str]. *)
Definition hex_digit (n : Z) : ascii :=
  ascii_of_N (Z.to_N (if bool_decide (n < 10) then 48 + n else 87 + n)).

Definition repr_char (quote : ascii) (c : ascii) : string :=
  let bs := "\"%char in
  if bool_decide (c = quote) || bool_decide (c = bs)
  then String bs (String c "")
  else if bool_decide (code c = 9) then String bs "t"
  else if bool_decide (code c = 10) then String bs "n"
  else if bool_decide (code c = 13) then String bs "r"
  else if bool_decide (code c < 32) || bool_decide (127 ≤ code c ≤ 160)
          || bool_decide (code c = 173)
  then String bs (String "x" (String (hex_digit (code c / 16))
                                (String (hex_digit (code c mod 16)) "")))
  else String c "".

Definition repr_str (s : string) : string :=
  let quote :=
    if char_in "'" s && negb (char_in double_quote s)
    then double_quote else "'"%char in
  String quote (String.concat "" (repr_char quote <$> chars s))
  +:+ String quote "".

(** ** argparse.py *)

Inductive nargs_spec : Type := NargsNone | NargsZero.

Inductive action_class : Type := _HelpAction | _StoreAction.

(** An [argparse.Action]: [nargs] is [None] (one argument) for [store] and
    [0] for [help]; [type] is [int] or absent; [default] is absent when it is
    [SUPPRESS]. *)
Record Action : Type := Build_Action {
  action_cls : action_class;
  option_strings : list string;
  dest : string;
  nargs : nargs_spec;
  type_is_int : bool;
  default_value : option pyvalue;
  help : string
}.

Record ArgumentParser : Type := Build_ArgumentParser {
  description : string;
  prefix_chars : string;
  allow_abbrev : bool;
  _actions : list Action
}.

(** [ArgumentParser(description=...)]: [add_help] is [True] by default, so
    the constructor registers [-h]/[--help]. *)
Definition new_ArgumentParser (description : string) : ArgumentParser :=
  {| description := description;
     prefix_chars := "-";
     allow_abbrev := true;
     _actions :=
       [ {| action_cls := _HelpAction;
            option_strings := ["-h"; "--help"];
            dest := "help";
            nargs := NargsZero;
            type_is_int := false;
            default_value := None;
            help := "show this help message and exit" |} ] |}.

(** [parser.add_argument(option_string, type=int, default=..., help=...)]:
    the action is [store], and [dest] is the option string without its
    leading dashes. *)
Definition add_argument (parser : ArgumentParser) (option_string : string)
    (type_is_int : bool) (default : pyvalue) (help : string)
    : ArgumentParser :=
  {| description := description parser;
     prefix_chars := prefix_chars parser;
     allow_abbrev := allow_abbrev parser;
     _actions :=
       _actions parser ++
       [ {| action_cls := _StoreAction;
            option_strings := [option_string];
            dest := String.string_of_list_ascii
                      (drop_while (λ c, char_in c (prefix_chars parser))
                                  (chars option_string));
            nargs := NargsNone;
            type_is_int := type_is_int;
            default_value := Some default;
            help := help |} ] |}.

(** [parser._option_string_actions], in insertion order. *)
Definition _option_string_actions (parser : ArgumentParser)
    : list (string * Action) :=
  a ← _actions parser; (λ s, (s, a)) <$> option_strings a.

Fixpoint assoc {A} (k : string) (l : list (string * A)) : option A :=
  match l with
  | [] => None
  | (k', v) :: r => if bool_decide (k = k') then Some v else assoc k r
  end.

(** [action, option_string, explicit_arg]; the action is [None] for a string
    that looks like an option and is none of this parser's. *)
Definition option_tuple : Type := option Action * string * option string.

(** [ArgumentParser._get_option_tuples] *)
Definition _get_option_tuples (parser : ArgumentParser)
    (option_string : string) : list option_tuple :=
  match option_string with
  | String c0 (String c1 tail) =>
      if char_in c0 (prefix_chars parser) && char_in c1 (prefix_chars parser)
      then
        if allow_abbrev parser then
          let '(option_prefix, explicit_arg) :=
            match split_once "=" option_string with
            | Some (a, b) => (a, Some b)
            | None => (option_string, None)
            end in
          omap (λ '(os, action),
                  if startswith os option_prefix
                  then Some (Some action, os, explicit_arg) else None)
               (_option_string_actions parser)
        else []
      else if char_in c0 (prefix_chars parser)
      then
        let option_prefix := option_string in
        let short_option_prefix := String c0 (String c1 "") in
        let short_explicit_arg := tail in
        omap (λ '(os, action),
                if bool_decide (os = short_option_prefix)
                then Some (Some action, os, Some short_explicit_arg)
                else if startswith os option_prefix
                then Some (Some action, os, None) else None)
             (_option_string_actions parser)
      else []
  | _ => []
  end.

Fixpoint all_digits (cs : list ascii) : bool :=
  match cs with
  | [] => true
  | c :: r => is_digit c && all_digits r
  end.

(** [\d+] and [\d*\.\d+] against a whole text. *)
Definition matches_digits (cs : list ascii) : bool :=
  all_digits cs && negb (bool_decide (cs = [])).

Definition matches_fraction (cs : list ascii) : bool :=
  match drop_while is_digit cs with
  | c :: f => bool_decide (c = "."%char) && matches_digits f
  | [] => false
  end.

(** [re.compile(r'^-\d+$|^-\d*\.\d+$').match]; [$] also matches before a
    final newline. *)
Definition _negative_number_matcher (s : string) : bool :=
  match chars s with
  | c :: r =>
      let body :=
        match reverse r with
        | nl :: b => if bool_decide (code nl = 10) then reverse b else r
        | [] => r
        end in
      bool_decide (c = "-"%char)
      && (matches_digits body || matches_fraction body)
  | [] => false
  end.

(** [bool(parser._has_negative_number_optionals)] *)
Definition _has_negative_number_optionals (parser : ArgumentParser) : bool :=
  existsb (λ '(os, _), _negative_number_matcher os)
          (_option_string_actions parser).

Inductive optional_parse : Type :=
  | IsPositional
  | IsOptional (t : option_tuple)
  | IsAmbiguous (message : string).

(** [ArgumentParser._parse_optional] *)
Definition _parse_optional (parser : ArgumentParser) (arg_string : string)
    : optional_parse :=
  match arg_string with
  | EmptyString => IsPositional
  | String c0 _ =>
      if negb (char_in c0 (prefix_chars parser)) then IsPositional
      else
        match assoc arg_string (_option_string_actions parser) with
        | Some action => IsOptional (Some action, arg_string, None)
        | None =>
            if bool_decide (String.length arg_string = 1%nat)
            then IsPositional
            else
              let split_hit :=
                match split_once "=" arg_string with
                | Some (option_string, explicit_arg) =>
                    match assoc option_string
                                (_option_string_actions parser) with
                    | Some action =>
                        Some (Some action, option_string, Some explicit_arg)
                    | None => None
                    end
                | None => None
                end in
              match split_hit with
              | Some t => IsOptional t
              | None =>
                  match _get_option_tuples parser arg_string with
                  | (_ :: _ :: _) as option_tuples =>
                      IsAmbiguous
                        ("ambiguous option: " +:+ arg_string
                         +:+ " could match "
                         +:+ join ", " ((λ t, t.1.2) <$> option_tuples))
                  | [t] => IsOptional t
                  | [] =>
                      if _negative_number_matcher arg_string
                         && negb (_has_negative_number_optionals parser)
                      then IsPositional
                      else if char_in " " arg_string then IsPositional
                      else IsOptional (None, arg_string, None)
                  end
              end
        end
  end.

Inductive pattern_part : Type :=
  | PartA
  | PartDash
  | PartO (t : option_tuple).

(** The loop of [_parse_known_args] that builds [arg_strings_pattern]: ['-']
    for the first [--] and ['A'] for all that follows it, otherwise ['O'] or
    ['A'] by [_parse_optional]; an ambiguous abbreviation is an error at
    once. *)
Fixpoint arg_strings_pattern (parser : ArgumentParser)
    (arg_strings : list string) : string + list (string * pattern_part) :=
  match arg_strings with
  | [] => inr []
  | arg_string :: rest =>
      if bool_decide (arg_string = "--")
      then inr ((arg_string, PartDash) :: ((λ s, (s, PartA)) <$> rest))
      else
        match _parse_optional parser arg_string with
        | IsAmbiguous message => inl message
        | IsPositional =>
            match arg_strings_pattern parser rest with
            | inl m => inl m
            | inr l => inr ((arg_string, PartA) :: l)
            end
        | IsOptional t =>
            match arg_strings_pattern parser rest with
            | inl m => inl m
            | inr l => inr ((arg_string, PartO t) :: l)
            end
        end
  end.

(** [_get_action_name] and [str(ArgumentError(action, message))] *)
Definition _get_action_name (action : Action) : string :=
  join "/" (option_strings action).

Definition ArgumentError (action : Action) (message : string) : string :=
  "argument " +:+ _get_action_name action +:+ ": " +:+ message.

(** [ArgumentParser._get_value]: the [type] function applied to one string. *)
Definition _get_value (max_str_digits : Z) (action : Action)
    (arg_string : string) : string + pyvalue :=
  if type_is_int action then
    match py_int max_str_digits arg_string with
    | Some n => inr (PyInt n)
    | None =>
        inl (ArgumentError action
               ("invalid int value: " +:+ repr_str arg_string))
    end
  else inr (PyStr arg_string).

Fixpoint remove_first (x : string) (l : list string) : list string :=
  match l with
  | [] => []
  | y :: r => if bool_decide (x = y) then r else y :: remove_first x r
  end.

Fixpoint _get_value_each (max_str_digits : Z) (action : Action)
    (arg_strings : list string) : string + list pyvalue :=
  match arg_strings with
  | [] => inr []
  | v :: r =>
      match _get_value max_str_digits action v with
      | inl m => inl m
      | inr x =>
          match _get_value_each max_str_digits action r with
          | inl m => inl m
          | inr xs => inr (x :: xs)
          end
      end
  end.

(** [ArgumentParser._get_values] for [nargs] [None] or [0]: the first [--]
    is taken out; a single string is converted; anything else becomes the
    list of the converted strings. *)
Definition _get_values (max_str_digits : Z) (action : Action)
    (arg_strings : list string) : string + pyvalue :=
  let arg_strings := remove_first "--" arg_strings in
  match arg_strings, nargs action with
  | [arg_string], NargsNone => _get_value max_str_digits action arg_string
  | _, _ =>
      match _get_value_each max_str_digits action arg_strings with
      | inl m => inl m
      | inr l => inr (PyList l)
      end
  end.

Inductive parse_outcome : Type :=
  | Parsed (namespace : gmap string pyvalue) (extras : list string)
  | HelpExit
  | ErrorExit (message : string).

Definition action_tuple : Type := Action * list string * string.

(** [take_action] inside [_parse_known_args]: [_StoreAction] sets the
    attribute, [_HelpAction] prints the help and exits. *)
Definition take_action (max_str_digits : Z)
    (namespace : gmap string pyvalue) (t : action_tuple)
    : parse_outcome :=
  let '(action, argument_strings, option_string) := t in
  match _get_values max_str_digits action argument_strings with
  | inl m => ErrorExit m
  | inr argument_values =>
      match action_cls action with
      | _HelpAction => HelpExit
      | _StoreAction =>
          Parsed (<[dest action := argument_values]> namespace) []
      end
  end.

Fixpoint take_actions (max_str_digits : Z)
    (namespace : gmap string pyvalue) (ts : list action_tuple)
    : parse_outcome :=
  match ts with
  | [] => Parsed namespace []
  | t :: r =>
      match take_action max_str_digits namespace t with
      | Parsed namespace' _ => take_actions max_str_digits namespace' r
      | stop => stop
      end
  end.

Inductive explicit_result : Type :=
  | ExplicitError (message : string)
  | ExplicitStop (ts : list action_tuple)
  | ExplicitOpen (ts : list action_tuple) (action : Action)
                 (option_string : string).

(** The [while True] loop of [consume_optional] while there is an explicit
    argument: a flag without arguments hands the text on to the next
    single-dash flag, an option with one argument takes it. *)
Fixpoint consume_explicit (parser : ArgumentParser) (action : Action)
    (option_string : string) (explicit_arg : string)
    (action_tuples : list action_tuple) : explicit_result :=
  let ignored :=
    ExplicitError (ArgumentError action
                     ("ignored explicit argument " +:+ repr_str explicit_arg)) in
  let single_dash :=
    match option_string with
    | String _ (String c1 _) => negb (char_in c1 (prefix_chars parser))
    | _ => false
    end in
  match nargs action, explicit_arg with
  | NargsNone, _ =>
      ExplicitStop (action_tuples ++ [(action, [explicit_arg], option_string)])
  | NargsZero, EmptyString => ignored
  | NargsZero, String c new_explicit_arg =>
      if single_dash then
        let action_tuples := action_tuples ++ [(action, [], option_string)] in
        let char := match option_string with
                    | String c0 _ => c0
                    | EmptyString => "-"%char
                    end in
        let option_string := String char (String c "") in
        match assoc option_string (_option_string_actions parser) with
        | Some action =>
            match new_explicit_arg with
            | EmptyString => ExplicitOpen action_tuples action option_string
            | String _ _ =>
                consume_explicit parser action option_string new_explicit_arg
                                 action_tuples
            end
        | None => ignored
        end
      else ignored
  end.

(** The alternation of [consume_positionals] and [consume_optional] in
    [_parse_known_args] for a parser without positional arguments: a string
    that no option takes goes to [extras]; an option takes what its [nargs]
    asks for from the strings that follow it. *)
Fixpoint consume (parser : ArgumentParser) (max_str_digits : Z)
    (items : list (string * pattern_part))
    (namespace : gmap string pyvalue) (extras : list string)
    : parse_outcome :=
  match items with
  | [] => Parsed namespace extras
  | (arg_string, PartA) :: rest | (arg_string, PartDash) :: rest
  | (arg_string, PartO (None, _, _)) :: rest =>
      consume parser max_str_digits rest namespace (extras ++ [arg_string])
  | (arg_string, PartO (Some action, option_string, explicit_arg)) :: rest =>
      let chain :=
        match explicit_arg with
        | Some e => consume_explicit parser action option_string e []
        | None => ExplicitOpen [] action option_string
        end in
      match chain with
      | ExplicitError m => ErrorExit m
      | ExplicitStop ts =>
          match take_actions max_str_digits namespace ts with
          | Parsed namespace' _ =>
              consume parser max_str_digits rest namespace' extras
          | stop => stop
          end
      | ExplicitOpen ts action option_string =>
          match nargs action with
          | NargsZero =>
              match take_actions max_str_digits namespace
                      (ts ++ [(action, [], option_string)]) with
              | Parsed namespace' _ =>
                  consume parser max_str_digits rest namespace' extras
              | stop => stop
              end
          | NargsNone =>
              match rest with
              | (a, PartA) :: rest' =>
                  match take_actions max_str_digits namespace
                          (ts ++ [(action, [a], option_string)]) with
                  | Parsed namespace' _ =>
                      consume parser max_str_digits rest' namespace' extras
                  | stop => stop
                  end
              | _ => ErrorExit (ArgumentError action "expected one argument")
              end
          end
      end
  end.

(** The namespace before parsing: every action's [default] that is not
    [SUPPRESS]. *)
Definition default_namespace (parser : ArgumentParser) : gmap string pyvalue :=
  foldl (λ ns action,
           match default_value action with
           | Some v =>
               match ns !! dest action with
               | Some _ => ns
               | None => <[dest action := v]> ns
               end
           | None => ns
           end)
        ∅ (_actions parser).

(** [ArgumentParser.parse_known_args] *)
Definition parse_known_args (parser : ArgumentParser) (max_str_digits : Z)
    (args : list string) : parse_outcome :=
  match arg_strings_pattern parser args with
  | inl message => ErrorExit message
  | inr items =>
      consume parser max_str_digits items (default_namespace parser) []
  end.

(** [ArgumentParser.parse_args] as a function of the argument strings. *)
Definition parse_args_outcome (parser : ArgumentParser) (max_str_digits : Z)
    (args : list string) : parse_outcome :=
  match parse_known_args parser max_str_digits args with
  | Parsed namespace ((_ :: _) as argv) =>
      ErrorExit ("unrecognized arguments: " +:+ join " " argv)
  | other => other
  end.

(** [os.path.basename] *)
Fixpoint basename_chars (cs : list ascii) (acc : list ascii) : list ascii :=
  match cs with
  | [] => acc
  | c :: r =>
      if bool_decide (c = "/"%char) then basename_chars r []
      else basename_chars r (acc ++ [c])
  end.
Definition basename (s : string) : string :=
  String.string_of_list_ascii (basename_chars (chars s) []).

Definition SystemExit_ (code : Z) : exn := Exn SystemExit "" code.

(** [parser.parse_args()]: the arguments are [sys.argv[1:]]; [print_help]
    writes to standard output and exits with status 0; [error] writes the
    usage and the message to standard error and exits with status 2. *)
Definition ArgumentParser_parse_args (parser : ArgumentParser)
    : M (gmap string pyvalue) :=
  do w <- get;
  match parse_args_outcome parser (int_max_str_digits (pf w))
          (tail (sys_argv (pf w))) with
  | Parsed namespace _ => ret namespace
  | HelpExit =>
      emit (Stdout (format_help (pf w))) ;;
      raise (SystemExit_ 0)
  | ErrorExit message =>
      emit (Stderr (format_usage (pf w))) ;;
      emit (Stderr (basename (default "" (head (sys_argv (pf w))))
                    +:+ ": error: " +:+ message)) ;;
      raise (SystemExit_ 2)
  end.

(** ** serve.py: the command line *)

Definition DEFAULT_PORT : Z := 8000.

(** [parse_args()] of [serve.py] *)
Definition the_parser : ArgumentParser :=
  let parser := new_ArgumentParser "Static file server" in
  add_argument parser "--port" true (PyInt DEFAULT_PORT)
    ("Port to serve on (default: " +:+ str_int DEFAULT_PORT +:+ ")").

Definition parse_args : M (gmap string pyvalue) :=
  ArgumentParser_parse_args the_parser.

(** ** More strings: [str.lower], [str.rstrip], [str.split], [posixpath] *)

Definition of_chars (cs : list ascii) : string := String.string_of_list_ascii cs.

Definition lower_char (c : ascii) : ascii :=
  if bool_decide (65 ≤ code c ≤ 90)
     || (bool_decide (192 ≤ code c ≤ 222) && negb (bool_decide (code c = 215)))
  then ascii_of_N (Z.to_N (code c + 32))
  else c.

(** [s.lower()] *)
Definition lower (s : string) : string := of_chars (lower_char <$> chars s).

(** [str.isspace] of one character. *)
Definition is_space (c : ascii) : bool :=
  bool_decide (9 ≤ code c ≤ 13) || bool_decide (28 ≤ code c ≤ 32)
  || bool_decide (code c = 133) || bool_decide (code c = 160).

(** [s.rstrip()] *)
Definition rstrip (s : string) : string :=
  of_chars (reverse (drop_while is_space (reverse (chars s)))).

(** [s.endswith(suffix)] *)
Definition endswith (s suffix : string) : bool :=
  bool_decide (chars suffix `suffix_of` chars s).

(** [s.split(sep)] for a one-character [sep]. *)
Fixpoint split_chars (sep : ascii) (cs : list ascii) : list (list ascii) :=
  match cs with
  | [] => [[]]
  | c :: r =>
      if bool_decide (c = sep) then [] :: split_chars sep r
      else match split_chars sep r with
           | h :: t => (c :: h) :: t
           | [] => [[c]]
           end
  end.

Definition split (sep : ascii) (s : string) : list string :=
  of_chars <$> split_chars sep (chars s).

(** [s.split(sep, 1)[0]] *)
Definition before_first (sep : ascii) (s : string) : string :=
  match split_once sep s with
  | Some (a, _) => a
  | None => s
  end.

(** [s.rfind(c)] for a one-character [c]: the last index, or -1. *)
Fixpoint rfind_from (c : ascii) (cs : list ascii) (i last : Z) : Z :=
  match cs with
  | [] => last
  | x :: r => rfind_from c r (i + 1) (if bool_decide (x = c) then i else last)
  end.

Definition rfind (c : ascii) (s : string) : Z := rfind_from c (chars s) 0 (-1).

(** [genericpath._splitext(p, '/', None, '.')], which is
    [posixpath.splitext]: the extension starts at the last dot of the last
    component, unless only dots come before it in that component. *)
Definition splitext (p : string) : string * string :=
  let sepIndex := rfind "/" p in
  let dotIndex := rfind "." p in
  if bool_decide (sepIndex < dotIndex)
     && existsb (λ c, negb (bool_decide (c = "."%char)))
          (take (Z.to_nat (dotIndex - (sepIndex + 1)))
                (drop (Z.to_nat (sepIndex + 1)) (chars p)))
  then (of_chars (take (Z.to_nat dotIndex) (chars p)),
        of_chars (drop (Z.to_nat dotIndex) (chars p)))
  else (p, "").

(** [posixpath.join(a, b)] *)
Definition path_join (a b : string) : string :=
  if startswith b "/" then b
  else if bool_decide (a = "") || endswith a "/" then a +:+ b
  else a +:+ "/" +:+ b.

(** [posixpath.normpath] *)
Definition normpath (path : string) : string :=
  if bool_decide (path = "") then "."
  else
    let initial_slashes : Z :=
      if startswith path "/" then
        if startswith path "//" && negb (startswith path "///") then 2 else 1
      else 0 in
    let new_comps :=
      foldl (λ new_comps comp,
               if bool_decide (comp = "") || bool_decide (comp = ".")
               then new_comps
               else if negb (bool_decide (comp = ".."))
                       || (bool_decide (initial_slashes = 0)
                           && bool_decide (new_comps = []))
                       || bool_decide (last new_comps = Some "..")
               then new_comps ++ [comp]
               else take (length new_comps - 1) new_comps)
            [] (split "/" path) in
    let path := join "/" new_comps in
    let path :=
      if bool_decide (initial_slashes = 2) then "//" +:+ path
      else if bool_decide (initial_slashes = 1) then "/" +:+ path
      else path in
    if bool_decide (path = "") then "." else path.

(** ** mimetypes.py *)

Definition _suffix_map_default : gmap string string :=
  list_to_map
    [(".svgz", ".svg.gz"); (".tgz", ".tar.gz"); (".taz", ".tar.gz");
     (".tz", ".tar.gz"); (".tbz2", ".tar.bz2"); (".txz", ".tar.xz")].

Definition _encodings_map_default : gmap string string :=
  list_to_map
    [(".gz", "gzip"); (".Z", "compress"); (".bz2", "bzip2"); (".xz", "xz");
     (".br", "br")].

(** [MimeTypes.add_type(type, ext)] with [strict] true. *)
Definition MimeTypes_add_type (db : MimeTypes) (type ext : string) : MimeTypes :=
  {| types_map_strict := <[ext := type]> (types_map_strict db) |}.

Fixpoint take_while {A} (f : A → bool) (l : list A) : list A :=
  match l with
  | [] => []
  | x :: r => if f x then x :: take_while f r else []
  end.

(** [urllib.parse._splittype]: at the start of [url], one or more characters
    other than slash and colon, then a colon, then the rest. *)
Definition _splittype (url : string) : option string * string :=
  let not_sep := λ c, negb (bool_decide (c = "/"%char))
                      && negb (bool_decide (c = ":"%char)) in
  let scheme := take_while not_sep (chars url) in
  match scheme, drop (length scheme) (chars url) with
  | _ :: _, c :: data =>
      if bool_decide (c = ":"%char)
      then (Some (lower (of_chars scheme)), of_chars data)
      else (None, url)
  | _, _ => (None, url)
  end.

(** The [while (ext_lower := ext.lower()) in self.suffix_map] loop of
    [guess_type]; see [suffix_loop_exits] for why two rounds are all it
    ever takes. *)
Fixpoint suffix_loop (rounds : nat) (base ext : string) : string * string :=
  match rounds with
  | O => (base, ext)
  | S rounds' =>
      match _suffix_map_default !! lower ext with
      | Some replacement =>
          let '(base', ext') := splitext (base +:+ replacement) in
          suffix_loop rounds' base' ext'
      | None => (base, ext)
      end
  end.

(** [MimeTypes.guess_type(url)] with [strict] true: the type and the
    encoding. *)
Definition MimeTypes_guess_type (db : MimeTypes) (url : string)
    : option string * option string :=
  let '(scheme, url) := _splittype url in
  if bool_decide (scheme = Some "data") then
    match split_once "," url with
    | None => (None, None)
    | Some (before_comma, _) =>
        let type := before_first ";" before_comma in
        if char_in "=" type || negb (char_in "/" type)
        then (Some "text/plain", None)
        else (Some type, None)
    end
  else
    let '(base, ext) := splitext url in
    let '(base, ext) := suffix_loop 2 base ext in
    let '(encoding, ext) :=
      match _encodings_map_default !! ext with
      | Some e => (Some e, (splitext base).2)
      | None => (None, ext)
      end in
    let ext := lower ext in
    (types_map_strict db !! ext, encoding).

(** [mimetypes.init()]: the database of the platform. *)
Definition mimetypes_init : M MimeTypes :=
  do w <- get;
  let db := {| types_map_strict := mime_defaults (pf w) |} in
  modify (with_mime_db (Some db)) ;;
  ret db.

(** [if _db is None: init()] at the head of the module-level functions. *)
Definition mimetypes_db : M MimeTypes :=
  do w <- get;
  match mime_db w with
  | Some db => ret db
  | None => mimetypes_init
  end.

(** [mimetypes.add_type(type, ext)] *)
Definition mimetypes_add_type (type ext : string) : M unit :=
  do db <- mimetypes_db;
  modify (with_mime_db (Some (MimeTypes_add_type db type ext))).

(** [mimetypes.guess_type(url)] *)
Definition mimetypes_guess_type (url : string)
    : M (option string * option string) :=
  do db <- mimetypes_db;
  ret (MimeTypes_guess_type db url).

(** ** http/server.py: SimpleHTTPRequestHandler *)

(** [SimpleHTTPRequestHandler.extensions_map] *)
Definition extensions_map : gmap string string :=
  list_to_map
    [(".gz", "application/gzip"); (".Z", "application/octet-stream");
     (".bz2", "application/x-bzip2"); (".xz", "application/x-xz")].

(** [SimpleHTTPRequestHandler.guess_type] *)
Definition guess_type (path : string) : M string :=
  let '(base, ext) := splitext path in
  match extensions_map !! ext with
  | Some t => ret t
  | None =>
      let ext := lower ext in
      match extensions_map !! ext with
      | Some t => ret t
      | None =>
          do r <- mimetypes_guess_type path;
          match r.1 with
          | Some guess =>
              if bool_decide (guess = "") then ret "application/octet-stream"
              else ret guess
          | None => ret "application/octet-stream"
          end
      end
  end.

(** [SimpleHTTPRequestHandler.translate_path], with [self.directory] the
    current directory and [os.path] that of POSIX. *)
Definition translate_path (p : platform) (path : string) : string :=
  let path := before_first "?" path in
  let path := before_first "#" path in
  let trailing_slash := endswith (rstrip path) "/" in
  let path := unquote p path in
  let path := normpath path in
  let words := filter (λ w, w ≠ "") (split "/" path) in
  let path :=
    foldl (λ path word,
             if bool_decide (word = ".") || bool_decide (word = "..")
             then path
             else path_join path word)
          (getcwd p) words in
  if trailing_slash then path +:+ "/" else path.

(** [self.headers[name]] and [name in self.headers]: header names compare
    without regard to case. *)
Definition get_header (name : string) (headers : list (string * string))
    : option string :=
  snd <$> list_find (λ h, lower h.1 = lower name) headers
  ≫= λ x, Some x.2.

(** [message.translate(self._control_char_table)] of [log_message] *)
Definition translate_control (s : string) : string :=
  String.concat ""
    ((λ c, if bool_decide (code c < 32) || bool_decide (127 ≤ code c < 160)
           then String "\" (String "x" (String (hex_digit (code c / 16))
                                          (String (hex_digit (code c mod 16)) "")))
           else if bool_decide (c = "\"%char) then "\\"
           else String c "") <$> chars s).

(** [log_message(format, *args)] once the message is formatted. *)
Definition log_message (c : connection) (message : string) : M unit :=
  do w <- get;
  emit (Stderr ((client_address c).1 +:+ " - - ["
                +:+ log_date_time_string (pf w) +:+ "] "
                +:+ translate_control message)).

(** [send_response(code)]: [log_request(code)], and the two standard
    headers. *)
Definition send_response (c : connection) (code : Z)
    : M (list (string * string)) :=
  do w <- get;
  log_message c (String double_quote (requestline (conn_request c))
                 +:+ String double_quote " "
                 +:+ str_int code +:+ " -") ;;
  ret [("Server", version_string (pf w)); ("Date", date_time_now (pf w))].

(** [send_error(code, message)]: the error is logged, the response is
    logged, and the page is left out of the answer to a [HEAD] request. *)
Definition send_error (c : connection) (code : Z) (message : string)
    : M response :=
  do w <- get;
  log_message c ("code " +:+ str_int code +:+ ", message " +:+ message) ;;
  do std <- send_response c code;
  let page := error_body (pf w) code message in
  ret {| status := code;
         resp_headers :=
           std ++
           [("Connection", "close");
            ("Content-Type", "text/html;charset=utf-8");
            ("Content-Length", str_int (Z.of_nat (length page)))];
         body := if bool_decide (command (conn_request c) = "HEAD")
                 then [] else page |}.

(** The test of [send_head] that answers 304: an [If-Modified-Since] header
    without [If-None-Match], a date that parses, in UTC or without zone, and
    not before the file's modification time. *)
Definition not_modified (p : platform) (headers : list (string * string))
    (mtime : Z) : bool :=
  match get_header "If-Modified-Since" headers,
        get_header "If-None-Match" headers with
  | Some v, None =>
      match parsedate_to_datetime p v with
      | ImsUtc ims => bool_decide (mtime ≤ ims)
      | ImsInvalid | ImsOtherZone => false
      end
  | _, _ => false
  end.

(** The part of [send_head] from [ctype = self.guess_type(path)] on: the
    response head, and the open file when there is one to copy. *)
Definition send_file_head (c : connection) (path : string)
    : M (response * option file_data) :=
  do w <- get;
  do ctype <- guess_type path;
  if endswith path "/"
  then do r <- send_error c 404 "File not found"; ret (r, None)
  else
    match open_rb (pf w) path with
    | None => do r <- send_error c 404 "File not found"; ret (r, None)
    | Some f =>
        if not_modified (pf w) (headers (conn_request c)) (file_mtime f)
        then
          do std <- send_response c 304;
          ret ({| status := 304; resp_headers := std; body := [] |}, None)
        else
          do std <- send_response c 200;
          ret ({| status := 200;
                  resp_headers :=
                    std ++
                    [("Content-type", ctype);
                     ("Content-Length",
                      str_int (Z.of_nat (length (file_bytes f))));
                     ("Last-Modified",
                      date_time_string (pf w) (file_mtime f))];
                  body := [] |}, Some f)
    end.

(** [self.path] *)
Definition request_url (c : connection) : string := path (conn_request c).

(** [SimpleHTTPRequestHandler.send_head] *)
Definition send_head (c : connection) : M (response * option file_data) :=
  do w <- get;
  let url := request_url c in
  let path := translate_path (pf w) url in
  if isdir (pf w) path then
    if negb (endswith (urlsplit_path (pf w) url) "/")
    then
      do std <- send_response c 301;
      ret ({| status := 301;
              resp_headers :=
                std ++ [("Location", redirect_location (pf w) url);
                        ("Content-Length", "0")];
              body := [] |}, None)
    else
      match list_find (isfile (pf w))
                      [path_join path "index.html";
                       path_join path "index.htm"] with
      | Some (_, index) => send_file_head c index
      | None =>
          match list_directory (pf w) path with
          | Some page =>
              do std <- send_response c 200;
              ret ({| status := 200;
                      resp_headers :=
                        std ++
                        [("Content-type", "text/html; charset="
                                          +:+ getfilesystemencoding (pf w));
                         ("Content-Length",
                          str_int (Z.of_nat (length page)))];
                      body := [] |}, Some (FileData page 0))
          | None =>
              do r <- send_error c 404 "No permission to list directory";
              ret (r, None)
          end
      end
  else send_file_head c path.

(** [do_GET]: [send_head], then [copyfile] of what it opened. *)
Definition do_GET (c : connection) : M response :=
  do r <- send_head c;
  match r.2 with
  | Some f => ret {| status := status r.1;
                     resp_headers := resp_headers r.1;
                     body := file_bytes f |}
  | None => ret r.1
  end.

(** [do_HEAD]: [send_head], and the file is closed unread. *)
Definition do_HEAD (c : connection) : M response :=
  do r <- send_head c;
  ret r.1.

(** [getattr(self, 'do_' + self.command)()] of [handle_one_request], or the
    501 of a command without method. *)
Definition call_method (c : connection) : M response :=
  let req := conn_request c in
  if bool_decide (command req = "GET") then do_GET c
  else if bool_decide (command req = "HEAD") then do_HEAD c
  else send_error c 501
         ("Unsupported method (" +:+ repr_str (command req) +:+ ")").

(** [handle_one_request] for a request that [parse_request] accepted: what
    the method hands to [wfile] reaches the client unless the socket
    refuses it. *)
Definition handle_one_request (c : connection) : M unit :=
  do r <- call_method c;
  match write_error c with
  | Some e => raise e
  | None => emit (Sent (conn_id c) (conn_request c) r)
  end.

(** [SimpleHTTPRequestHandler(request, client_address, server)]:
    [setup], [handle], [finish]; [protocol_version] is HTTP/1.0, so one
    request is handled per connection. *)
Definition SimpleHTTPRequestHandler (c : connection) : M unit :=
  if client_stalls c then pending else handle_one_request c.

(** ** serve.py: the module *)

(** The two statements at the top of the module:
    [mimetypes.add_type("application/javascript", ".js")] and
    [mimetypes.add_type("text/css", ".css")]. *)
Definition module_top : M unit :=
  mimetypes_add_type "application/javascript" ".js" ;;
  mimetypes_add_type "text/css" ".css".

(** [args.port] *)
Definition getattr (namespace : gmap string pyvalue) (name : string)
    : M pyvalue :=
  match namespace !! name with
  | Some v => ret v
  | None =>
      raise (raise_of AttributeError
               ("'Namespace' object has no attribute '" +:+ name +:+ "'"))
  end.

(** [str(v)], which is what an f-string puts for [{v}]. *)
Fixpoint py_str (v : pyvalue) : string :=
  match v with
  | PyInt n => str_int n
  | PyStr s => s
  | PyList l =>
      "[" +:+ join ", " ((λ x, match x with
                               | PyStr s => repr_str s
                               | _ => py_str x
                               end) <$> l) +:+ "]"
  end.

(** The block under [if __name__ == "__main__":]. *)
Definition main_block : M unit :=
  do args <- parse_args;
  let handler := SimpleHTTPRequestHandler in
  do port <- getattr args "port";
  with_server (TCPServer_init ResilientTCPServer ("", port) handler)
    (λ httpd,
       print ("Serving on http://localhost:" +:+ py_str port) ;;
       serve_forever httpd).

(** [serve.py] run as a script. *)
Definition serve_py : M unit := module_top ;; main_block.

(** ** The interpreter around the script *)

Inductive exit_status : Type :=
  | Exited (code : Z)
  | Running.

(** [python3 script]: a script that returns leaves status 0; [SystemExit]
    leaves its code; [KeyboardInterrupt] leaves 130 and any other exception
    1, after the traceback on standard error.  The interpreter then waits
    for the threads that are still alive.  A script that is still waiting
    when the last client has been dispatched keeps running. *)
Definition python (script : M unit) (w : world) : world * exit_status :=
  let finish (w1 : world) (code : Z) :=
    if bool_decide (live_threads w1 = 0%nat) then (w1, Exited code)
    else (w1, Running) in
  match script w with
  | (w1, Ok _) => finish w1 0
  | (w1, Raise e) =>
      if issubclass (exn_class e) SystemExit then finish w1 (exn_code e)
      else
        let w2 := with_trace (λ t, t ++ [StderrTraceback (Some e)]) w1 in
        finish w2 (if issubclass (exn_class e) KeyboardInterrupt
                   then 130 else 1)
  | (w1, Pending) => (w1, Running)
  end.

(** A new process on platform [p]: nothing written yet, no socket, no
    [mimetypes] database; the kernel's ports are in the state [ports], and
    [clients] are the connections that will be made to it. *)
Definition boot (p : platform) (ports : gmap Z port_state)
    (clients : list connection) : world :=
  {| pf := p;
     trace := [];
     exc_info := None;
     ports := ports;
     sock_reuseaddr := false;
     sock_bound := None;
     mime_db := None;
     incoming := clients;
     live_threads := 0%nat |}.

(** The kernel's ports once the process of world [w] is stopped: the port of
    its listening socket is in teardown. *)
Definition ports_after_stop (w : world) : gmap Z port_state :=
  match sock_bound w with
  | Some port => <[port := PortTeardown]> (ports w)
  | None => ports w
  end.

(** ** What a run is checked against *)

(** The [mimetypes] database once [serve.py] is imported on platform [p]. *)
Definition loaded_db (p : platform) : MimeTypes :=
  MimeTypes_add_type
    (MimeTypes_add_type {| types_map_strict := mime_defaults p |}
       "application/javascript" ".js")
    "text/css" ".css".

(** [r] is what the handler computes for the request of some connection, in
    a process on platform [p] whose [mimetypes] database is [db]. *)
Definition answers (p : platform) (db : MimeTypes) (req : http_request)
    (r : response) : Prop :=
  ∃ (c : connection) (w w' : world),
    conn_request c = req ∧ pf w = p ∧ mime_db w = Some db
    ∧ call_method c w = (w', Ok r).

(** An event that a process on [p] with database [db] may add to its trace:
    a response is one that the handler computes there. *)
Definition event_ok (p : platform) (db : MimeTypes) (e : event) : Prop :=
  match e with
  | Sent _ req r => answers p db req r
  | _ => True
  end.

(** The invariant of a process on [p] with database [db] that started
    from the trace [t0]: the platform and the database stay, the trace
    grows at its end, and what is added is [event_ok]. *)
Definition Inv (p : platform) (db : MimeTypes) (t0 : list event)
    (w : world) : Prop :=
  pf w = p ∧ mime_db w = Some db
  ∧ ∃ t, trace w = t0 ++ t ∧ Forall (event_ok p db) t.

Definition preserves {A} (I : world → Prop) (c : M A) : Prop :=
  ∀ w, I w → I (c w).1.

(** The port that the command line of platform [p] configures. *)
Definition configured_port (p : platform) : option Z :=
  match parse_args_outcome the_parser (int_max_str_digits p)
          (tail (sys_argv p)) with
  | Parsed namespace _ =>
      match namespace !! "port" with
      | Some (PyInt n) => Some n
      | _ => None
      end
  | _ => None
  end.

(** What the constructor of a [ResilientTCPServer] on port [port] leaves in
    the trace when it succeeds on platform [p]. *)
Definition startup_events (p : platform) (port : Z) : list event :=
  [SockCreate]
  ++ (if has_SO_REUSEADDR p then [SetSockOpt "SO_REUSEADDR"] else [])
  ++ [SockBind ("", port); SockListen 5].

(** The line that [serve.py] prints for port [port]. *)
Definition serving_line (port : Z) : string :=
  "Serving on http://localhost:" +:+ str_int port.

(** The network stack of [p] accepts a [ResilientTCPServer] on [port] when
    the kernel's ports are [ports]. *)
Definition bind_accepted (p : platform) (ports : gmap Z port_state)
    (port : Z) : Prop :=
  0 ≤ port ≤ 65535
  ∧ bind_answer p (has_SO_REUSEADDR p) port (default PortFree (ports !! port))
    = None.

(** The socket module or the network stack of [p] refuses [port] with the
    exception [e] when the kernel's ports are [ports]. *)
Definition bind_refused (p : platform) (ports : gmap Z port_state)
    (port : Z) (e : exn) : Prop :=
  ((port < 0 ∨ 65535 < port)
   ∧ e = raise_of OverflowError "bind(): port must be 0-65535.")
  ∨ (0 ≤ port ≤ 65535
     ∧ bind_answer p (has_SO_REUSEADDR p) port
         (default PortFree (ports !! port)) = Some e).

(** What the constructor leaves in the trace when [bind] is refused. *)
Definition refused_events (p : platform) (port : Z) : list event :=
  [SockCreate]
  ++ (if has_SO_REUSEADDR p then [SetSockOpt "SO_REUSEADDR"] else [])
  ++ [SockBind ("", port); SockClose].

(** The two actions of the parser of [serve.py]. *)
Definition help_action : Action :=
  {| action_cls := _HelpAction;
     option_strings := ["-h"; "--help"];
     dest := "help";
     nargs := NargsZero;
     type_is_int := false;
     default_value := None;
     help := "show this help message and exit" |}.

Definition port_action : Action :=
  {| action_cls := _StoreAction;
     option_strings := ["--port"];
     dest := "port";
     nargs := NargsNone;
     type_is_int := true;
     default_value := Some (PyInt 8000);
     help := "Port to serve on (default: 8000)" |}.


(** The number that a run of digits denotes, from the left, after [acc]. *)
Definition digits_value (cs : list ascii) (acc : Z) : Z :=
  foldl (λ a c, a * 10 + digit_value c) acc cs.

(** ** More of what a run is checked against *)

(** The world [w] with [t] added at the end of its trace. *)
Definition appended (t : list event) (w : world) : world :=
  with_trace (λ t0, t0 ++ t) w.


(** A line of the log on standard error. *)
Definition is_log (e : event) : Prop :=
  match e with
  | Stderr _ => True
  | _ => False
  end.

(** An event of the serving phase: a connection accepted, its thread
    started, a log line or a traceback on standard error, an answer sent,
    a connection shut down or closed. *)
Definition serving_event (e : event) : Prop :=
  match e with
  | Accepted _ | ThreadStart _ | Stderr _ | StderrTraceback _
  | Sent _ _ _ | ConnShutdown _ | ConnClose _ => True
  | _ => False
  end.






(** The server object of [serve.py] on port [port]. *)
Definition httpd (port : Z) : server :=
  Server ResilientTCPServer ("", PyInt port) SimpleHTTPRequestHandler.

(** The two headers that [send_response] puts first in every answer. *)
Definition standard_headers (p : platform) : list (string * string) :=
  [("Server", version_string p); ("Date", date_time_now p)].

(** The answer that [send_error(code, message)] gives to a request with
    method [method]: the page is left out for [HEAD]. *)
Definition error_response (p : platform) (method : string) (code : Z)
    (message : string) : response :=
  let page := error_body p code message in
  {| status := code;
     resp_headers :=
       standard_headers p ++
       [("Connection", "close");
        ("Content-Type", "text/html;charset=utf-8");
        ("Content-Length", str_int (Z.of_nat (length page)))];
     body := if bool_decide (method = "HEAD") then [] else page |}.



(** A component of a path below the served directory: a name that is not
    empty, not [.], not [..], and has no slash. *)
Definition simple_name (word : string) : Prop :=
  word ≠ "" ∧ word ≠ "." ∧ word ≠ ".." ∧ "/"%char ∉ chars word.

(** What [posixpath.join] puts between [root] and the first of [words]. *)
Definition join_separator (root : string) (words : list string) : string :=
  if bool_decide (words = []) || bool_decide (root = "") || endswith root "/"
  then "" else "/".

(** A character that [log_message] does not let through as it is: a C0 or
    C1 control character or DEL. *)
Definition is_control (c : ascii) : Prop :=
  code c < 32 ∨ 127 ≤ code c < 160.


(** Two heads of answers, to requests with the methods [m1] and [m2], that
    differ at most in the error page that a [HEAD] leaves out. *)
Definition same_head (m1 m2 : string)
    (x y : response * option file_data) : Prop :=
  status x.1 = status y.1
  ∧ resp_headers x.1 = resp_headers y.1
  ∧ x.2 = y.2
  ∧ ∃ page,
      body x.1 = (if bool_decide (m1 = "HEAD") then [] else page)
      ∧ body y.1 = (if bool_decide (m2 = "HEAD") then [] else page).

(** ** A concrete machine *)

(** A directory [/srv] with four files, a kernel that refuses a port in
    teardown unless SO_REUSEADDR is set, and a platform MIME table that
    knows [.html] and calls [.js] [text/plain]. *)
Definition demo_files (name : string) : option file_data :=
  if bool_decide (name = "/srv/index.html")
  then Some (FileData (chars "<h1>hi</h1>") 1000)
  else if bool_decide (name = "/srv/app.js")
  then Some (FileData (chars "let x = 1;") 1000)
  else if bool_decide (name = "/srv/site.css")
  then Some (FileData (chars "h1 { }") 1000)
  else if bool_decide (name = "/srv/.js")
  then Some (FileData (chars "hidden") 1000)
  else None.

Definition address_in_use : exn :=
  raise_of OSError "[Errno 98] Address already in use".

Definition demo_bind_answer (reuse : bool) (port : Z) (st : port_state)
    : option exn :=
  match st with
  | PortFree => None
  | PortBound => Some address_in_use
  | PortTeardown => if reuse then None else Some address_in_use
  end.

Definition demo_platform (args : list string) : platform :=
  {| has_SO_REUSEADDR := true;
     has_SO_REUSEPORT := true;
     bind_answer := demo_bind_answer;
     mime_defaults := {[ ".html" := "text/html"; ".js" := "text/plain" ]};
     getcwd := "/srv";
     isdir := λ name, bool_decide (name = "/srv" ∨ name = "/srv/");
     isfile := λ name, bool_decide (is_Some (demo_files name));
     open_rb := demo_files;
     log_date_time_string := "03/Nov/2026 12:00:00";
     sys_argv := "serve.py" :: args;
     int_max_str_digits := 4300;
     format_usage := "usage: serve.py [-h] [--port PORT]";
     format_help := "usage: serve.py [-h] [--port PORT]";
     unquote := λ s, s;
     urlsplit_path := λ s, s;
     redirect_location := λ s, s +:+ "/";
     list_directory := λ _, Some (chars "<ul></ul>");
     getfilesystemencoding := "utf-8";
     parsedate_to_datetime :=
       λ v, if bool_decide (v = "Thu, 01 Jan 1970 01:00:00 GMT")
            then ImsUtc 3600 else ImsInvalid;
     version_string := "SimpleHTTP/0.6 Python/3.11.2";
     date_time_now := "Tue, 03 Nov 2026 12:00:00 GMT";
     date_time_string := λ _, "Thu, 01 Jan 1970 00:16:40 GMT";
     error_body := λ _ message, chars message |}.

(** A client that asks for [url] with [headers]; [fault] is what writing
    the answer raises. *)
Definition demo_client (id : nat) (method url : string)
    (headers : list (string * string)) (fault : option exn) : connection :=
  {| conn_id := id;
     client_address := ("127.0.0.1", 50000 + Z.of_nat id);
     accept_error := None;
     thread_start_error := None;
     conn_request :=
       {| requestline := method +:+ " " +:+ url +:+ " HTTP/1.1";
          command := method;
          path := url;
          headers := headers |};
     write_error := fault;
     client_stalls := false |}.

Definition demo_server : server :=
  Server ResilientTCPServer ("", PyInt 8001) SimpleHTTPRequestHandler.

(** The process once the module is imported: [module_top] has run. *)
Definition demo_world : world :=
  (module_top (boot (demo_platform ["--port"; "8001"]) ∅ [])).1.

(** A class of the user's own below [BrokenPipeError]. *)
Definition ClientGone : pyclass := UserClass "ClientGone" BrokenPipeError.

(** The answers of that machine: the two headers of every response, then
    those of a file. *)
Definition demo_response (code : Z) (extra : list (string * string))
    (content : string) : response :=
  {| status := code;
     resp_headers :=
       [("Server", "SimpleHTTP/0.6 Python/3.11.2");
        ("Date", "Tue, 03 Nov 2026 12:00:00 GMT")] ++ extra;
     body := chars content |}.

Definition demo_file_headers (ctype length : string)
    : list (string * string) :=
  [("Content-type", ctype); ("Content-Length", length);
   ("Last-Modified", "Thu, 01 Jan 1970 00:16:40 GMT")].

Definition demo_get (url : string) (headers : list (string * string))
    : connection :=
  demo_client 1 "GET" url headers None.

(** A client that connects and sends nothing. *)
Definition demo_stalled (id : nat) : connection :=
  {| conn_id := id;
     client_address := ("127.0.0.1", 50000 + Z.of_nat id);
     accept_error := None;
     thread_start_error := None;
     conn_request :=
       {| requestline := ""; command := ""; path := ""; headers := [] |};
     write_error := None;
     client_stalls := true |}.


(** A connection for which no thread can be started. *)
Definition demo_no_thread (id : nat) : connection :=
  {| conn_id := id;
     client_address := ("127.0.0.1", 50000 + Z.of_nat id);
     accept_error := None;
     thread_start_error :=
       Some (raise_of RuntimeError "can't start new thread");
     conn_request :=
       {| requestline := ""; command := ""; path := ""; headers := [] |};
     write_error := None;
     client_stalls := false |}.

(** * Verification *)

(** ** The exception filter of [ResilientTCPServer.handle_error] *)

Lemma world_eta w :
  World (pf w) (trace w) (exc_info w) (ports w) (sock_reuseaddr w)
        (sock_bound w) (mime_db w) (incoming w) (live_threads w) = w.
Proof. by destruct w. Qed.

Lemma with_exc_info_same w : with_exc_info (exc_info w) w = w.
Proof. apply world_eta. Qed.

Lemma with_exc_info_twice o o' w :
  with_exc_info o (with_exc_info o' w) = with_exc_info o w.
Proof. done. Qed.

(** What the inherited method does: four writes to standard error, the
    third being the traceback of the exception in flight; it returns. *)
Lemma BaseServer_handle_error_spec (c : connection) (w : world) :
  BaseServer_handle_error c w =
  (with_trace (λ t, t ++ [Stderr dashes40])
     (with_trace (λ t, t ++ [StderrTraceback (exc_info w)])
        (with_trace
           (λ t, t ++ [Stderr ("Exception occurred during processing of request from "
                               +:+ repr_address (client_address c))])
           (with_trace (λ t, t ++ [Stderr dashes40]) w))),
   Ok tt).
Proof. done. Qed.

(** The method as a function of the class in flight. *)
Lemma handle_error_unfold (c : connection) (w : world) :
  handle_error ResilientTCPServer c w =
  if class_in (exn_class <$> exc_info w) [BrokenPipeError; ConnectionResetError]
  then (w, Ok tt)
  else BaseServer_handle_error c w.
Proof.
  change (handle_error ResilientTCPServer) with ResilientTCPServer_handle_error.
  unfold ResilientTCPServer_handle_error, sys_exc_type, bind, get, ret.
  by destruct (class_in _ _).
Qed.

(** With a suppressed class in flight the method returns at once and leaves
    the world as it found it. *)
Lemma handle_error_suppressed (c : connection) (w : world) (e : exn) :
  exc_info w = Some e →
  exn_class e ∈ [BrokenPipeError; ConnectionResetError] →
  handle_error ResilientTCPServer c w = (w, Ok tt).
Proof.
  intros Hinfo Hin. rewrite handle_error_unfold, Hinfo. cbn.
  by rewrite bool_decide_eq_true_2.
Qed.

(** With any other class in flight, or none, the method is the inherited
    one. *)
Lemma handle_error_inherited (c : connection) (w : world) :
  (∀ e, exc_info w = Some e → exn_class e ∉ [BrokenPipeError; ConnectionResetError]) →
  handle_error ResilientTCPServer c w = BaseServer_handle_error c w.
Proof.
  intros Hnot. rewrite handle_error_unfold.
  destruct (exc_info w) as [e|] eqn:Hinfo; cbn; [|done].
  rewrite bool_decide_eq_false_2; [done|]. by apply Hnot.
Qed.

Lemma BaseServer_handle_error_trace (c : connection) (w : world) :
  trace (BaseServer_handle_error c w).1 =
  trace w ++
  [Stderr dashes40;
   Stderr ("Exception occurred during processing of request from "
           +:+ repr_address (client_address c));
   StderrTraceback (exc_info w);
   Stderr dashes40].
Proof.
  rewrite BaseServer_handle_error_spec. cbn.
  by rewrite <- !app_assoc.
Qed.

(** ** One connection through the serve loop *)

Lemma bind_unfold {A B} (c : M A) (k : A → M B) (w : world) :
  bind c k w =
  match c w with
  | (w1, Ok a) => k a w1
  | (w1, Raise e) => (w1, Raise e)
  | (w1, Pending) => (w1, Pending)
  end.
Proof. done. Qed.

(** The thread of a connection whose handler raises an [Exception]: the
    server's [handle_error] runs with that exception in flight, then the
    connection is shut down and closed, and the thread ends. *)
Lemma process_request_thread_raise (self : server) (c : connection)
    (w0 w1 w2 : world) (e : exn) :
  RequestHandlerClass self c w0 = (w1, Raise e) →
  except_Exception e = true →
  handle_error (server_cls self) c (with_exc_info (Some e) w1) = (w2, Ok tt) →
  process_request_thread self c w0 =
  (with_trace (λ t, t ++ [ConnClose (conn_id c)])
     (with_trace (λ t, t ++ [ConnShutdown (conn_id c)])
        (with_exc_info (exc_info w1) w2)),
   Ok tt).
Proof.
  intros Hh Hex Herr.
  unfold process_request_thread, try_finally, try_except, finish_request.
  rewrite Hh. cbn. rewrite Hex, Herr. done.
Qed.


(** One round of the serve loop for a connection that is accepted and whose
    thread starts: whatever the thread does, the loop goes on to the next
    connection. *)
Lemma serve_loop_step (self : server) (c : connection)
    (rest : list connection) (w : world) :
  accept_error c = None →
  thread_start_error c = None →
  serve_loop self (c :: rest) w =
  serve_loop self rest
    (match process_request_thread self c (dispatched c w) with
     | (w1, Ok _) => with_exc_info (exc_info w) w1
     | (w1, Raise e) =>
         with_exc_info (exc_info w) (threading_excepthook e w1).1
     | (w1, Pending) => with_exc_info (exc_info w) (with_live_threads S w1)
     end).
Proof.
  intros Hacc Hstart. cbn [serve_loop]. rewrite bind_unfold.
  unfold _handle_request_noblock, get_request. rewrite Hacc.
  unfold try_except at 1. cbn.
  unfold try_except, process_request. rewrite Hstart. cbn.
  unfold thread_run, dispatched. cbn.
  destruct (process_request_thread _ _ _) as [w1 [[]|e|]]; cbn; try done.
  by destruct (threading_excepthook e w1).
Qed.

Lemma suppressed_is_Exception (e : exn) :
  exn_class e ∈ [BrokenPipeError; ConnectionResetError] →
  except_Exception e = true.
Proof.
  unfold except_Exception. intros Hin.
  repeat (apply elem_of_cons in Hin as [->|Hin]; [done|]).
  by apply elem_of_nil in Hin.
Qed.

(** C1. When the handling of a connection raises [BrokenPipeError] or
    [ConnectionResetError], [ResilientTCPServer.handle_error], called with
    that exception in flight, returns without writing anything and without
    raising, and the serve loop goes on with the connections that follow:
    all that the episode leaves in the trace after the handler's own events
    is the shutdown and the close of the connection. *)
Theorem C1_disconnect_errors_suppressed (self : server) (c : connection)
    (rest : list connection) (w w1 : world) (e : exn) :
  server_cls self = ResilientTCPServer →
  accept_error c = None →
  thread_start_error c = None →
  RequestHandlerClass self c (dispatched c w) = (w1, Raise e) →
  exn_class e ∈ [BrokenPipeError; ConnectionResetError] →
  handle_error ResilientTCPServer c (with_exc_info (Some e) w1)
    = (with_exc_info (Some e) w1, Ok tt)
  ∧ serve_loop self (c :: rest) w
    = serve_loop self rest (reaped c (exc_info w) w1)
  ∧ trace (reaped c (exc_info w) w1)
    = trace w1 ++ [ConnShutdown (conn_id c); ConnClose (conn_id c)].
Proof.
  intros Hcls Hacc Hstart Hh Hin.
  assert (Herr : handle_error ResilientTCPServer c (with_exc_info (Some e) w1)
                 = (with_exc_info (Some e) w1, Ok tt))
    by by apply handle_error_suppressed with e.
  split; [done|]. split.
  - rewrite serve_loop_step by done.
    rewrite (process_request_thread_raise self c _ w1
               (with_exc_info (Some e) w1) e);
      [by destruct w1 | done | by apply suppressed_is_Exception
      | by rewrite Hcls].
  - cbn. by rewrite <- app_assoc.
Qed.


(** C10. The test of [handle_error] is on the class itself: with an
    exception in flight the method returns silently exactly when the class
    of the exception is [BrokenPipeError] or [ConnectionResetError]; for a
    class that is a proper subclass of one of the two it is the inherited,
    logging method. *)
Theorem C10_exact_type_match (c : connection) (w : world) (e : exn) :
  exc_info w = Some e →
  (handle_error ResilientTCPServer c w = (w, Ok tt)
   ↔ exn_class e = BrokenPipeError ∨ exn_class e = ConnectionResetError)
  ∧ (proper_subclass (exn_class e) BrokenPipeError
     ∨ proper_subclass (exn_class e) ConnectionResetError →
     handle_error ResilientTCPServer c w = BaseServer_handle_error c w).
Proof.
  intros Hinfo.
  assert (Hiff : handle_error ResilientTCPServer c w = (w, Ok tt)
     ↔ exn_class e = BrokenPipeError ∨ exn_class e = ConnectionResetError).
  { split.
    - intros Heq.
      destruct (decide (exn_class e ∈ [BrokenPipeError; ConnectionResetError]))
        as [Hin|Hnot].
      + apply elem_of_cons in Hin as [Heq'|Hin]; [by left|].
        apply elem_of_cons in Hin as [Heq'|Hin]; [by right|].
        by apply elem_of_nil in Hin.
      + rewrite handle_error_inherited in Heq.
        * apply (f_equal (λ r, length (trace r.1))) in Heq.
          rewrite BaseServer_handle_error_trace in Heq. cbn in Heq.
          rewrite length_app in Heq. cbn in Heq. lia.
        * intros e' He'. rewrite Hinfo in He'. by injection He' as <-.
    - intros Hor. apply handle_error_suppressed with e; [done|].
      destruct Hor as [Heq|Heq]; rewrite Heq; repeat constructor. }
  split; [done|].
  intros Hsub. apply handle_error_inherited.
  intros e' He'. rewrite Hinfo in He'. injection He' as <-.
  intros Hin.
  destruct Hsub as [[Hs Hne]|[Hs Hne]];
    repeat (apply elem_of_cons in Hin as [Heq|Hin];
            [rewrite Heq in *; done|]);
    by apply elem_of_nil in Hin.
Qed.

Lemma C1_disconnect_errors_suppressed_witness :
  let c := demo_client 1 "GET" "/app.js" [] (Some (raise_of BrokenPipeError "")) in
  let w1 := (SimpleHTTPRequestHandler c (dispatched c demo_world)).1 in
  serve_loop demo_server [c] demo_world
  = serve_loop demo_server [] (reaped c None w1).
Proof.
  intros c w1.
  apply (C1_disconnect_errors_suppressed demo_server c [] demo_world w1
           (raise_of BrokenPipeError ""));
    [reflexivity | reflexivity | reflexivity | by vm_compute
    | repeat constructor].
Defined.


Lemma C10_exact_type_match_witness :
  let c := demo_client 1 "GET" "/app.js" [] None in
  let w := with_exc_info (Some (raise_of ClientGone "")) demo_world in
  handle_error ResilientTCPServer c w = BaseServer_handle_error c w.
Proof.
  intros c w.
  apply (C10_exact_type_match c w (raise_of ClientGone ""));
    [reflexivity | left; split; [by vm_compute | discriminate]].
Defined.

(** ** What every step of a process preserves *)

Section Invariant.
Context (p : platform) (db : MimeTypes) (t0 : list event).

#[local] Abbreviation J := (Inv p db t0).

Lemma Inv_exc_info o w : J w → J (with_exc_info o w).
Proof. done. Qed.

Lemma Inv_live_threads f w : J w → J (with_live_threads f w).
Proof. done. Qed.

Lemma Inv_incoming l w : J w → J (with_incoming l w).
Proof. done. Qed.

Lemma Inv_sock b o w : J w → J (with_sock b o w).
Proof. done. Qed.

Lemma Inv_ports f w : J w → J (with_ports f w).
Proof. done. Qed.

Lemma Inv_event e w :
  event_ok p db e → J w → J (with_trace (λ t, t ++ [e]) w).
Proof.
  intros He (Hp & Hdb & t & Ht & Hok). repeat split; [done..|].
  exists (t ++ [e]). cbn. rewrite Ht, app_assoc. split; [done|].
  apply Forall_app. split; [done|]. by constructor.
Qed.

Lemma preserves_ret {A} (a : A) : preserves J (ret a).
Proof. by intros w Hw. Qed.

Lemma preserves_raise {A} (e : exn) : preserves J (@raise A e).
Proof. by intros w Hw. Qed.

Lemma preserves_pending {A} : preserves J (@pending A).
Proof. by intros w Hw. Qed.

Lemma preserves_bind {A B} (c : M A) (k : A → M B) :
  preserves J c → (∀ a, preserves J (k a)) → preserves J (bind c k).
Proof.
  intros Hc Hk w Hw. rewrite bind_unfold.
  specialize (Hc w Hw). destruct (c w) as [w1 [a|e|]]; [|done..].
  by apply Hk.
Qed.

(** [do w <- get; k w]: the continuation runs in the world it reads. *)
Lemma preserves_get {B} (k : world → M B) :
  (∀ w, J w → J (k w w).1) → preserves J (bind get k).
Proof. intros Hk w Hw. by apply Hk. Qed.

Lemma preserves_emit (e : event) : event_ok p db e → preserves J (emit e).
Proof. intros He w Hw. by apply Inv_event. Qed.

Lemma preserves_try_except {A} (body : M A)
    (clauses : list ((exn → bool) * (exn → M A))) :
  preserves J body →
  Forall (λ cl, ∀ e, preserves J (cl.2 e)) clauses →
  preserves J (try_except body clauses).
Proof.
  intros Hbody Hcl w Hw. unfold try_except.
  specialize (Hbody w Hw). destruct (body w) as [w1 [a|e|]]; [done| |done].
  cbn in Hbody.
  assert (Hfind : ∀ h, find_clause clauses e = Some h → preserves J (h e)).
  { clear -Hcl. induction Hcl as [|[f h'] cls Hh Hcls IH]; cbn; [done|].
    intros h. destruct (f e).
    - intros [= <-]. apply Hh.
    - apply IH. }
  destruct (find_clause clauses e) as [h|] eqn:Hf; [|done].
  specialize (Hfind h eq_refl (with_exc_info (Some e) w1)
                (Inv_exc_info _ _ Hbody)).
  destruct (h e _) as [w2 r]. by apply Inv_exc_info.
Qed.

Lemma preserves_try_finally {A} (body : M A) (fin : M unit) :
  preserves J body → preserves J fin → preserves J (try_finally body fin).
Proof.
  intros Hbody Hfin w Hw. unfold try_finally.
  specialize (Hbody w Hw).
  destruct (body w) as [w1 [a|e|]]; [| |done];
    specialize (Hfin w1 Hbody); by destruct (fin w1) as [w2 [[]|e'|]].
Qed.

Lemma preserves_thread_run (target : M unit) :
  preserves J target → preserves J (thread_run target).
Proof.
  intros Ht w Hw. unfold thread_run.
  specialize (Ht (with_exc_info None w) (Inv_exc_info _ _ Hw)).
  destruct (target _) as [w1 [[]|e|]]; cbn in *.
  - by apply Inv_exc_info.
  - unfold threading_excepthook. case_bool_decide; cbn.
    + by apply Inv_exc_info.
    + apply Inv_exc_info. by repeat apply Inv_event.
  - by apply Inv_exc_info, Inv_live_threads.
Qed.

(** With the database in place, [mimetypes] reads it and changes
    nothing. *)
Lemma mimetypes_db_loaded w : J w → mimetypes_db w = (w, Ok db).
Proof.
  intros (_ & Hdb & _). unfold mimetypes_db. rewrite bind_unfold. cbn.
  by rewrite Hdb.
Qed.

Lemma preserves_guess_type (path : string) : preserves J (guess_type path).
Proof.
  intros w Hw. unfold guess_type.
  destruct (splitext path) as [base ext].
  destruct (extensions_map !! ext); [done|].
  destruct (extensions_map !! lower ext); [done|].
  unfold mimetypes_guess_type. rewrite !bind_unfold.
  rewrite (mimetypes_db_loaded w Hw). cbn.
  destruct (MimeTypes_guess_type db path).1 as [g|]; [|done].
  by case_bool_decide.
Qed.

Lemma preserves_log_message (c : connection) (m : string) :
  preserves J (log_message c m).
Proof. intros w Hw. by apply Inv_event. Qed.

Lemma preserves_send_response (c : connection) (code : Z) :
  preserves J (send_response c code).
Proof. intros w Hw. by apply Inv_event. Qed.

Lemma preserves_send_error (c : connection) (code : Z) (m : string) :
  preserves J (send_error c code m).
Proof. intros w Hw. by repeat apply Inv_event. Qed.

Lemma preserves_read : preserves J get.
Proof. by intros w Hw. Qed.

Create HintDb pres.

#[local] Hint Resolve preserves_ret preserves_raise preserves_pending
  preserves_read preserves_emit preserves_guess_type preserves_log_message
  preserves_send_response preserves_send_error : pres.

#[local] Hint Extern 1 (event_ok _ _ _) => exact Logic.I : pres.

#[local] Ltac pres :=
  repeat first
    [ progress eauto with pres
    | apply preserves_bind; [|intros ?]
    | match goal with
      | |- preserves _ (if ?b then _ else _) => destruct b
      | |- preserves _ (match ?x with _ => _ end) => destruct x
      end ].

Lemma preserves_send_file_head (c : connection) (path : string) :
  preserves J (send_file_head c path).
Proof. unfold send_file_head. pres. Qed.

Lemma preserves_send_head (c : connection) : preserves J (send_head c).
Proof.
  unfold send_head. apply preserves_bind; [apply preserves_read|intros w].
  destruct (isdir _ _); [|apply preserves_send_file_head].
  destruct (negb _); [pres|].
  destruct (list_find _ _) as [[? index]|];
    [apply preserves_send_file_head|pres].
Qed.

Lemma preserves_call_method (c : connection) : preserves J (call_method c).
Proof.
  unfold call_method, do_GET, do_HEAD.
  pose proof (preserves_send_head c). pres.
Qed.

(** The response that reaches the client is the one the method computed. *)
Lemma preserves_handle_one_request (c : connection) :
  preserves J (handle_one_request c).
Proof.
  intros w Hw. unfold handle_one_request. rewrite bind_unfold.
  pose proof (preserves_call_method c w Hw) as Hm.
  destruct (call_method c w) as [w1 [r|e|]] eqn:Hcall; [|done..].
  destruct (write_error c); [done|].
  apply Inv_event; [|done].
  exists c, w, w1. by destruct Hw as (? & ? & _).
Qed.

Lemma preserves_SimpleHTTPRequestHandler (c : connection) :
  preserves J (SimpleHTTPRequestHandler c).
Proof.
  unfold SimpleHTTPRequestHandler.
  destruct (client_stalls c); [by apply preserves_pending|].
  apply preserves_handle_one_request.
Qed.

Lemma preserves_handle_error (c : connection) :
  preserves J (handle_error ResilientTCPServer c).
Proof.
  intros w Hw. rewrite handle_error_unfold.
  destruct (class_in _ _); [done|].
  rewrite BaseServer_handle_error_spec. by repeat apply Inv_event.
Qed.

Lemma preserves_shutdown_request (c : connection) :
  preserves J (shutdown_request c).
Proof. intros w Hw. by repeat apply Inv_event. Qed.

(** The serve loop of a [ResilientTCPServer] whose handler keeps the
    invariant keeps it. *)
Lemma preserves_serve_loop (self : server) (arrivals : list connection) :
  server_cls self = ResilientTCPServer →
  (∀ c, preserves J (RequestHandlerClass self c)) →
  preserves J (serve_loop self arrivals).
Proof.
  intros Hcls Hh.
  induction arrivals as [|c rest IH]; [apply preserves_pending|].
  cbn [serve_loop]. apply preserves_bind; [|by intros].
  unfold _handle_request_noblock.
  apply preserves_bind.
  { apply preserves_try_except;
      [|constructor; [intros e; cbn; pres|constructor]].
    unfold get_request. pres. }
  intros [request|]; [|pres].
  apply preserves_try_except.
  - unfold process_request. destruct (thread_start_error request); [pres|].
    apply preserves_bind; [pres|intros _].
    apply preserves_thread_run. unfold process_request_thread.
    apply preserves_try_finally; [|apply preserves_shutdown_request].
    apply preserves_try_except; [apply Hh|].
    constructor; [|constructor]. intros e. cbn. rewrite Hcls.
    apply preserves_handle_error.
  - constructor; [|constructor; [|constructor]]; intros e; cbn.
    + rewrite Hcls. apply preserves_bind; [apply preserves_handle_error|].
      intros _. apply preserves_shutdown_request.
    + apply preserves_bind; [apply preserves_shutdown_request|intros _; pres].
Qed.

Lemma preserves_server_close (self : server) : preserves J (server_close self).
Proof.
  intros w Hw. unfold server_close, socket_close. rewrite !bind_unfold. cbn.
  destruct (sock_bound w); cbn; case_bool_decide; by apply Inv_event.
Qed.

(** [serve_forever] after its first event. *)
Lemma preserves_serve_forever_body (self : server) :
  server_cls self = ResilientTCPServer →
  (∀ c, preserves J (RequestHandlerClass self c)) →
  preserves J (do w <- get;
               modify (with_incoming []) ;;
               try_finally (serve_loop self (incoming w)) (ret tt)).
Proof.
  intros Hcls Hh.
  apply preserves_bind; [pres|intros w].
  apply preserves_bind; [by intros w' Hw'|intros _].
  apply preserves_try_finally; [by apply preserves_serve_loop|pres].
Qed.
End Invariant.

(** ** Start-up *)

Lemma module_top_boot (p : platform) (ports : gmap Z port_state)
    (clients : list connection) :
  module_top (boot p ports clients)
  = (with_mime_db (Some (loaded_db p)) (boot p ports clients), Ok tt).
Proof. done. Qed.

Lemma parse_args_configured (w : world) (port : Z) :
  configured_port (pf w) = Some port →
  ∃ ns, parse_args w = (w, Ok ns) ∧ ns !! "port" = Some (PyInt port).
Proof.
  unfold configured_port, parse_args, ArgumentParser_parse_args.
  rewrite bind_unfold. cbn.
  destruct (parse_args_outcome _ _ _) as [ns extras| |m]; [|done..].
  destruct (ns !! "port") as [[n| |]|] eqn:Hport; [|done..].
  intros [= <-]. by exists ns.
Qed.

(** The constructor succeeds when the network stack accepts the port: it
    creates the socket, sets SO_REUSEADDR where the platform has it, binds
    and listens. *)
Lemma ResilientTCPServer_init_ok (w : world) (port : Z)
    (h : connection → M unit) :
  bind_accepted (pf w) (ports w) port →
  ∃ w',
    TCPServer_init ResilientTCPServer ("", PyInt port) h w
    = (w', Ok (Server ResilientTCPServer ("", PyInt port) h))
    ∧ pf w' = pf w ∧ mime_db w' = mime_db w ∧ incoming w' = incoming w
    ∧ live_threads w' = live_threads w ∧ exc_info w' = exc_info w
    ∧ trace w' = trace w ++ startup_events (pf w) port
    ∧ sock_bound w' = Some port
    ∧ ports w' = <[port := PortBound]> (ports w).
Proof.
  intros [Hrange Hbind].
  unfold TCPServer_init, try_except, server_bind, server_activate,
    socket_bind, setsockopt, startup_events, port_status.
  unfold bind, get, ret, emit, modify, raise. cbn.
  destruct (has_SO_REUSEADDR (pf w)) eqn:Hreuse; cbn;
    rewrite ?(bool_decide_eq_true_2 ("SO_REUSEADDR" = "SO_REUSEADDR")) by done;
    cbn;
    (rewrite (bool_decide_eq_false_2 (port < 0 ∨ 65535 < port)) by lia); cbn;
    rewrite Hbind; cbn;
    eexists; (split; [reflexivity|]); cbn; rewrite <- ?app_assoc; done.
Qed.

Lemma try_finally_emit {A} (e : event) (k : M A) (fin : M unit) (w : world) :
  try_finally (emit e ;; k) fin w
  = try_finally k fin (with_trace (λ t, t ++ [e]) w).
Proof. done. Qed.

(** When the command line configures a port that the network stack accepts,
    the script binds, prints its line, enters the serve loop, and from then
    on only adds to the trace; the responses it adds are those the handler
    computes with the database of the import. *)
Lemma main_block_serving (w : world) (db : MimeTypes) (port : Z) :
  mime_db w = Some db →
  configured_port (pf w) = Some port →
  bind_accepted (pf w) (ports w) port →
  ∃ post,
    trace (main_block w).1
    = trace w ++ startup_events (pf w) port
      ++ [Stdout (serving_line port); ServeForever] ++ post
    ∧ Forall (event_ok (pf w) db) post.
Proof.
  intros Hdb Hport Hbind.
  destruct (parse_args_configured w port Hport) as (ns & Hparse & Hns).
  destruct (ResilientTCPServer_init_ok w port SimpleHTTPRequestHandler Hbind)
    as (w' & Hinit & Hpf & Hdb' & _ & _ & _ & Htrace & _).
  unfold main_block. rewrite bind_unfold, Hparse.
  unfold getattr. rewrite Hns. rewrite bind_unfold. cbn [ret].
  unfold with_server. rewrite bind_unfold, Hinit.
  unfold print, serve_forever. rewrite !try_finally_emit.
  set (w2 := with_trace _ (with_trace _ w')).
  assert (Hw2 : Inv (pf w) db (trace w2) w2).
  { repeat split; [done|by rewrite <- Hdb|]. exists []. by rewrite app_nil_r. }
  set (httpd := Server ResilientTCPServer ("", PyInt port)
                  SimpleHTTPRequestHandler).
  pose proof (preserves_try_finally (pf w) db (trace w2) _ _
                (preserves_serve_forever_body (pf w) db (trace w2) httpd
                   eq_refl
                   (preserves_SimpleHTTPRequestHandler (pf w) db (trace w2)))
                (preserves_server_close (pf w) db (trace w2) httpd)
                w2 Hw2) as (_ & _ & post & Hpost & Hok).
  exists post. split; [|done].
  rewrite Hpost. subst w2. cbn. rewrite Htrace.
  unfold serving_line. cbn.
  by destruct (has_SO_REUSEADDR _); rewrite <- !app_assoc.
Qed.

Lemma bind_accepted_or_refused (p : platform) (ports : gmap Z port_state)
    (port : Z) :
  bind_accepted p ports port ∨ ∃ e, bind_refused p ports port e.
Proof.
  unfold bind_accepted, bind_refused.
  destruct (decide (0 ≤ port ≤ 65535)) as [Hr|Hr].
  - destruct (bind_answer p _ port _) as [e|] eqn:Hb; [|by left].
    right. exists e. by right.
  - right. eexists. left. split; [lia|done].
Qed.

(** When [bind] is refused the constructor closes the socket and raises
    what [bind] raised; nothing else has happened. *)
Lemma ResilientTCPServer_init_refused (w : world) (port : Z)
    (h : connection → M unit) (e : exn) :
  live_threads w = 0%nat →
  bind_refused (pf w) (ports w) port e →
  ∃ w',
    TCPServer_init ResilientTCPServer ("", PyInt port) h w = (w', Raise e)
    ∧ trace w' = trace w ++ refused_events (pf w) port
    ∧ live_threads w' = 0%nat.
Proof.
  intros Hthreads Hrefused.
  unfold TCPServer_init, try_except, server_bind, server_activate,
    server_close, socket_close, socket_bind, setsockopt, refused_events,
    port_status.
  unfold bind, get, ret, emit, modify, raise, pending. cbn.
  destruct Hrefused as [[Hrange ->]|[Hrange Hbind]];
    destruct (has_SO_REUSEADDR (pf w)) eqn:Hreuse; cbn;
    rewrite ?(bool_decide_eq_true_2 ("SO_REUSEADDR" = "SO_REUSEADDR")) by done;
    cbn;
    [rewrite (bool_decide_eq_true_2 (port < 0 ∨ 65535 < port)) by lia
    |rewrite (bool_decide_eq_true_2 (port < 0 ∨ 65535 < port)) by lia
    |rewrite (bool_decide_eq_false_2 (port < 0 ∨ 65535 < port)) by lia
    |rewrite (bool_decide_eq_false_2 (port < 0 ∨ 65535 < port)) by lia];
    cbn; rewrite ?Hbind; cbn; rewrite Hthreads; cbn;
    eexists; (split; [reflexivity|]); cbn; rewrite <- ?app_assoc; done.
Qed.

Lemma issubclass_user (name : string) (base d : pyclass) :
  d ≠ UserClass name base →
  issubclass (UserClass name base) d = issubclass base d.
Proof.
  intros Hne. unfold issubclass. cbn [mro]. apply bool_decide_ext.
  rewrite elem_of_cons. split; [intros [?|?]; [done|done]|by right].
Qed.

(** A subclass of [Exception] is neither a [SystemExit] nor a
    [KeyboardInterrupt]. *)
Lemma Exception_not_exit (c : pyclass) :
  issubclass c Exception = true →
  issubclass c SystemExit = false ∧ issubclass c KeyboardInterrupt = false.
Proof.
  induction c as [| | | | | | | | | | | | | | | | | | |name base IH];
    try (by vm_compute).
  rewrite !issubclass_user by done. apply IH.
Qed.

Ltac not_in_list :=
  let Hin := fresh "Hin" in
  intros Hin;
  repeat (apply elem_of_cons in Hin as [Hin|Hin]; [discriminate Hin|]);
  by apply elem_of_nil in Hin.

(** What the interpreter adds to the trace of a script: nothing, or the
    traceback of the exception that ended it. *)
Lemma python_trace (script : M unit) (w : world) :
  trace (python script w).1 = trace (script w).1
  ∨ ∃ e, (script w).2 = Raise e
         ∧ issubclass (exn_class e) SystemExit = false
         ∧ trace (python script w).1
           = trace (script w).1 ++ [StderrTraceback (Some e)].
Proof.
  unfold python. destruct (script w) as [w1 [[]|e|]]; cbn.
  - left. by case_bool_decide.
  - destruct (issubclass (exn_class e) SystemExit) eqn:Hexit.
    + left. by case_bool_decide.
    + right. exists e. by case_bool_decide.
  - by left.
Qed.

(** C7. When the port that the command line configures is refused by
    [bind] (the port is out of range, or the network stack answers with an
    [OSError] such as "address already in use"), the exception leaves the
    script: the interpreter writes its traceback to standard error and the
    process exits with status 1.  Nothing was written to standard output,
    the serve loop was never entered, no connection was accepted and no
    response was sent. *)
Theorem C7_bind_failure_is_fatal (p : platform) (ports : gmap Z port_state)
    (clients : list connection) (port : Z) (e : exn) :
  configured_port p = Some port →
  bind_refused p ports port e →
  issubclass (exn_class e) Exception = true →
  let run := python serve_py (boot p ports clients) in
  run.2 = Exited 1
  ∧ trace run.1 = refused_events p port ++ [StderrTraceback (Some e)]
  ∧ (∀ line, Stdout line ∉ trace run.1)
  ∧ (ServeForever ∉ trace run.1)
  ∧ (∀ c, Accepted c ∉ trace run.1)
  ∧ (∀ c req r, Sent c req r ∉ trace run.1).
Proof.
  intros Hport Hrefused Hexc run.
  set (w := with_mime_db (Some (loaded_db p)) (boot p ports clients)).
  destruct (parse_args_configured w port Hport) as (ns & Hparse & Hns).
  destruct (ResilientTCPServer_init_refused w port SimpleHTTPRequestHandler e
              eq_refl Hrefused) as (w' & Hinit & Htrace & Hthreads).
  assert (Hrun : serve_py (boot p ports clients) = (w', Raise e)).
  { unfold serve_py. rewrite bind_unfold, module_top_boot. fold w.
    unfold main_block. rewrite bind_unfold, Hparse.
    unfold getattr. rewrite Hns. rewrite bind_unfold. cbn [ret].
    unfold with_server. by rewrite bind_unfold, Hinit. }
  assert (Hexit : issubclass (exn_class e) SystemExit = false
                  ∧ issubclass (exn_class e) KeyboardInterrupt = false)
    by by apply Exception_not_exit.
  destruct Hexit as [Hexit Hint].
  assert (Hfinal : run = (with_trace (λ t, t ++ [StderrTraceback (Some e)]) w',
                          Exited 1)).
  { subst run. unfold python. rewrite Hrun, Hexit, Hint. cbn.
    by rewrite Hthreads. }
  assert (Htr : trace run.1 = refused_events p port ++ [StderrTraceback (Some e)]).
  { rewrite Hfinal. cbn. by rewrite Htrace. }
  split; [by rewrite Hfinal|]. split; [done|].
  rewrite Htr. unfold refused_events.
  repeat split; intros; destruct (has_SO_REUSEADDR p); cbn; not_in_list.
Qed.

(** Either the command line configures a port that [bind] accepts, or it
    does not. *)
Lemma classic_startup (p : platform) (ports : gmap Z port_state) :
  (∃ port, configured_port p = Some port ∧ bind_accepted p ports port)
  ∨ (∀ port, configured_port p = Some port → ¬ bind_accepted p ports port).
Proof.
  destruct (configured_port p) as [port|]; [|by right].
  destruct (bind_accepted_or_refused p ports port) as [Hok|[e Hrefused]].
  - left. by exists port.
  - right. intros port' [= <-] [Hrange Hbind].
    destruct Hrefused as [[? _]|[_ Hb]]; [lia|congruence].
Qed.

(** A run whose command line configures no port, or a port that [bind]
    refuses, never enters the serve loop. *)
Lemma serve_py_startup_failed (p : platform) (ports : gmap Z port_state)
    (clients : list connection) :
  (∀ port, configured_port p = Some port → ¬ bind_accepted p ports port) →
  (ServeForever ∉ trace (serve_py (boot p ports clients)).1)
  ∧ (∀ c req r, Sent c req r ∉ trace (serve_py (boot p ports clients)).1)
  ∧ ∃ e, (serve_py (boot p ports clients)).2 = Raise e.
Proof.
  intros Hfail.
  unfold serve_py. rewrite bind_unfold, module_top_boot.
  set (w := with_mime_db (Some (loaded_db p)) (boot p ports clients)).
  destruct (configured_port p) as [port|] eqn:Hport.
  - destruct (parse_args_configured w port Hport) as (ns & Hparse & Hns).
    destruct (bind_accepted_or_refused p ports port) as [Hok|[e Hrefused]];
      [by destruct (Hfail port)|].
    destruct (ResilientTCPServer_init_refused w port SimpleHTTPRequestHandler
                e eq_refl Hrefused) as (w' & Hinit & Htrace & _).
    unfold main_block. rewrite bind_unfold, Hparse.
    unfold getattr. rewrite Hns. rewrite bind_unfold. cbn [ret].
    unfold with_server. rewrite bind_unfold, Hinit. cbn.
    rewrite Htrace. unfold refused_events.
    split; [|split; [intros c req r|by eexists]];
      destruct (has_SO_REUSEADDR _); cbn; not_in_list.
  - unfold configured_port in Hport.
    unfold main_block, parse_args, ArgumentParser_parse_args.
    rewrite !bind_unfold. cbn.
    destruct (parse_args_outcome _ _ _) as [ns extras| |m]; cbn.
    + unfold getattr.
      destruct (ns !! "port") as [[n|v|l]|]; [done| | |]; cbn;
        unfold with_server, TCPServer_init, try_except, server_bind,
          server_activate, server_close, socket_close, socket_bind, setsockopt;
        unfold bind, get, ret, emit, modify, raise, pending; cbn;
        try (destruct (has_SO_REUSEADDR p); cbn;
             rewrite ?(bool_decide_eq_true_2 ("SO_REUSEADDR" = "SO_REUSEADDR"))
               by done; cbn);
        (split; [not_in_list|split; [intros c req r; not_in_list|by eexists]]).
    + split; [not_in_list|split; [intros c req r; not_in_list|by eexists]].
    + split; [not_in_list|split; [intros c req r; not_in_list|by eexists]].
Qed.

(** C6. In every run that enters the serve loop, the command line
    configured a port, and the trace of the run is: the socket calls of the
    constructor, then the line [Serving on http://localhost:<port>] with
    that port on standard output, then the entry into [serve_forever],
    then whatever serving adds.  Nothing else is printed before the serve
    loop, and the line comes directly before it. *)
Theorem C6_serving_line_before_serve_loop (p : platform)
    (ports : gmap Z port_state) (clients : list connection) :
  let run := python serve_py (boot p ports clients) in
  ServeForever ∈ trace run.1 →
  ∃ port post,
    configured_port p = Some port
    ∧ trace run.1
      = startup_events p port
        ++ [Stdout ("Serving on http://localhost:" +:+ str_int port);
            ServeForever]
        ++ post
    ∧ (ServeForever ∉ startup_events p port)
    ∧ (∀ line, Stdout line ∉ startup_events p port).
Proof.
  intros run Hserving.
  destruct (classic_startup p ports) as [(port & Hport & Hok)|Hfail].
  - exists port.
    set (w := with_mime_db (Some (loaded_db p)) (boot p ports clients)).
    destruct (main_block_serving w (loaded_db p) port eq_refl Hport Hok)
      as (post & Htrace & _).
    assert (Hscript : trace (serve_py (boot p ports clients)).1
                      = startup_events p port
                        ++ [Stdout (serving_line port); ServeForever] ++ post).
    { unfold serve_py. rewrite bind_unfold, module_top_boot. fold w.
      by rewrite Htrace. }
    assert (Hshape : ∃ post', trace run.1
                      = startup_events p port
                        ++ [Stdout (serving_line port); ServeForever] ++ post').
    { destruct (python_trace serve_py (boot p ports clients))
        as [Heq|(e & _ & _ & Heq)]; fold run in Heq; rewrite Heq, Hscript.
      - by exists post.
      - exists (post ++ [StderrTraceback (Some e)]).
        by rewrite <- !app_assoc. }
    destruct Hshape as [post' Hshape]. exists post'.
    split; [done|]. split; [done|].
    unfold startup_events.
    split; [|intros line]; destruct (has_SO_REUSEADDR p); cbn; not_in_list.
  - exfalso.
    destruct (serve_py_startup_failed p ports clients Hfail)
      as (Hnot & _ & e & He).
    destruct (python_trace serve_py (boot p ports clients))
      as [Heq|(e' & _ & _ & Heq)]; fold run in Heq; rewrite Heq in Hserving.
    + done.
    + apply elem_of_app in Hserving as [?|Hin]; [done|].
      apply list_elem_of_singleton in Hin. discriminate.
Qed.

Lemma C6_serving_line_before_serve_loop_witness :
  ∃ post,
    trace (python serve_py (boot (demo_platform ["--port"; "8001"]) ∅ [])).1
    = [SockCreate; SetSockOpt "SO_REUSEADDR"; SockBind ("", 8001);
       SockListen 5; Stdout "Serving on http://localhost:8001"; ServeForever]
      ++ post.
Proof.
  destruct (C6_serving_line_before_serve_loop
              (demo_platform ["--port"; "8001"]) ∅ [])
    as (port & post & Hport & Htrace & _).
  - vm_compute. repeat constructor.
  - exists post. vm_compute in Hport. injection Hport as <-. exact Htrace.
Defined.

Lemma C7_bind_failure_is_fatal_witness :
  (python serve_py
     (boot (demo_platform ["--port"; "8001"]) {[ 8001 := PortBound ]} [])).2
  = Exited 1.
Proof.
  apply (C7_bind_failure_is_fatal (demo_platform ["--port"; "8001"])
           {[ 8001 := PortBound ]} [] 8001 address_in_use);
    [by vm_compute | right; split; [lia|by vm_compute] | by vm_compute].
Defined.

(** ** Restarting on the same port *)

(** C4. [ResilientTCPServer] has [allow_reuse_address] set, so on a
    platform that has SO_REUSEADDR the constructor sets the option on the
    listening socket before it binds.  When a first instance that was
    listening on the configured port has been stopped, that port is in
    teardown; if the network stack lets a socket with SO_REUSEADDR bind
    to a port in teardown, a second instance started at once binds, listens
    and serves. *)
Theorem C4_restart_on_same_port (p : platform) (w1 : world)
    (clients : list connection) (port : Z) :
  has_SO_REUSEADDR p = true →
  (∀ q, bind_answer p true q PortTeardown = None) →
  configured_port p = Some port →
  0 ≤ port ≤ 65535 →
  sock_bound w1 = Some port →
  let run := python serve_py (boot p (ports_after_stop w1) clients) in
  allow_reuse_address ResilientTCPServer = true
  ∧ ports_after_stop w1 !! port = Some PortTeardown
  ∧ ∃ post,
      trace run.1
      = [SockCreate; SetSockOpt "SO_REUSEADDR"; SockBind ("", port);
         SockListen 5; Stdout (serving_line port); ServeForever]
        ++ post.
Proof.
  intros Hreuse Hstack Hport Hrange Hbound run.
  assert (Hteardown : ports_after_stop w1 !! port = Some PortTeardown).
  { unfold ports_after_stop. rewrite Hbound. apply lookup_insert_eq. }
  split; [done|]. split; [done|].
  set (w := with_mime_db (Some (loaded_db p))
              (boot p (ports_after_stop w1) clients)).
  assert (Hok : bind_accepted (pf w) (ports w) port).
  { split; [done|]. cbn. rewrite Hteardown, Hreuse. apply Hstack. }
  destruct (main_block_serving w (loaded_db p) port eq_refl Hport Hok)
    as (post & Htrace & _).
  assert (Hscript : trace (serve_py (boot p (ports_after_stop w1) clients)).1
                    = startup_events p port
                      ++ [Stdout (serving_line port); ServeForever] ++ post).
  { unfold serve_py. rewrite bind_unfold, module_top_boot. fold w.
    by rewrite Htrace. }
  unfold startup_events in Hscript. rewrite Hreuse in Hscript.
  destruct (python_trace serve_py (boot p (ports_after_stop w1) clients))
    as [Heq|(e & _ & _ & Heq)]; fold run in Heq; rewrite Heq, Hscript.
  - by exists post.
  - by exists (post ++ [StderrTraceback (Some e)]).
Qed.

Lemma C4_restart_on_same_port_witness :
  let p := demo_platform ["--port"; "8001"] in
  let first := python serve_py (boot p ∅ [demo_client 1 "GET" "/" [] None]) in
  ∃ post,
    trace (python serve_py (boot p (ports_after_stop first.1) [])).1
    = [SockCreate; SetSockOpt "SO_REUSEADDR"; SockBind ("", 8001);
       SockListen 5; Stdout (serving_line 8001); ServeForever]
      ++ post.
Proof.
  intros p first.
  apply (C4_restart_on_same_port p first.1 [] 8001);
    [reflexivity | by intros q | by vm_compute | lia | by vm_compute].
Defined.

(** On the same kernel a server class that leaves [allow_reuse_address] at
    its default is refused the port in teardown. *)
Example restart_without_reuse_is_refused :
  (TCPServer_init ThreadingTCPServer ("", PyInt 8001) SimpleHTTPRequestHandler
     (boot (demo_platform []) {[ 8001 := PortTeardown ]} [])).2
  = Raise address_in_use.
Proof. by vm_compute. Qed.

(** ** The command line *)

Lemma scan_all_digits (cs : list ascii) (prev : scan_prev) (acc n : Z) :
  all_digits cs = true →
  cs ≠ [] ∨ prev = AfterDigit →
  scan_digits prev acc n cs
  = Some (digits_value cs acc, n + Z.of_nat (length cs), []).
Proof.
  revert prev acc n. induction cs as [|c cs IH]; intros prev acc n Hall Hne.
  - destruct Hne as [?| ->]; [done|]. cbn. do 3 f_equal. lia.
  - cbn in Hall. apply andb_prop in Hall as [Hc Hall].
    cbn [scan_digits]. rewrite Hc. rewrite IH; [|done|by right].
    cbn. do 3 f_equal. lia.
Qed.

Lemma uint_all_digits (d : Decimal.uint) :
  all_digits (chars (NilEmpty.string_of_uint d)) = true.
Proof. induction d; cbn; try done. Qed.

Lemma of_uint_acc_value (d : Decimal.uint) (acc : positive) :
  Z.pos (Pos.of_uint_acc d acc)
  = digits_value (chars (NilEmpty.string_of_uint d)) (Z.pos acc).
Proof.
  revert acc. induction d; intros acc; [done|..];
    cbn [Pos.of_uint_acc NilEmpty.string_of_uint chars
         String.list_ascii_of_string digits_value foldl];
    rewrite IHd; unfold digits_value; f_equal;
    match goal with |- context [digit_value ?c] =>
      let v := eval vm_compute in (digit_value c) in
      change (digit_value c) with v end; lia.
Qed.

Lemma of_uint_value (d : Decimal.uint) :
  Z.of_N (Pos.of_uint d)
  = digits_value (chars (NilEmpty.string_of_uint d)) 0.
Proof.
  induction d; [done|..];
    cbn [Pos.of_uint NilEmpty.string_of_uint chars Z.of_N
         String.list_ascii_of_string digits_value foldl];
    [exact IHd|..]; rewrite of_uint_acc_value; done.
Qed.

Lemma digit_cases (c : ascii) :
  is_digit c = true →
  c ∈ chars "0123456789".
Proof.
  destruct c as [[] [] [] [] [] [] [] []]; intros H; try discriminate H;
    vm_compute; repeat constructor.
Qed.

(** A digit is no white space, no sign, no underscore. *)
Lemma digit_plain (c : ascii) :
  is_digit c = true →
  int_space c = false ∧ c ≠ "-"%char ∧ c ≠ "+"%char ∧ c ≠ "_"%char
  ∧ c ≠ "h"%char ∧ c ≠ "="%char ∧ code c ≠ 10.
Proof.
  intros H. apply digit_cases in H.
  repeat (apply elem_of_cons in H as [->|H]; [by vm_compute|]).
  by apply elem_of_nil in H.
Qed.

(** The decimal numeral of [d]: a digit, then digits; its value is [d]. *)
Lemma uint_numeral (d : Decimal.uint) :
  ∃ c s,
    NilZero.string_of_uint d = String c s
    ∧ is_digit c = true ∧ all_digits (chars s) = true
    ∧ digits_value (c :: chars s) 0 = Z.of_uint d.
Proof.
  pose proof (uint_all_digits d) as Hall.
  pose proof (of_uint_value d) as Hval.
  destruct d; [by exists "0"%char, ""|..];
    cbn [NilZero.string_of_uint NilEmpty.string_of_uint] in *;
    eexists _, _; (split; [reflexivity|]);
    cbn in Hall; (split; [done|]); (split; [done|]); symmetry; exact Hval.
Qed.

Lemma str_int_numeral (n : Z) :
  ∃ c s,
    is_digit c = true ∧ all_digits (chars s) = true
    ∧ ((0 ≤ n ∧ str_int n = String c s ∧ digits_value (c :: chars s) 0 = n)
       ∨ (n < 0 ∧ str_int n = String "-" (String c s)
          ∧ digits_value (c :: chars s) 0 = - n)).
Proof.
  unfold str_int. pose proof (DecimalZ.of_to n) as Hn.
  destruct (Z.to_int n) as [d|d] eqn:Hd; cbn in Hn;
    destruct (uint_numeral d) as (c & s & Hs & Hc & Hall & Hval);
    exists c, s; (split; [done|]); (split; [done|]);
    cbn [NilZero.string_of_int]; rewrite Hs.
  - left. split; [|split; [done|congruence]].
    destruct n; cbn in Hd; done.
  - right. split; [|split; [done|lia]].
    destruct n; cbn in Hd; done.
Qed.

Lemma chars_length (s : string) : length (chars s) = String.length s.
Proof. induction s; cbn; [done|]. by f_equal. Qed.

Lemma py_int_digits (lim : Z) (c : ascii) (s : string) :
  is_digit c = true → all_digits (chars s) = true →
  (String.length s < 640)%nat →
  py_int lim (String c s) = Some (digits_value (c :: chars s) 0)
  ∧ py_int lim (String "-" (String c s))
    = Some (- digits_value (c :: chars s) 0).
Proof.
  intros Hc Hall Hlen.
  destruct (digit_plain c Hc) as (Hsp & Hminus & Hplus & _).
  assert (Hscan : scan_digits AtStart 0 0 (c :: chars s)
                  = Some (digits_value (c :: chars s) 0,
                          0 + Z.of_nat (length (c :: chars s)), [])).
  { apply scan_all_digits; [|by left]. cbn. by rewrite Hc, Hall. }
  assert (Hlim : bool_decide
                   (max_str_digits_threshold
                    < 0 + Z.of_nat (length (c :: chars s))) = false).
  { apply bool_decide_eq_false. cbn [length]. rewrite chars_length.
    unfold max_str_digits_threshold. lia. }
  unfold py_int.
  split.
  - cbn [chars String.list_ascii_of_string drop_while]. rewrite Hsp.
    rewrite (bool_decide_eq_false_2 (c = "-"%char)) by done.
    rewrite (bool_decide_eq_false_2 (c = "+"%char)) by done.
    fold (chars s). rewrite Hscan, Hlim. done.
  - cbn [chars String.list_ascii_of_string drop_while].
    change (int_space "-") with false. cbn match.
    rewrite (bool_decide_eq_true_2 ("-"%char = "-"%char)) by done.
    fold (chars s). rewrite Hscan, Hlim. done.
Qed.

Lemma py_int_str_int (lim n : Z) :
  (String.length (str_int n) ≤ 640)%nat →
  py_int lim (str_int n) = Some n.
Proof.
  intros Hlen.
  destruct (str_int_numeral n)
    as (c & s & Hc & Hall & [(Hn & Hs & Hv)|(Hn & Hs & Hv)]);
    rewrite Hs in *; cbn in Hlen;
    destruct (py_int_digits lim c s Hc Hall ltac:(lia)) as [Hpos Hneg].
  - by rewrite Hpos, Hv.
  - rewrite Hneg, Hv. f_equal. lia.
Qed.

Lemma the_parser_table :
  _option_string_actions the_parser
  = [("-h", help_action); ("--help", help_action); ("--port", port_action)].
Proof. done. Qed.

Lemma all_digits_no_eq (s : string) :
  all_digits (chars s) = true → split_once "=" s = None.
Proof.
  induction s as [|c s IH]; [done|]. cbn. intros H.
  apply andb_prop in H as [Hc Hs].
  destruct (digit_plain c Hc) as (_ & _ & _ & _ & _ & Heq & _).
  rewrite bool_decide_eq_false_2 by done. by rewrite IH.
Qed.

Lemma all_digits_Forall (cs : list ascii) :
  all_digits cs = true → Forall (λ c, is_digit c = true) cs.
Proof.
  induction cs as [|c cs IH]; [done|]. cbn. intros H.
  apply andb_prop in H as [Hc Hs]. constructor; auto.
Qed.

Lemma negative_number_digits (c : ascii) (s : string) :
  is_digit c = true → all_digits (chars s) = true →
  _negative_number_matcher (String "-" (String c s)) = true.
Proof.
  intros Hc Hall. unfold _negative_number_matcher.
  cbn [chars String.list_ascii_of_string]. fold (chars s).
  assert (Hb : match reverse (c :: chars s) with
               | nl :: b => if bool_decide (code nl = 10) then reverse b
                            else c :: chars s
               | [] => c :: chars s
               end = c :: chars s).
  { destruct (reverse (c :: chars s)) as [|nl b] eqn:Hrev; [done|].
    assert (Hnl : is_digit nl = true).
    { assert (Hin : nl ∈ reverse (c :: chars s)) by (rewrite Hrev; left).
      rewrite elem_of_reverse in Hin.
      assert (HF : Forall (λ c, is_digit c = true) (c :: chars s))
        by (constructor; [done|by apply all_digits_Forall]).
      by rewrite Forall_forall in HF; apply HF. }
    destruct (digit_plain nl Hnl) as (_ & _ & _ & _ & _ & _ & Hten).
    by rewrite bool_decide_eq_false_2. }
  rewrite Hb. rewrite (bool_decide_eq_true_2 ("-"%char = "-"%char)) by done.
  unfold matches_digits. cbn [all_digits]. rewrite Hc, Hall. done.
Qed.

(** A decimal numeral, signed or not, is an argument and not an option. *)
Lemma numeral_is_positional (c : ascii) (s : string) :
  is_digit c = true → all_digits (chars s) = true →
  _parse_optional the_parser (String c s) = IsPositional
  ∧ _parse_optional the_parser (String "-" (String c s)) = IsPositional.
Proof.
  intros Hc Hall.
  destruct (digit_plain c Hc) as (_ & Hminus & _ & _ & Hh & Heq & _).
  assert (Hnotin : char_in c "-" = false).
  { apply bool_decide_eq_false. intros Hin.
    apply list_elem_of_singleton in Hin. done. }
  split.
  - unfold _parse_optional.
    change (prefix_chars the_parser) with "-". by rewrite Hnotin.
  - unfold _parse_optional.
    change (prefix_chars the_parser) with "-".
    change (char_in "-" "-") with true. cbn [negb].
    rewrite the_parser_table. cbn [assoc].
    rewrite (bool_decide_eq_false_2 (String "-" (String c s) = "-h"))
      by (intros [= ? ?]; done).
    rewrite (bool_decide_eq_false_2 (String "-" (String c s) = "--help"))
      by (intros [= ? ?]; done).
    rewrite (bool_decide_eq_false_2 (String "-" (String c s) = "--port"))
      by (intros [= ? ?]; done).
    cbn [String.length].
    rewrite (bool_decide_eq_false_2 (S (S (String.length s)) = 1%nat)) by done.
    cbn [split_once].
    rewrite (bool_decide_eq_false_2 ("-"%char = "="%char)) by done.
    rewrite (bool_decide_eq_false_2 (c = "="%char)) by done.
    rewrite all_digits_no_eq by done.
    unfold _get_option_tuples.
    change (prefix_chars the_parser) with "-".
    change (char_in "-" "-") with true. rewrite Hnotin. cbn [andb].
    rewrite the_parser_table. cbn [omap list_omap].
    rewrite (bool_decide_eq_false_2 ("-h" = String "-" (String c "")))
      by (intros [= ?]; done).
    rewrite (bool_decide_eq_false_2 ("--help" = String "-" (String c "")))
      by (intros [= ?]; done).
    rewrite (bool_decide_eq_false_2 ("--port" = String "-" (String c "")))
      by (intros [= ?]; done).
    unfold startswith. cbn [String.prefix].
    destruct (ascii_dec "-" "-") as [_|?]; [|done].
    destruct (ascii_dec c "h") as [?|_]; [done|].
    destruct (ascii_dec c "-") as [?|_]; [done|].
    rewrite negative_number_digits by done.
    by change (_has_negative_number_optionals the_parser) with false.
Qed.

Lemma py_int_dashes (lim : Z) : py_int lim "--" = None.
Proof. done. Qed.

Lemma get_values_port (lim : Z) (s : string) (n : Z) :
  py_int lim s = Some n →
  _get_values lim port_action [s] = inr (PyInt n).
Proof.
  intros Hint. unfold _get_values. cbn [remove_first].
  rewrite bool_decide_eq_false_2.
  - cbn. unfold _get_value. cbn. by rewrite Hint.
  - intros <-. by rewrite py_int_dashes in Hint.
Qed.

Lemma port_namespace (n : Z) :
  <["port" := PyInt n]> (default_namespace the_parser)
  = ({[ "port" := PyInt n ]} : gmap string pyvalue).
Proof.
  change (default_namespace the_parser)
    with (<["port" := PyInt 8000]> (∅ : gmap string pyvalue)).
  by rewrite insert_insert_eq.
Qed.

(** [--port s] with [s] an argument that [int] accepts. *)
Lemma parse_port_argument (lim : Z) (s : string) (n : Z) :
  _parse_optional the_parser s = IsPositional →
  py_int lim s = Some n →
  parse_args_outcome the_parser lim ["--port"; s]
  = Parsed {[ "port" := PyInt n ]} [].
Proof.
  intros Hpos Hint.
  assert (Hne : s ≠ "--") by (intros ->; by rewrite py_int_dashes in Hint).
  unfold parse_args_outcome, parse_known_args.
  cbn [arg_strings_pattern].
  rewrite (bool_decide_eq_false_2 ("--port" = "--")) by done.
  change (_parse_optional the_parser "--port")
    with (IsOptional (Some port_action, "--port", None)).
  rewrite (bool_decide_eq_false_2 (s = "--")) by done.
  rewrite Hpos. cbn [consume].
  change (nargs port_action) with NargsNone. cbn [app take_actions take_action].
  rewrite (get_values_port lim s n Hint).
  change (action_cls port_action) with _StoreAction.
  change (dest port_action) with "port". cbn match.
  by rewrite port_namespace.
Qed.



Lemma configured_port_parsed (p : platform) (n : Z) :
  parse_args_outcome the_parser (int_max_str_digits p) (tail (sys_argv p))
  = Parsed {[ "port" := PyInt n ]} [] →
  configured_port p = Some n.
Proof.
  intros H. unfold configured_port. rewrite H. by rewrite lookup_singleton_eq.
Qed.

(** When the parser calls [error], the process writes the usage and the
    message to standard error and exits with status 2; no socket was made. *)
Lemma serve_py_usage_error (p : platform) (ports : gmap Z port_state)
    (clients : list connection) (m : string) :
  parse_args_outcome the_parser (int_max_str_digits p) (tail (sys_argv p))
  = ErrorExit m →
  (python serve_py (boot p ports clients)).2 = Exited 2
  ∧ trace (python serve_py (boot p ports clients)).1
    = [Stderr (format_usage p);
       Stderr (basename (default "" (head (sys_argv p))) +:+ ": error: " +:+ m)].
Proof.
  intros H. unfold python, serve_py.
  rewrite bind_unfold, module_top_boot.
  unfold main_block, parse_args, ArgumentParser_parse_args.
  rewrite !bind_unfold. cbn. rewrite H. done.
Qed.

(** When the parser prints its help, the process writes it to standard
    output and exits with status 0. *)
Lemma serve_py_help (p : platform) (ports : gmap Z port_state)
    (clients : list connection) :
  parse_args_outcome the_parser (int_max_str_digits p) (tail (sys_argv p))
  = HelpExit →
  (python serve_py (boot p ports clients)).2 = Exited 0
  ∧ trace (python serve_py (boot p ports clients)).1
    = [Stdout (format_help p)].
Proof.
  intros H. unfold python, serve_py.
  rewrite bind_unfold, module_top_boot.
  unfold main_block, parse_args, ArgumentParser_parse_args.
  rewrite !bind_unfold. cbn. rewrite H. done.
Qed.




(** ** Serving files: extensions and paths *)

Lemma chars_app (s1 s2 : string) : chars (s1 +:+ s2) = chars s1 ++ chars s2.
Proof.
  unfold chars. induction s1 as [|c s1 IH]; [done|].
  change (String c s1 +:+ s2) with (String c (s1 +:+ s2)).
  cbn. by f_equal.
Qed.

Lemma of_chars_chars (s : string) : of_chars (chars s) = s.
Proof. apply String.string_of_list_ascii_of_string. Qed.

Lemma chars_of_chars (cs : list ascii) : chars (of_chars cs) = cs.
Proof. apply String.list_ascii_of_string_of_list_ascii. Qed.

Lemma chars_inj (s1 s2 : string) : chars s1 = chars s2 → s1 = s2.
Proof. intros H. by rewrite <- (of_chars_chars s1), H, of_chars_chars. Qed.

Lemma rfind_from_app (c : ascii) (xs ys : list ascii) (i last : Z) :
  rfind_from c (xs ++ ys) i last
  = rfind_from c ys (i + Z.of_nat (length xs)) (rfind_from c xs i last).
Proof.
  revert i last. induction xs as [|x xs IH]; intros i last; cbn [app rfind_from length].
  - f_equal. lia.
  - rewrite IH. f_equal. lia.
Qed.

Lemma rfind_from_absent (c : ascii) (ys : list ascii) (i last : Z) :
  c ∉ ys → rfind_from c ys i last = last.
Proof.
  revert i last. induction ys as [|y ys IH]; intros i last Hnot; [done|].
  cbn. apply not_elem_of_cons in Hnot as [Hne Hnot].
  rewrite bool_decide_eq_false_2 by done. by apply IH.
Qed.

Lemma rfind_from_range (c : ascii) (xs : list ascii) (i last : Z) :
  rfind_from c xs i last = last
  ∨ i ≤ rfind_from c xs i last < i + Z.of_nat (length xs).
Proof.
  revert i last. induction xs as [|x xs IH]; intros i last; [by left|].
  cbn [rfind_from length].
  destruct (IH (i + 1) (if bool_decide (x = c) then i else last)) as [->|H].
  - case_bool_decide; [right; lia|by left].
  - right. lia.
Qed.

Lemma take_drop_middle_elem {A} (l1 l2 l3 : list A) (i : nat) (x : A) :
  (i ≤ length l1)%nat → x ∈ l2 →
  x ∈ take (length l1 + length l2 - i) (drop i (l1 ++ l2 ++ l3)).
Proof.
  intros Hi Hx.
  rewrite drop_app_le by done.
  rewrite app_assoc.
  rewrite take_app_le.
  2:{ rewrite length_app, length_drop. lia. }
  rewrite take_ge.
  2:{ rewrite length_app, length_drop. lia. }
  apply elem_of_app. by right.
Qed.

(** The extension of [dir + stem + "." + ext]: when [stem] has no slash and
    has a character that is not a dot, and [ext] has neither dot nor
    slash. *)
Lemma splitext_stem (dir stem ext : string) :
  "/"%char ∉ chars stem →
  (∃ c, c ∈ chars stem ∧ c ≠ "."%char) →
  "/"%char ∉ chars ext → "."%char ∉ chars ext →
  splitext (dir +:+ stem +:+ "." +:+ ext)
  = (dir +:+ stem, "." +:+ ext).
Proof.
  intros Hstem (c & Hc & Hdot) Hext1 Hext2.
  unfold splitext, rfind.
  rewrite !chars_app. change (chars ".") with ["."%char]. cbn [app].
  set (d := chars dir). set (st := chars stem). set (e := chars ext).
  assert (Hdotidx : rfind_from "." (d ++ st ++ "."%char :: e) 0 (-1)
                    = Z.of_nat (length d + length st)).
  { rewrite app_assoc, rfind_from_app. cbn [rfind_from].
    rewrite (bool_decide_eq_true_2 ("."%char = "."%char)) by done.
    rewrite rfind_from_absent by done. rewrite length_app. lia. }
  assert (Hsep : rfind_from "/" (d ++ st ++ "."%char :: e) 0 (-1)
                 = rfind_from "/" d 0 (-1)).
  { rewrite rfind_from_app. rewrite rfind_from_app.
    cbn [rfind_from].
    rewrite (bool_decide_eq_false_2 ("."%char = "/"%char)) by done.
    rewrite (rfind_from_absent _ e) by done.
    by rewrite (rfind_from_absent _ st). }
  rewrite Hdotidx, Hsep.
  pose proof (rfind_from_range "/" d 0 (-1)) as Hrange.
  set (k := rfind_from "/" d 0 (-1)) in *.
  rewrite bool_decide_eq_true_2 by lia.
  assert (Hex : existsb (λ c0, negb (bool_decide (c0 = "."%char)))
            (take (Z.to_nat (Z.of_nat (length d + length st) - (k + 1)))
               (drop (Z.to_nat (k + 1)) (d ++ st ++ "."%char :: e))) = true).
  { apply existsb_exists. exists c. split.
    - apply list_elem_of_In.
      replace (Z.to_nat (Z.of_nat (length d + length st) - (k + 1)))
        with (length d + length st - Z.to_nat (k + 1))%nat by lia.
      apply take_drop_middle_elem; [lia|done].
    - by rewrite bool_decide_eq_false_2. }
  rewrite Hex. cbn [andb].
  rewrite Nat2Z.id.
  f_equal; apply chars_inj; rewrite chars_of_chars.
  - rewrite chars_app. fold d st. rewrite app_assoc.
    rewrite take_app_le by (rewrite length_app; lia).
    rewrite take_ge by (rewrite length_app; lia). done.
  - rewrite app_assoc, drop_app_le by (rewrite length_app; lia).
    rewrite drop_ge by (rewrite length_app; lia). done.
Qed.

(** The loop of [guess_type] over the suffix map stops within two rounds:
    what a replacement leaves as extension is [.gz], [.bz2] or [.xz], none
    of which the suffix map has. *)
Lemma suffix_loop_exits (base ext : string) :
  _suffix_map_default !! lower (suffix_loop 2 base ext).2 = None.
Proof.
  cbn [suffix_loop].
  destruct (_suffix_map_default !! lower ext) as [replacement|] eqn:Hmap;
    [|done].
  apply elem_of_list_to_map_2 in Hmap.
  assert (Hsplit : ∃ stem tail,
            replacement = stem +:+ "." +:+ tail
            ∧ ("/"%char ∉ chars stem)
            ∧ (∃ c, c ∈ chars stem ∧ c ≠ "."%char)
            ∧ ("/"%char ∉ chars tail) ∧ ("."%char ∉ chars tail)
            ∧ _suffix_map_default !! lower ("." +:+ tail) = None).
  { assert (Hparts : ∀ stem tail c,
              ("/"%char ∉ chars stem) → c ∈ chars stem → c ≠ "."%char →
              ("/"%char ∉ chars tail) → ("."%char ∉ chars tail) →
              _suffix_map_default !! lower ("." +:+ tail) = None →
              ∃ stem' tail',
                stem +:+ "." +:+ tail = stem' +:+ "." +:+ tail'
                ∧ ("/"%char ∉ chars stem')
                ∧ (∃ c, c ∈ chars stem' ∧ c ≠ "."%char)
                ∧ ("/"%char ∉ chars tail') ∧ ("."%char ∉ chars tail')
                ∧ _suffix_map_default !! lower ("." +:+ tail') = None).
    { intros stem tail c ??????. exists stem, tail. split_and!; try done.
      by exists c. }
    repeat (apply elem_of_cons in Hmap as [[= _ ->]|Hmap];
            [first [ apply (Hparts ".svg" "gz" "s"%char)
                   | apply (Hparts ".tar" "gz" "t"%char)
                   | apply (Hparts ".tar" "bz2" "t"%char)
                   | apply (Hparts ".tar" "xz" "t"%char) ];
             [cbn; not_in_list|compute_done|done|cbn; not_in_list
             |cbn; not_in_list|reflexivity]|]).
    by apply elem_of_nil in Hmap. }
  destruct Hsplit as (stem & tail & -> & Hstem & Hdot & Htail1 & Htail2 & Hnone).
  rewrite (splitext_stem base stem tail) by done.
  by rewrite Hnone.
Qed.

(** ** What a run answers *)

(** Every response of a run is one that the handler computes with the
    database of the import. *)
Lemma run_responses (p : platform) (ports : gmap Z port_state)
    (clients : list connection) (id : nat) (req : http_request) (r : response) :
  Sent id req r ∈ trace (python serve_py (boot p ports clients)).1 →
  answers p (loaded_db p) req r.
Proof.
  intros Hin.
  assert (Hscript : Sent id req r ∈ trace (serve_py (boot p ports clients)).1).
  { destruct (python_trace serve_py (boot p ports clients))
      as [Heq|(e & _ & _ & Heq)]; rewrite Heq in Hin; [done|].
    apply elem_of_app in Hin as [?|Hin]; [done|].
    apply list_elem_of_singleton in Hin. discriminate. }
  clear Hin.
  destruct (classic_startup p ports) as [(port & Hport & Hok)|Hfail].
  - set (w := with_mime_db (Some (loaded_db p)) (boot p ports clients)).
    destruct (main_block_serving w (loaded_db p) port eq_refl Hport Hok)
      as (post & Htrace & Hpost).
    unfold serve_py in Hscript.
    rewrite bind_unfold, module_top_boot in Hscript. fold w in Hscript.
    rewrite Htrace in Hscript. cbn [trace w with_mime_db boot app] in Hscript.
    apply elem_of_app in Hscript as [Hin|Hin].
    { exfalso. revert Hin. unfold startup_events.
      destruct (has_SO_REUSEADDR _); cbn; not_in_list. }
    apply elem_of_cons in Hin as [Hin|Hin]; [discriminate|].
    apply elem_of_cons in Hin as [Hin|Hin]; [discriminate|].
    rewrite Forall_forall in Hpost. exact (Hpost _ Hin).
  - by destruct (serve_py_startup_failed p ports clients Hfail)
      as (_ & Hnot & _); destruct (Hnot id req r).
Qed.

Lemma send_response_spec (c : connection) (code : Z) (w : world) :
  ∃ w', send_response c code w
        = (w', Ok [("Server", version_string (pf w));
                   ("Date", date_time_now (pf w))])
        ∧ pf w' = pf w.
Proof.
  unfold send_response, log_message.
  unfold bind, get, ret, emit, modify. cbn.
  eexists. split; [reflexivity|done].
Qed.

Lemma send_error_spec (c : connection) (code : Z) (message : string)
    (w : world) :
  ∃ w' r, send_error c code message w = (w', Ok r) ∧ status r = code.
Proof.
  unfold send_error, send_response, log_message.
  unfold bind, get, ret, emit, modify. cbn.
  eexists _, _. split; [reflexivity|done].
Qed.

Lemma mimetypes_guess_type_loaded (url : string) (w : world) (db : MimeTypes) :
  mime_db w = Some db →
  mimetypes_guess_type url w = (w, Ok (MimeTypes_guess_type db url)).
Proof.
  intros Hdb. unfold mimetypes_guess_type, mimetypes_db.
  unfold bind, get, ret. cbn. by rewrite Hdb.
Qed.

(** Once the database is loaded, guessing a type neither fails nor changes
    anything. *)
Lemma guess_type_total (path : string) (w : world) (db : MimeTypes) :
  mime_db w = Some db → ∃ ctype, guess_type path w = (w, Ok ctype).
Proof.
  intros Hdb. unfold guess_type.
  destruct (splitext path) as [base ext].
  destruct (extensions_map !! ext); [by eexists|].
  destruct (extensions_map !! lower ext); [by eexists|].
  rewrite bind_unfold, (mimetypes_guess_type_loaded _ _ db Hdb).
  destruct (MimeTypes_guess_type db path).1 as [guess|]; [|by eexists].
  case_bool_decide; by eexists.
Qed.

(** What [send_head] answers for a path that is not a directory. *)
Lemma send_file_head_spec (c : connection) (path ctype : string) (w : world) :
  guess_type path w = (w, Ok ctype) →
  ∃ w' r opened,
    send_file_head c path w = (w', Ok (r, opened))
    ∧ match (if endswith path "/" then None else open_rb (pf w) path) with
      | None => status r = 404 ∧ opened = None
      | Some f =>
          if not_modified (pf w) (headers (conn_request c)) (file_mtime f)
          then status r = 304 ∧ body r = [] ∧ opened = None
          else status r = 200 ∧ opened = Some f
               ∧ ("Content-type", ctype) ∈ resp_headers r
      end.
Proof.
  intros Hguess. unfold send_file_head.
  rewrite bind_unfold. cbn [get]. rewrite bind_unfold, Hguess.
  destruct (endswith path "/").
  { eexists _, _, _. split; [reflexivity|done]. }
  destruct (open_rb (pf w) path) as [f|].
  2:{ eexists _, _, _. split; [reflexivity|done]. }
  destruct (not_modified _ _ _).
  - eexists _, _, _. split; [reflexivity|done].
  - eexists _, _, _. split; [reflexivity|]. cbn.
    split; [done|]. split; [done|].
    do 2 (apply elem_of_cons; right). apply elem_of_cons. by left.
Qed.

Lemma send_head_file (c : connection) (w : world) :
  isdir (pf w) (translate_path (pf w) (request_url c)) = false →
  send_head c w = send_file_head c (translate_path (pf w) (request_url c)) w.
Proof.
  intros Hdir. unfold send_head. rewrite bind_unfold. cbn [get].
  by rewrite Hdir.
Qed.

(** ** The directory that is served *)

Lemma split_chars_no_sep (sep : ascii) (cs l : list ascii) :
  l ∈ split_chars sep cs → sep ∉ l.
Proof.
  revert l. induction cs as [|c cs IH]; intros l; cbn.
  - intros Hin%list_elem_of_singleton. subst. apply not_elem_of_nil.
  - case_bool_decide as Hc.
    + intros [->|Hin]%elem_of_cons; [apply not_elem_of_nil|by apply IH].
    + destruct (split_chars sep cs) as [|h t].
      * intros Hin%list_elem_of_singleton. subst.
        apply not_elem_of_cons. split; [done|apply not_elem_of_nil].
      * intros [->|Hin]%elem_of_cons.
        -- apply not_elem_of_cons. split; [done|]. apply IH. by left.
        -- apply IH. by right.
Qed.

Lemma split_no_sep (word s : string) :
  word ∈ split "/" s → startswith word "/" = false.
Proof.
  unfold split. intros (cs & -> & Hin)%list_elem_of_fmap.
  apply split_chars_no_sep in Hin.
  destruct cs as [|c cs]; [done|].
  apply not_elem_of_cons in Hin as [Hne _].
  unfold startswith, of_chars.
  change (String.string_of_list_ascii (c :: cs))
    with (String c (String.string_of_list_ascii cs)).
  cbn [String.prefix].
  by destruct (Ascii.ascii_dec "/" c) as [Heq|].
Qed.

Lemma string_app_assoc (s1 s2 s3 : string) :
  s1 +:+ s2 +:+ s3 = (s1 +:+ s2) +:+ s3.
Proof. apply chars_inj. by rewrite !chars_app, app_assoc. Qed.

Lemma path_join_below (root rest word : string) :
  startswith word "/" = false →
  ∃ rest', path_join (root +:+ rest) word = root +:+ rest'.
Proof.
  intros Hword. unfold path_join. rewrite Hword.
  destruct (_ || _).
  - exists (rest +:+ word). by rewrite string_app_assoc.
  - exists (rest +:+ "/" +:+ word). by rewrite !string_app_assoc.
Qed.

(** Every path that [translate_path] returns lies below the current
    directory. *)
Lemma translate_path_below_cwd (p : platform) (url : string) :
  ∃ rest, translate_path p url = getcwd p +:+ rest.
Proof.
  unfold translate_path.
  set (words := filter _ _).
  assert (Hwords : Forall (λ word, startswith word "/" = false) words).
  { apply Forall_forall. intros word [_ Hin]%list_elem_of_filter.
    by apply split_no_sep in Hin. }
  assert (Hfold : ∀ start, (∃ rest, start = getcwd p +:+ rest) →
            ∃ rest, foldl (λ path word,
                             if bool_decide (word = ".") || bool_decide (word = "..")
                             then path else path_join path word) start words
                    = getcwd p +:+ rest).
  { induction Hwords as [|word words Hword _ IH]; intros start Hstart; [done|].
    cbn [foldl]. apply IH. destruct (_ || _); [done|].
    destruct Hstart as [rest ->]. by apply path_join_below. }
  destruct (Hfold (getcwd p)) as [rest Hrest].
  { exists "". apply chars_inj. by rewrite chars_app, app_nil_r. }
  rewrite Hrest. destruct (endswith _ "/"); [|by exists rest].
  exists (rest +:+ "/"). by rewrite string_app_assoc.
Qed.





(** ** The types of scripts and style sheets *)

Lemma splittype_absolute (path : string) :
  startswith path "/" = true → _splittype path = (None, path).
Proof.
  destruct path as [|c rest]; [done|].
  unfold startswith. cbn [String.prefix].
  by destruct (Ascii.ascii_dec "/" c) as [<-|].
Qed.

Lemma startswith_app (s rest prefix : string) :
  startswith s prefix = true → startswith (s +:+ rest) prefix = true.
Proof.
  unfold startswith. revert s.
  induction prefix as [|c prefix IH]; intros s; [by destruct (s +:+ rest)|].
  destruct s as [|c' s]; [done|].
  change (String c' s +:+ rest) with (String c' (s +:+ rest)).
  cbn [String.prefix]. destruct (Ascii.ascii_dec c c'); [apply IH|done].
Qed.

(** The type that the handler guesses for an absolute path whose extension
    is [.js] or [.css] is the one that the database has for it. *)
Lemma guess_type_script_or_style (path base ext ctype : string) (w : world)
    (db : MimeTypes) :
  mime_db w = Some db →
  startswith path "/" = true →
  splitext path = (base, ext) →
  ext = ".js" ∨ ext = ".css" →
  types_map_strict db !! ext = Some ctype →
  ctype ≠ "" →
  guess_type path w = (w, Ok ctype).
Proof.
  intros Hdb Habs Hsplit Hext Htype Hctype.
  unfold guess_type. rewrite Hsplit.
  assert (Hmap : extensions_map !! ext = None)
    by by destruct Hext as [->| ->].
  assert (Hlower : lower ext = ext) by by destruct Hext as [->| ->].
  rewrite Hmap, Hlower, Hmap.
  rewrite bind_unfold, (mimetypes_guess_type_loaded _ _ db Hdb).
  assert (Hguess : (MimeTypes_guess_type db path).1 = Some ctype).
  { unfold MimeTypes_guess_type.
    rewrite (splittype_absolute _ Habs), Hsplit.
    rewrite (bool_decide_eq_false_2 (None = Some "data")) by done.
    assert (Hloop : suffix_loop 2 base ext = (base, ext))
      by by destruct Hext as [->| ->].
    assert (Henc : _encodings_map_default !! ext = None)
      by by destruct Hext as [->| ->].
    by rewrite Hloop, Henc, Hlower. }
  rewrite Hguess. by rewrite bool_decide_eq_false_2.
Qed.

(** The head and the body of an answer with status 200 for a path that is
    not a directory carry the type that the handler guessed. *)
Lemma call_method_file_type (c : connection) (w w' : world) (r : response)
    (ctype : string) :
  call_method c w = (w', Ok r) →
  status r = 200 →
  isdir (pf w) (translate_path (pf w) (request_url c)) = false →
  guess_type (translate_path (pf w) (request_url c)) w = (w, Ok ctype) →
  ("Content-type", ctype) ∈ resp_headers r.
Proof.
  intros Hcall Hstatus Hdir Hguess.
  destruct (send_file_head_spec c _ ctype w Hguess)
    as (w1 & r1 & opened & Hhead & Hspec).
  assert (Hr1 : status r1 = 200 → ("Content-type", ctype) ∈ resp_headers r1).
  { intros H200. destruct (if endswith _ _ then _ else _) as [f|].
    - destruct (not_modified _ _ _).
      + destruct Hspec as [H304 _]. rewrite H304 in H200. discriminate.
      + by destruct Hspec as (_ & _ & ?).
    - destruct Hspec as [H404 _]. rewrite H404 in H200. discriminate. }
  unfold call_method in Hcall.
  case_bool_decide as Hget; [|case_bool_decide as Hhd].
  - unfold do_GET in Hcall.
    rewrite bind_unfold, send_head_file, Hhead in Hcall by done.
    cbn in Hcall. destruct opened as [f|]; injection Hcall as _ <-;
      by apply Hr1.
  - unfold do_HEAD in Hcall.
    rewrite bind_unfold, send_head_file, Hhead in Hcall by done.
    cbn in Hcall. injection Hcall as _ <-. by apply Hr1.
  - destruct (send_error_spec c 501
                ("Unsupported method ("
                 +:+ repr_str (command (conn_request c)) +:+ ")") w)
      as (w2 & r2 & Herr & H501).
    rewrite Herr in Hcall. injection Hcall as _ <-.
    rewrite H501 in Hstatus. discriminate.
Qed.

Lemma loaded_db_js (p : platform) :
  types_map_strict (loaded_db p) !! ".js" = Some "application/javascript".
Proof. cbn. rewrite lookup_insert_ne by done. apply lookup_insert_eq. Qed.

Lemma loaded_db_css (p : platform) :
  types_map_strict (loaded_db p) !! ".css" = Some "text/css".
Proof. apply lookup_insert_eq. Qed.

(** C3. Importing [serve.py] registers, before anything else happens, two
    types in the [mimetypes] database: [application/javascript] for [.js]
    and [text/css] for [.css]; they replace what the platform had for those
    two extensions and leave every other extension as it was.  For a
    request path that translates, below an absolute current directory, to
    a name whose last component is a stem with a character other than a
    dot followed by [.js] (or [.css]), the handler guesses the type
    [application/javascript] (or [text/css]), and in every run an answer
    with status 200 for that path, when it is not a directory, has the
    header [Content-type] with that type. *)
Theorem C3_script_and_style_types (p : platform) (ports : gmap Z port_state)
    (clients : list connection) :
  let imported := (module_top (boot p ports clients)).1 in
  let run := python serve_py (boot p ports clients) in
  mime_db imported = Some (loaded_db p)
  ∧ trace imported = []
  ∧ types_map_strict (loaded_db p) !! ".js" = Some "application/javascript"
  ∧ types_map_strict (loaded_db p) !! ".css" = Some "text/css"
  ∧ (∀ ext, ext ≠ ".js" → ext ≠ ".css" →
            types_map_strict (loaded_db p) !! ext = mime_defaults p !! ext)
  ∧ (∀ url dir stem ext ctype,
       startswith (getcwd p) "/" = true →
       translate_path p url = dir +:+ stem +:+ ext →
       ("/"%char ∉ chars stem) →
       (∃ c, c ∈ chars stem ∧ c ≠ "."%char) →
       (ext, ctype) ∈ [(".js", "application/javascript"); (".css", "text/css")] →
       (∀ w, pf w = p → mime_db w = Some (loaded_db p) →
             guess_type (translate_path p url) w = (w, Ok ctype))
       ∧ (∀ id req r,
            path req = url →
            Sent id req r ∈ trace run.1 →
            status r = 200 →
            isdir p (translate_path p url) = false →
            ("Content-type", ctype) ∈ resp_headers r)).
Proof.
  intros imported run.
  split; [done|]. split; [done|].
  split; [apply loaded_db_js|]. split; [apply loaded_db_css|].
  split.
  { intros ext Hjs Hcss. cbn.
    rewrite lookup_insert_ne by done. by rewrite lookup_insert_ne. }
  intros url dir stem ext ctype Hcwd Hpath Hstem Hdot Hext.
  assert (Habs : startswith (translate_path p url) "/" = true).
  { destruct (translate_path_below_cwd p url) as [rest ->].
    by apply startswith_app. }
  assert (Hcases : (ext = ".js" ∧ ctype = "application/javascript")
                   ∨ (ext = ".css" ∧ ctype = "text/css")).
  { apply elem_of_cons in Hext as [[= -> ->]|Hext]; [by left|].
    apply list_elem_of_singleton in Hext as [= -> ->]. by right. }
  assert (Hguess : ∀ w, pf w = p → mime_db w = Some (loaded_db p) →
            guess_type (translate_path p url) w = (w, Ok ctype)).
  { intros w Hpf Hdb.
    apply (guess_type_script_or_style _ (dir +:+ stem) ext ctype w _ Hdb Habs).
    - rewrite Hpath.
      destruct Hcases as [[-> _]|[-> _]].
      + change ".js" with ("." +:+ "js").
        apply splitext_stem; [done|done|cbn; not_in_list..].
      + change ".css" with ("." +:+ "css").
        apply splitext_stem; [done|done|cbn; not_in_list..].
    - destruct Hcases as [[-> _]|[-> _]]; [by left|by right].
    - destruct Hcases as [[-> ->]|[-> ->]].
      + apply loaded_db_js.
      + apply loaded_db_css.
    - by destruct Hcases as [[_ ->]|[_ ->]]. }
  split; [done|].
  intros id req r <- Hsent Hstatus Hdir.
  apply run_responses in Hsent as (c & w & w' & <- & <- & Hdb & Hcall).
  change (path (conn_request c)) with (request_url c) in *.
  apply (call_method_file_type c w w' r ctype Hcall Hstatus Hdir).
  by apply Hguess.
Qed.

Lemma C3_script_and_style_types_witness :
  mime_defaults (demo_platform []) !! ".js" = Some "text/plain"
  ∧ ("Content-type", "application/javascript")
    ∈ resp_headers
        (demo_response 200
           (demo_file_headers "application/javascript" "10") "let x = 1;").
Proof.
  split; [reflexivity|].
  destruct (C3_script_and_style_types (demo_platform []) ∅
              [demo_get "/app.js" []]) as (_ & _ & _ & _ & _ & Hrun).
  destruct (Hrun "/app.js" "/srv/" "app" ".js" "application/javascript")
    as [_ Hsent].
  - reflexivity.
  - reflexivity.
  - compute_done.
  - exists "a"%char. split; [compute_done|done].
  - compute_done.
  - apply (Hsent 1%nat (conn_request (demo_get "/app.js" []))).
    + reflexivity.
    + vm_compute. repeat constructor.
    + reflexivity.
    + reflexivity.
Defined.

(** The file [/srv/.js] is served as [application/octet-stream]: a name
    that is only an extension has no extension for [splitext]. *)
Lemma C3_dot_file_counterexample :
  ¬ (∀ (p : platform) ports clients id req r,
       Sent id req r ∈ trace (python serve_py (boot p ports clients)).1 →
       status r = 200 →
       isdir p (translate_path p (path req)) = false →
       endswith (translate_path p (path req)) ".js" = true →
       ("Content-type", "application/javascript") ∈ resp_headers r).
Proof.
  intros Hclaim.
  specialize (Hclaim (demo_platform []) ∅ [demo_get "/.js" []] 1%nat
                (conn_request (demo_get "/.js" []))
                (demo_response 200
                   (demo_file_headers "application/octet-stream" "6")
                   "hidden")).
  assert (Hin : ("Content-type", "application/javascript")
                ∈ resp_headers
                    (demo_response 200
                       (demo_file_headers "application/octet-stream" "6")
                       "hidden")).
  { apply Hclaim; [vm_compute; repeat constructor|reflexivity..]. }
  revert Hin. cbn. not_in_list.
Qed.

(** * More of the program *)

Lemma appended_nil (w : world) : appended [] w = w.
Proof. unfold appended, with_trace. rewrite app_nil_r. apply world_eta. Qed.

Lemma appended_app (t1 t2 : list event) (w : world) :
  appended t2 (appended t1 w) = appended (t1 ++ t2) w.
Proof. unfold appended, with_trace. cbn. by rewrite app_assoc. Qed.




Section Handler.

(** A computation of the handler: it returns, and all it does is write
    lines to the log. *)
Let logs {A} (c : M A) : Prop :=
  ∀ w, is_Some (mime_db w) →
       ∃ t a, c w = (appended t w, Ok a) ∧ Forall is_log t.

Lemma logs_ret {A} (a : A) : logs (ret a).
Proof. intros w _. exists [], a. by rewrite appended_nil. Qed.

Lemma logs_bind {A B} (c : M A) (k : A → M B) :
  logs c → (∀ a, logs (k a)) → logs (bind c k).
Proof.
  intros Hc Hk w Hw. rewrite bind_unfold.
  destruct (Hc w Hw) as (t1 & a & -> & Ht1).
  destruct (Hk a (appended t1 w) Hw) as (t2 & b & -> & Ht2).
  exists (t1 ++ t2), b. rewrite appended_app. split; [done|].
  by apply Forall_app.
Qed.

Lemma logs_get {B} (k : world → M B) :
  (∀ w, logs (k w)) → logs (bind get k).
Proof. intros Hk w Hw. apply (Hk w w Hw). Qed.

Lemma logs_emit (e : event) : is_log e → logs (emit e).
Proof. intros He w _. exists [e], tt. split; [done|]. by constructor. Qed.

Lemma logs_log_message (c : connection) (m : string) : logs (log_message c m).
Proof. apply logs_get. intros w. by apply logs_emit. Qed.

Lemma logs_guess_type (path : string) : logs (guess_type path).
Proof.
  intros w [db Hdb].
  destruct (guess_type_total path w db Hdb) as [ctype ->].
  exists [], ctype. by rewrite appended_nil.
Qed.

Create HintDb logs.
#[local] Hint Resolve logs_ret logs_log_message logs_guess_type : logs.

#[local] Ltac logs :=
  repeat (cbv zeta;
          match goal with
          | |- logs (ret _) => apply logs_ret
          | |- logs (bind get _) => apply logs_get; intros ?
          | |- logs (bind _ _) => apply logs_bind; [|intros ?]
          | |- logs (if ?b then _ else _) => destruct b
          | |- logs (match ?x with _ => _ end) => destruct x
          | |- _ => solve [eauto with logs]
          end).






End Handler.

(** ** Control flow, one step at a time *)

Lemma emit_effect (e : event) (w : world) : emit e w = (appended [e] w, Ok tt).
Proof. done. Qed.

Lemma with_exc_info_appended (o : option exn) (t : list event) (w : world) :
  with_exc_info o (appended t w) = appended t (with_exc_info o w).
Proof. done. Qed.



Lemma mime_db_appended (t : list event) (w : world) :
  mime_db (appended t w) = mime_db w.
Proof. done. Qed.

Lemma try_except_returns {A} (body : M A)
    (clauses : list ((exn → bool) * (exn → M A))) (w w1 : world) (a : A) :
  body w = (w1, Ok a) → try_except body clauses w = (w1, Ok a).
Proof. unfold try_except. by intros ->. Qed.


Lemma try_except_caught {A} (body : M A)
    (clauses : list ((exn → bool) * (exn → M A))) (w w1 w2 : world)
    (e : exn) (handler : exn → M A) (r : result A) :
  body w = (w1, Raise e) →
  find_clause clauses e = Some handler →
  handler e (with_exc_info (Some e) w1) = (w2, r) →
  try_except body clauses w = (with_exc_info (exc_info w1) w2, r).
Proof. unfold try_except. by intros -> -> ->. Qed.




Lemma shutdown_request_effect (c : connection) (w : world) :
  shutdown_request c w
  = (appended [ConnShutdown (conn_id c); ConnClose (conn_id c)] w, Ok tt).
Proof.
  unfold shutdown_request.
  by rewrite bind_unfold, emit_effect, emit_effect, appended_app.
Qed.



(** ** One round of the serve loop, whatever the connection does *)


(** [handle_error] returns, and all it does is write to standard error:
    nothing for the two classes it passes over, otherwise the two rules,
    the client address and the traceback of what is in flight, which is
    [None] when nothing is. *)
Lemma handle_error_effect (c : connection) (w : world) :
  ∃ t, handle_error ResilientTCPServer c w = (appended t w, Ok tt)
       ∧ Forall serving_event t
       ∧ (t = [] ↔ ∃ e, exc_info w = Some e
                        ∧ exn_class e ∈ [BrokenPipeError; ConnectionResetError])
       ∧ (t ≠ [] →
          t = [Stderr dashes40;
               Stderr ("Exception occurred during processing of request from "
                       +:+ repr_address (client_address c));
               StderrTraceback (exc_info w);
               Stderr dashes40]).
Proof.
  rewrite handle_error_unfold.
  destruct (class_in _ _) eqn:Hin.
  - exists []. rewrite appended_nil. split; [done|]. split; [done|].
    split; [|done]. split; [intros _|done].
    destruct (exc_info w) as [e|]; [|done]. exists e. split; [done|].
    cbn in Hin. by apply bool_decide_eq_true_1 in Hin.
  - eexists [_; _; _; _]. rewrite BaseServer_handle_error_spec.
    split; [unfold appended, with_trace; cbn; by rewrite <- !app_assoc|].
    split; [by repeat constructor|]. split; [|done].
    split; [done|]. intros (e & He & Hcls). rewrite He in Hin. cbn in Hin.
    by rewrite bool_decide_eq_true_2 in Hin.
Qed.




(** ** The serve loop over the connections that arrive *)





(** ** The script around the serve loop *)











(** X1. [ResilientTCPServer.handle_error] returns in every state, and all
    it does is write to standard error.  It writes nothing exactly when an
    exception of class [BrokenPipeError] or [ConnectionResetError] is in
    flight; in every other state, also when no exception is in flight, it
    writes the two rules, the client address and the traceback of what
    [sys.exc_info()] holds. *)
Theorem handle_error_only_logs (c : connection) (w : world) :
  ∃ t,
    handle_error ResilientTCPServer c w = (appended t w, Ok tt)
    ∧ (t = [] ↔ ∃ e, exc_info w = Some e
                     ∧ exn_class e ∈ [BrokenPipeError; ConnectionResetError])
    ∧ (t ≠ [] →
       t = [Stderr dashes40;
            Stderr ("Exception occurred during processing of request from "
                    +:+ repr_address (client_address c));
            StderrTraceback (exc_info w);
            Stderr dashes40]).
Proof.
  destruct (handle_error_effect c w) as (t & Heq & _ & Hsilent & Hlogs).
  by exists t.
Qed.

(** ** The answers of the handler *)

Lemma send_response_effect (c : connection) (code : Z) (w : world) :
  ∃ t, send_response c code w = (appended t w, Ok (standard_headers (pf w))).
Proof.
  eexists [_]. unfold send_response, log_message.
  unfold bind, get, ret, emit, modify. reflexivity.
Qed.

Lemma send_error_effect (c : connection) (code : Z) (message : string)
    (w : world) :
  ∃ t, send_error c code message w
       = (appended t w,
          Ok (error_response (pf w) (command (conn_request c)) code message)).
Proof.
  eexists [_; _]. unfold send_error, send_response, log_message.
  unfold bind, get, ret, emit, modify. cbn.
  unfold appended, with_trace. cbn. by rewrite <- app_assoc.
Qed.














(** ** The names that requests can reach *)

Lemma string_app_nil_r (s : string) : s +:+ "" = s.
Proof. apply chars_inj. by rewrite chars_app, app_nil_r. Qed.

Lemma endswith_slash_app (a word : string) :
  word ≠ "" → "/"%char ∉ chars word → endswith (a +:+ word) "/" = false.
Proof.
  intros Hne Hslash. unfold endswith. apply bool_decide_eq_false_2.
  rewrite chars_app. intros [k Hk].
  assert (Hlast : last (chars a ++ chars word) = Some "/"%char).
  { rewrite Hk. change (chars "/") with ["/"%char]. apply last_snoc. }
  destruct (chars word) as [|c cs] eqn:Hcs using rev_ind.
  { apply Hne, chars_inj. by rewrite Hcs. }
  rewrite app_assoc, last_snoc in Hlast. injection Hlast as ->.
  apply Hslash. apply elem_of_app. right. by left.
Qed.

Lemma startswith_slash_simple (word : string) :
  "/"%char ∉ chars word → startswith word "/" = false.
Proof.
  destruct word as [|c s]; [done|]. intros Hnot.
  unfold startswith. cbn [String.prefix].
  destruct (Ascii.ascii_dec "/" c) as [<-|]; [|done].
  destruct Hnot. by left.
Qed.

Lemma path_join_simple (root word : string) :
  simple_name word →
  path_join root word = root +:+ join_separator root [word] +:+ word.
Proof.
  intros (Hne & _ & _ & Hslash). unfold path_join, join_separator.
  rewrite (startswith_slash_simple _ Hslash).
  rewrite (bool_decide_eq_false_2 ([word] = [])) by done. cbn [orb].
  by destruct (_ || _).
Qed.

Lemma string_app_empty (a b : string) : a +:+ b = "" → b = "".
Proof.
  intros H. apply (f_equal chars) in H. rewrite chars_app in H.
  apply app_eq_nil in H as [_ H]. apply chars_inj. by rewrite H.
Qed.

(** Joining simple names one after the other puts them, separated by
    slashes, after the root. *)
Lemma foldl_path_join (root : string) (words : list string) :
  Forall simple_name words →
  foldl path_join root words
  = root +:+ join_separator root words +:+ join "/" words.
Proof.
  intros Hwords. revert root.
  induction Hwords as [|word words Hword Hwords IH]; intros root.
  { cbn. unfold join_separator. cbn. by rewrite !string_app_nil_r. }
  cbn [foldl]. rewrite IH, (path_join_simple _ _ Hword).
  destruct Hword as (Hne & _ & _ & Hslash).
  assert (Hsep : join_separator root (word :: words)
                 = join_separator root [word]).
  { unfold join_separator.
    by rewrite !(bool_decide_eq_false_2 (_ :: _ = [])). }
  rewrite Hsep.
  set (root' := root +:+ join_separator root [word] +:+ word).
  assert (Hroot' : join_separator root' words
                   = if bool_decide (words = []) then "" else "/").
  { unfold join_separator. case_bool_decide; [done|]. cbn [orb].
    rewrite bool_decide_eq_false_2.
    - subst root'. rewrite string_app_assoc.
      by rewrite endswith_slash_app.
    - subst root'. intros Hempty. rewrite string_app_assoc in Hempty.
      by apply string_app_empty in Hempty. }
  rewrite Hroot'. subst root'.
  destruct words as [|word' words']; cbn [join].
  - rewrite bool_decide_eq_true_2 by done.
    by rewrite !string_app_nil_r.
  - rewrite bool_decide_eq_false_2 by done.
    by rewrite <- !string_app_assoc.
Qed.

(** The loop of [translate_path] joins the words that are simple names. *)
Lemma foldl_skip_dots (root : string) (words : list string) :
  foldl (λ path word,
           if bool_decide (word = ".") || bool_decide (word = "..")
           then path else path_join path word) root words
  = foldl path_join root
      (filter (λ word, word ≠ "." ∧ word ≠ "..") words).
Proof.
  revert root. induction words as [|word words IH]; intros root; [done|].
  cbn [foldl]. rewrite IH.
  destruct (decide (word = ".")) as [->|Hdot]; [done|].
  destruct (decide (word = "..")) as [->|Hdots]; [done|].
  rewrite filter_cons_True by done.
  by rewrite !bool_decide_eq_false_2.
Qed.

Lemma split_words_simple (s : string) :
  Forall simple_name
    (filter (λ word, word ≠ "." ∧ word ≠ "..")
       (filter (λ word, word ≠ "") (split "/" s))).
Proof.
  apply Forall_forall. intros word Hin.
  apply list_elem_of_filter in Hin as [[Hdot Hdots] Hin].
  apply list_elem_of_filter in Hin as [Hne Hin].
  split; [done|]. split; [done|]. split; [done|].
  unfold split in Hin. apply list_elem_of_fmap in Hin as (cs & -> & Hcs).
  rewrite chars_of_chars. by apply split_chars_no_sep in Hcs.
Qed.

(** X9. Whatever the path of a request is, the name that
    [translate_path] gives for it is the current directory followed by
    simple names separated by slashes (and a final slash when the path had
    one): none of the components is empty, [.] or [..], and none has a
    slash.  So no request reaches a name above the served directory through
    dot-dot components, encoded or not, since [unquote] comes before
    [normpath] and the filter. *)
Theorem translated_names_stay_below (p : platform) (url : string) :
  ∃ words,
    Forall simple_name words
    ∧ translate_path p url
      = getcwd p +:+ join_separator (getcwd p) words +:+ join "/" words
        +:+ (if endswith (rstrip (before_first "#" (before_first "?" url))) "/"
             then "/" else "").
Proof.
  unfold translate_path.
  set (words0 := filter (λ word, word ≠ "") _).
  exists (filter (λ word, word ≠ "." ∧ word ≠ "..") words0).
  split; [apply split_words_simple|].
  rewrite foldl_skip_dots, foldl_path_join by apply split_words_simple.
  destruct (endswith _ "/").
  - by rewrite <- !string_app_assoc.
  - by rewrite string_app_nil_r.
Qed.

(** The dot-dot components of a path do not leave [/srv]. *)
Example dot_dot_stays_below :
  translate_path (demo_platform []) "/../../etc/passwd" = "/srv/etc/passwd".
Proof. done. Qed.

(** ** The log *)

Lemma chars_concat (l : list string) :
  chars (String.concat "" l) = concat (chars <$> l).
Proof.
  induction l as [|s l IH]; [done|].
  destruct l as [|s' l'].
  - cbn. by rewrite app_nil_r.
  - change (String.concat "" (s :: s' :: l'))
      with (s +:+ "" +:+ String.concat "" (s' :: l')).
    rewrite !chars_app, IH. done.
Qed.

Lemma elem_of_concat {A} (x : A) (ls : list (list A)) :
  x ∈ concat ls → ∃ l, x ∈ l ∧ l ∈ ls.
Proof.
  induction ls as [|l ls IH]; cbn; [by intros ?%elem_of_nil|].
  intros [Hx|Hx]%elem_of_app.
  - exists l. split; [done|by left].
  - destruct (IH Hx) as (l' & ? & ?). exists l'. split; [done|by right].
Qed.

Lemma code_range (c : ascii) : 0 ≤ code c < 256.
Proof.
  unfold code. pose proof (N_ascii_bounded c). lia.
Qed.

Lemma code_ascii_of_N (n : Z) :
  0 ≤ n < 256 → code (ascii_of_N (Z.to_N n)) = n.
Proof.
  intros Hn. unfold code. rewrite N_ascii_embedding by lia. lia.
Qed.

Lemma hex_digit_plain (n : Z) : 0 ≤ n < 16 → ¬ is_control (hex_digit n).
Proof.
  intros Hn. unfold is_control, hex_digit.
  case_bool_decide; rewrite code_ascii_of_N by lia; lia.
Qed.

(** X10. A line of the request log is the client address, the date, and
    the message in which [log_message] has replaced every control character
    (C0, DEL, C1) by its [\xhh] escape and doubled every backslash: the
    message part of the line has no control character, so a request line,
    which is the client's text, cannot put a line break or an escape
    sequence into the log. *)
Theorem log_lines_have_no_control_characters (c : connection)
    (message : string) (w : world) :
  log_message c message w
  = (appended
       [Stderr ((client_address c).1 +:+ " - - ["
                +:+ log_date_time_string (pf w) +:+ "] "
                +:+ translate_control message)] w,
     Ok tt)
  ∧ ∀ ch, ch ∈ chars (translate_control message) → ¬ is_control ch.
Proof.
  split; [done|].
  intros ch. unfold translate_control. rewrite chars_concat.
  rewrite <- list_fmap_compose. intros Hin.
  apply elem_of_concat in Hin as (piece & Hch & Hpiece).
  apply list_elem_of_fmap in Hpiece as (c0 & -> & _).
  cbn [compose] in Hch.
  pose proof (code_range c0) as Hrange.
  destruct (bool_decide (code c0 < 32) || bool_decide (127 ≤ code c0 < 160))
    eqn:Hctl.
  - cbn in Hch.
    repeat (apply elem_of_cons in Hch as [->|Hch]);
      [by unfold is_control, code; cbn; lia | by unfold is_control, code; cbn; lia
      | apply hex_digit_plain; split;
          [apply Z.div_pos; lia|apply Z.div_lt_upper_bound; lia]
      | apply hex_digit_plain; apply Z.mod_pos_bound; lia
      | by apply elem_of_nil in Hch].
  - apply orb_false_iff in Hctl as [H1 H2].
    apply bool_decide_eq_false_1 in H1, H2.
    case_bool_decide as Hbs.
    + cbn in Hch. subst c0.
      repeat (apply elem_of_cons in Hch as [->|Hch]);
        [by unfold is_control, code; cbn; lia..|by apply elem_of_nil in Hch].
    + cbn in Hch. apply list_elem_of_singleton in Hch as ->.
      unfold is_control. lia.
Qed.

(** ** More on the types of files *)

(** X11. The two types that [serve.py] registers change nothing else:
    for every name, the type and the encoding that [mimetypes] guesses with
    the database of [serve.py] are those that it guesses with the
    platform's database, unless the type is now [application/javascript] or
    [text/css]. *)
Theorem other_types_are_unchanged (p : platform) (url : string) :
  let before :=
    MimeTypes_guess_type {| types_map_strict := mime_defaults p |} url in
  let after := MimeTypes_guess_type (loaded_db p) url in
  after = before
  ∨ after.1 = Some "application/javascript"
  ∨ after.1 = Some "text/css".
Proof.
  cbv zeta. unfold MimeTypes_guess_type.
  destruct (_splittype url) as [scheme rest].
  case_bool_decide; [by left|].
  destruct (splitext rest) as [base ext].
  destruct (suffix_loop 2 base ext) as [base' ext'].
  destruct (match _encodings_map_default !! ext' with
            | Some e => (Some e, (splitext base').2)
            | None => (None, ext')
            end) as [encoding ext''].
  destruct (decide (lower ext'' = ".css")) as [->|Hcss].
  { right. right. apply loaded_db_css. }
  destruct (decide (lower ext'' = ".js")) as [->|Hjs].
  { right. left. apply loaded_db_js. }
  left. cbn. rewrite lookup_insert_ne by done. by rewrite lookup_insert_ne.
Qed.

Lemma lower_chars (s : string) : chars (lower s) = lower_char <$> chars s.
Proof. unfold lower. apply chars_of_chars. Qed.

Lemma lower_char_dot (c : ascii) : lower_char c = "."%char → c = "."%char.
Proof.
  unfold lower_char. destruct (_ || _) eqn:Hupper; [|done].
  intros H. apply (f_equal code) in H. change (code ".") with 46 in H.
  assert (Hrange : 65 ≤ code c ≤ 222).
  { apply orb_true_iff in Hupper as [Hu|Hu].
    - apply bool_decide_eq_true_1 in Hu. lia.
    - apply andb_true_iff in Hu as [Hu _].
      apply bool_decide_eq_true_1 in Hu. lia. }
  unfold code in H at 1. rewrite N_ascii_embedding in H by lia. lia.
Qed.

(** An extension that is [.js] or [.css] but for the case of its letters
    is a dot followed by characters that are neither dots nor slashes. *)
Lemma script_or_style_extension (ext : string) :
  lower ext = ".js" ∨ lower ext = ".css" →
  ∃ e, ext = "." +:+ e ∧ ("/"%char ∉ chars e) ∧ ("."%char ∉ chars e).
Proof.
  intros Hext.
  assert (Hchars : ∃ c0 cs,
            chars ext = c0 :: cs ∧ lower_char c0 = "."%char
            ∧ Forall (λ c, lower_char c ≠ "."%char ∧ lower_char c ≠ "/"%char) cs).
  { destruct Hext as [H|H]; apply (f_equal chars) in H;
      rewrite lower_chars in H;
      destruct (chars ext) as [|c0 [|c1 [|c2 [|c3 [|c4 cs]]]]];
      try discriminate H; injection H; intros;
      exists c0; eexists; (split; [reflexivity|]); (split; [done|]);
      repeat constructor; congruence. }
  destruct Hchars as (c0 & cs & Hext' & Hc0 & Hcs).
  apply lower_char_dot in Hc0 as ->.
  exists (of_chars cs). split.
  - apply chars_inj. by rewrite chars_app, chars_of_chars.
  - rewrite chars_of_chars. rewrite Forall_forall in Hcs.
    split; intros Hin; apply Hcs in Hin as [H1 H2]; by vm_compute in H1, H2.
Qed.

Lemma lower_lower_script_or_style (ext : string) :
  lower ext = ".js" ∨ lower ext = ".css" → lower (lower ext) = lower ext.
Proof. by intros [->| ->]. Qed.

Lemma extensions_map_not_script_or_style (ext : string) :
  lower ext = ".js" ∨ lower ext = ".css" →
  extensions_map !! ext = None ∧ _encodings_map_default !! ext = None.
Proof.
  intros Hext. split.
  - destruct (extensions_map !! ext) as [v|] eqn:Hmap; [|done].
    apply elem_of_list_to_map_2 in Hmap.
    repeat (apply elem_of_cons in Hmap as [[= -> _]|Hmap];
            [by destruct Hext as [H|H]; vm_compute in H|]).
    by apply elem_of_nil in Hmap.
  - destruct (_encodings_map_default !! ext) as [v|] eqn:Hmap; [|done].
    apply elem_of_list_to_map_2 in Hmap.
    repeat (apply elem_of_cons in Hmap as [[= -> _]|Hmap];
            [by destruct Hext as [H|H]; vm_compute in H|]).
    by apply elem_of_nil in Hmap.
Qed.

(** The type that the handler guesses for an absolute path whose
    extension is [.js] or [.css] in any case of the letters. *)
Lemma guess_type_any_case (path base ext ctype : string) (w : world)
    (db : MimeTypes) :
  mime_db w = Some db →
  startswith path "/" = true →
  splitext path = (base, ext) →
  lower ext = ".js" ∨ lower ext = ".css" →
  types_map_strict db !! lower ext = Some ctype →
  ctype ≠ "" →
  guess_type path w = (w, Ok ctype).
Proof.
  intros Hdb Habs Hsplit Hext Htype Hctype.
  destruct (extensions_map_not_script_or_style ext Hext) as [Hmap Henc].
  destruct (extensions_map_not_script_or_style (lower ext)) as [Hmap' _].
  { by rewrite lower_lower_script_or_style. }
  unfold guess_type. rewrite Hsplit, Hmap, Hmap'.
  rewrite bind_unfold, (mimetypes_guess_type_loaded _ _ db Hdb).
  assert (Hguess : (MimeTypes_guess_type db path).1 = Some ctype).
  { unfold MimeTypes_guess_type.
    rewrite (splittype_absolute _ Habs), Hsplit.
    rewrite (bool_decide_eq_false_2 (None = Some "data")) by done.
    assert (Hloop : suffix_loop 2 base ext = (base, ext)).
    { cbn [suffix_loop]. by destruct Hext as [->| ->]. }
    by rewrite Hloop, Henc. }
  rewrite Hguess. by rewrite bool_decide_eq_false_2.
Qed.

(** X12. The extension is matched without regard to the case of its
    letters: for a request path that translates, below an absolute current
    directory, to a name whose last component is a stem with a character
    other than a dot followed by an extension that is [.js] (or [.css]) up
    to case, such as [.JS], the handler guesses [application/javascript]
    (or [text/css]), and in every run an answer with status 200 for that
    path, when it is not a directory, has that [Content-type]. *)
Theorem extension_case_is_ignored (p : platform) (url dir stem ext : string)
    (ctype : string) :
  startswith (getcwd p) "/" = true →
  translate_path p url = dir +:+ stem +:+ ext →
  ("/"%char ∉ chars stem) →
  (∃ c, c ∈ chars stem ∧ c ≠ "."%char) →
  (lower ext, ctype) ∈ [(".js", "application/javascript"); (".css", "text/css")] →
  (∀ w, pf w = p → mime_db w = Some (loaded_db p) →
        guess_type (translate_path p url) w = (w, Ok ctype))
  ∧ (∀ bound clients id req r,
       path req = url →
       Sent id req r ∈ trace (python serve_py (boot p bound clients)).1 →
       status r = 200 →
       isdir p (translate_path p url) = false →
       ("Content-type", ctype) ∈ resp_headers r).
Proof.
  intros Hcwd Hpath Hstem Hdot Hext.
  assert (Habs : startswith (translate_path p url) "/" = true).
  { destruct (translate_path_below_cwd p url) as [rest ->].
    by apply startswith_app. }
  assert (Hcases : (lower ext = ".js" ∧ ctype = "application/javascript")
                   ∨ (lower ext = ".css" ∧ ctype = "text/css")).
  { apply elem_of_cons in Hext as [[= -> ->]|Hext]; [by left|].
    apply list_elem_of_singleton in Hext as [= -> ->]. by right. }
  assert (Hlower : lower ext = ".js" ∨ lower ext = ".css").
  { destruct Hcases as [[? _]|[? _]]; [by left|by right]. }
  destruct (script_or_style_extension ext Hlower) as (e & -> & He1 & He2).
  assert (Hguess : ∀ w, pf w = p → mime_db w = Some (loaded_db p) →
            guess_type (translate_path p url) w = (w, Ok ctype)).
  { intros w Hpf Hdb.
    apply (guess_type_any_case _ (dir +:+ stem) ("." +:+ e) ctype w _ Hdb Habs).
    - rewrite Hpath. by apply splitext_stem.
    - done.
    - destruct Hcases as [[-> ->]|[-> ->]];
        [apply loaded_db_js|apply loaded_db_css].
    - by destruct Hcases as [[_ ->]|[_ ->]]. }
  split; [done|].
  intros bound clients id req r <- Hsent Hstatus Hdir.
  apply run_responses in Hsent as (c & w & w' & <- & <- & Hdb & Hcall).
  change (path (conn_request c)) with (request_url c) in *.
  apply (call_method_file_type c w w' r ctype Hcall Hstatus Hdir).
  by apply Hguess.
Qed.

Lemma extension_case_is_ignored_witness :
  guess_type "/srv/APP.JS" demo_world
  = (demo_world, Ok "application/javascript").
Proof.
  destruct (extension_case_is_ignored (demo_platform ["--port"; "8001"])
              "/APP.JS" "/srv/" "APP" ".JS" "application/javascript")
    as [Hguess _].
  - reflexivity.
  - reflexivity.
  - compute_done.
  - exists "A"%char. split; [compute_done|done].
  - by left.
  - by apply (Hguess demo_world).
Defined.

(** ** More of the command line *)

Lemma positional_pattern (args : list string) :
  Forall (λ s, startswith s "-" = false) args →
  arg_strings_pattern the_parser args = inr ((λ s, (s, PartA)) <$> args).
Proof.
  induction 1 as [|s args Hs _ IH]; [done|].
  cbn [arg_strings_pattern fmap list_fmap].
  rewrite bool_decide_eq_false_2 by (by intros ->).
  assert (Hpos : _parse_optional the_parser s = IsPositional).
  { destruct s as [|c0 s]; [done|]. unfold _parse_optional.
    change (prefix_chars the_parser) with "-".
    assert (Hc0 : char_in c0 "-" = false).
    { unfold char_in. apply bool_decide_eq_false_2.
      intros Hin. apply list_elem_of_singleton in Hin as ->.
      by destruct s; vm_compute in Hs. }
    by rewrite Hc0. }
  by rewrite Hpos, IH.
Qed.

Lemma consume_positionals (lim : Z) (args extras : list string)
    (ns : gmap string pyvalue) :
  consume the_parser lim ((λ s, (s, PartA)) <$> args) ns extras
  = Parsed ns (extras ++ args).
Proof.
  revert extras. induction args as [|s args IH]; intros extras; cbn.
  - by rewrite app_nil_r.
  - by rewrite IH, <- app_assoc.
Qed.

(** X13. The command line has no positional arguments and no
    subcommands: when the arguments are one or more strings that do not
    start with a dash, the process writes the usage and the error
    "unrecognized arguments" with those strings to standard error and exits
    with status 2, before any socket is created. *)
Theorem positional_arguments_are_refused (p : platform)
    (bound : gmap Z port_state) (clients : list connection)
    (s : string) (args : list string) :
  tail (sys_argv p) = s :: args →
  Forall (λ a, startswith a "-" = false) (s :: args) →
  let run := python serve_py (boot p bound clients) in
  run.2 = Exited 2
  ∧ trace run.1
    = [Stderr (format_usage p);
       Stderr (basename (default "" (head (sys_argv p)))
               +:+ ": error: unrecognized arguments: "
               +:+ join " " (s :: args))].
Proof.
  intros Hargv Hargs run.
  apply serve_py_usage_error. rewrite Hargv.
  unfold parse_args_outcome, parse_known_args.
  rewrite (positional_pattern _ Hargs), consume_positionals. done.
Qed.

Lemma positional_arguments_are_refused_witness :
  (python serve_py (boot (demo_platform ["start"; "8080"]) ∅ [])).2 = Exited 2.
Proof.
  apply (positional_arguments_are_refused (demo_platform ["start"; "8080"])
           ∅ [] "start" ["8080"]); [done|by repeat constructor].
Defined.

(** One [flag value] pair, with [flag] any text that the parser takes for
    [--port] and [value] one that [int] accepts. *)
Lemma consume_port_pair (lim : Z) (flag value : string) (n : Z)
    (rest : list (string * pattern_part)) (ns : gmap string pyvalue)
    (extras : list string) :
  py_int lim value = Some n →
  consume the_parser lim
    ((flag, PartO (Some port_action, "--port", None))
     :: (value, PartA) :: rest) ns extras
  = consume the_parser lim rest (<["port" := PyInt n]> ns) extras.
Proof.
  intros Hint. cbn [consume].
  change (nargs port_action) with NargsNone. cbn [app take_actions take_action].
  rewrite (get_values_port lim value n Hint).
  change (action_cls port_action) with _StoreAction.
  by change (dest port_action) with "port".
Qed.

Lemma numeral_positional (n : Z) :
  _parse_optional the_parser (str_int n) = IsPositional ∧ str_int n ≠ "--".
Proof.
  destruct (str_int_numeral n) as (c & s & Hc & Hs & [(_ & -> & _)|(_ & -> & _)]).
  - split; [by apply numeral_is_positional|].
    intros [= -> _]. by vm_compute in Hc.
  - split; [by apply numeral_is_positional|].
    intros [= -> _]. by vm_compute in Hc.
Qed.

(** The command line [--port n1 --port n2 ...]. *)
Lemma port_pairs_pattern (ns : list Z) :
  arg_strings_pattern the_parser (n ← ns; ["--port"; str_int n])
  = inr (n ← ns; [("--port", PartO (Some port_action, "--port", None));
                  (str_int n, PartA)]).
Proof.
  induction ns as [|n ns IH]; [done|].
  cbn [mbind list_bind app].
  change (([("--port", PartO (Some port_action, "--port", None));
            (str_int n, PartA)] ++ ?l))
    with (("--port", PartO (Some port_action, "--port", None))
          :: (str_int n, PartA) :: l).
  destruct (numeral_positional n) as [Hpos Hne].
  cbn [arg_strings_pattern app].
  rewrite (bool_decide_eq_false_2 ("--port" = "--")) by done.
  change (_parse_optional the_parser "--port")
    with (IsOptional (Some port_action, "--port", None)).
  rewrite (bool_decide_eq_false_2 (str_int n = "--")) by done.
  rewrite Hpos. fold (mbind (M := list) (λ n, ["--port"; str_int n]) ns).
  by rewrite IH.
Qed.

Lemma consume_port_pairs (lim : Z) (ns : list Z) (space : gmap string pyvalue) :
  Forall (λ n, (String.length (str_int n) ≤ 640)%nat) ns →
  consume the_parser lim
    (n ← ns; [("--port", PartO (Some port_action, "--port", None));
              (str_int n, PartA)]) space []
  = Parsed (foldl (λ sp n, <["port" := PyInt n]> sp) space ns) [].
Proof.
  intros Hns. revert space.
  induction Hns as [|n ns Hn _ IH]; intros space; [done|].
  cbn [mbind list_bind app foldl].
  change (([("--port", PartO (Some port_action, "--port", None));
            (str_int n, PartA)] ++ ?l))
    with (("--port", PartO (Some port_action, "--port", None))
          :: (str_int n, PartA) :: l).
  cbn [app].
  rewrite (consume_port_pair lim "--port" (str_int n) n)
    by by apply py_int_str_int.
  apply IH.
Qed.

Lemma foldl_insert_port (space : gmap string pyvalue) (ns : list Z) (n : Z) :
  foldl (λ sp n, <["port" := PyInt n]> sp) space (ns ++ [n]) !! "port"
  = Some (PyInt n).
Proof. rewrite foldl_app. cbn. apply lookup_insert_eq. Qed.

(** X14. When [--port] is given several times, the last value is the
    port: for the command line [--port n1 --port n2 ... --port n], with
    decimal numerals of at most 640 characters, the configured port is
    [n]. *)
Theorem last_port_wins (p : platform) (ns : list Z) (n : Z) :
  tail (sys_argv p) = (m ← ns ++ [n]; ["--port"; str_int m]) →
  Forall (λ m, (String.length (str_int m) ≤ 640)%nat) (ns ++ [n]) →
  configured_port p = Some n.
Proof.
  intros Hargv Hns. unfold configured_port, parse_args_outcome, parse_known_args.
  rewrite Hargv, port_pairs_pattern, consume_port_pairs by done.
  by rewrite foldl_insert_port.
Qed.

Lemma last_port_wins_witness :
  configured_port
    (demo_platform ["--port"; "8001"; "--port"; "-1"; "--port"; "9000"])
  = Some 9000.
Proof.
  apply (last_port_wins _ [8001; -1] 9000); [done|].
  repeat constructor; cbn; lia.
Defined.

(** X15. The parser accepts abbreviations: each of [--p], [--po] and
    [--por] followed by a decimal numeral configures the port as [--port]
    does. *)
Theorem port_flag_can_be_abbreviated (p : platform) (flag : string) (n : Z) :
  flag ∈ ["--p"; "--po"; "--por"] →
  tail (sys_argv p) = [flag; str_int n] →
  (String.length (str_int n) ≤ 640)%nat →
  configured_port p = Some n.
Proof.
  intros Hflag Hargv Hn.
  assert (Hopt : _parse_optional the_parser flag
                 = IsOptional (Some port_action, "--port", None)
                 ∧ flag ≠ "--").
  { repeat (apply elem_of_cons in Hflag as [->|Hflag]; [done|]).
    by apply elem_of_nil in Hflag. }
  destruct Hopt as [Hopt Hne].
  destruct (numeral_positional n) as [Hpos Hne'].
  apply configured_port_parsed. rewrite Hargv.
  unfold parse_args_outcome, parse_known_args.
  cbn [arg_strings_pattern].
  rewrite (bool_decide_eq_false_2 (flag = "--")) by done.
  rewrite Hopt.
  rewrite (bool_decide_eq_false_2 (str_int n = "--")) by done.
  rewrite Hpos.
  rewrite (consume_port_pair _ flag (str_int n) n) by by apply py_int_str_int.
  cbn [consume]. by rewrite port_namespace.
Qed.

Lemma port_flag_can_be_abbreviated_witness :
  configured_port (demo_platform ["--po"; "9000"]) = Some 9000.
Proof.
  apply (port_flag_can_be_abbreviated _ "--po" 9000);
    [by right; left|done|cbn; lia].
Defined.

(** X16. A port outside 0-65535 passes the command line and fails at
    [bind]: for [--port n] with such an [n] the constructor creates the
    socket, is refused by [bind] with [OverflowError] and closes the
    socket; the process writes the traceback to standard error and exits
    with status 1, without having printed or served anything. *)
Theorem port_out_of_range_fails_at_bind (p : platform)
    (bound : gmap Z port_state) (clients : list connection) (n : Z) :
  tail (sys_argv p) = ["--port"; str_int n] →
  (String.length (str_int n) ≤ 640)%nat →
  n < 0 ∨ 65535 < n →
  let run := python serve_py (boot p bound clients) in
  run.2 = Exited 1
  ∧ trace run.1
    = refused_events p n
      ++ [StderrTraceback
            (Some (raise_of OverflowError "bind(): port must be 0-65535."))].
Proof.
  intros Hargv Hlen Hrange run.
  assert (Hport : configured_port p = Some n).
  { apply configured_port_parsed. rewrite Hargv.
    destruct (numeral_positional n) as [Hpos _].
    apply parse_port_argument; [done|by apply py_int_str_int]. }
  set (e := raise_of OverflowError "bind(): port must be 0-65535.").
  set (w := with_mime_db (Some (loaded_db p)) (boot p bound clients)).
  destruct (parse_args_configured w n Hport) as (space & Hparse & Hspace).
  destruct (ResilientTCPServer_init_refused w n SimpleHTTPRequestHandler e
              eq_refl) as (w' & Hinit & Htrace & Hthreads).
  { left. by split. }
  assert (Hrun : serve_py (boot p bound clients) = (w', Raise e)).
  { unfold serve_py. rewrite bind_unfold, module_top_boot. fold w.
    unfold main_block. rewrite bind_unfold, Hparse.
    unfold getattr. rewrite Hspace. rewrite bind_unfold. cbn [ret].
    unfold with_server. by rewrite bind_unfold, Hinit. }
  assert (Hfinal : run = (with_trace (λ t, t ++ [StderrTraceback (Some e)]) w',
                          Exited 1)).
  { subst run. unfold python. rewrite Hrun.
    change (issubclass (exn_class e) SystemExit) with false.
    change (issubclass (exn_class e) KeyboardInterrupt) with false.
    cbn. by rewrite Hthreads. }
  rewrite Hfinal. split; [done|]. cbn. by rewrite Htrace.
Qed.

Lemma port_out_of_range_fails_at_bind_witness :
  (python serve_py (boot (demo_platform ["--port"; "70000"]) ∅ [])).2
  = Exited 1.
Proof.
  apply (port_out_of_range_fails_at_bind
           (demo_platform ["--port"; "70000"]) ∅ [] 70000);
    [done|cbn; lia|lia].
Defined.







(** ** Two requests for the same path *)

Section TwoRequests.
Context (c1 c2 : connection).
Hypothesis same_url : request_url c1 = request_url c2.
Hypothesis same_headers :
  headers (conn_request c1) = headers (conn_request c2).

#[local] Abbreviation m1 := (command (conn_request c1)).
#[local] Abbreviation m2 := (command (conn_request c2)).

Lemma same_head_plain (r : response) (opened : option file_data) :
  body r = [] → same_head m1 m2 (r, opened) (r, opened).
Proof.
  intros Hbody. repeat split. exists []. cbn. rewrite Hbody.
  by do 2 case_bool_decide.
Qed.

Lemma send_error_same_head (message : string) (w1 w2 : world) :
  pf w1 = pf w2 →
  ∃ t1 t2 x y,
    (do r <- send_error c1 404 message; ret (r, @None file_data)) w1
    = (appended t1 w1, Ok x)
    ∧ (do r <- send_error c2 404 message; ret (r, @None file_data)) w2
      = (appended t2 w2, Ok y)
    ∧ same_head m1 m2 x y.
Proof.
  intros Hpf.
  destruct (send_error_effect c1 404 message w1) as [t1 H1].
  destruct (send_error_effect c2 404 message w2) as [t2 H2].
  rewrite !bind_unfold, H1, H2, Hpf. eexists t1, t2, _, _.
  split; [reflexivity|]. split; [reflexivity|].
  repeat split. by eexists.
Qed.

Lemma send_file_head_same (path : string) (w1 w2 : world) :
  pf w1 = pf w2 → mime_db w1 = mime_db w2 → is_Some (mime_db w1) →
  ∃ t1 t2 x y,
    send_file_head c1 path w1 = (appended t1 w1, Ok x)
    ∧ send_file_head c2 path w2 = (appended t2 w2, Ok y)
    ∧ same_head m1 m2 x y.
Proof.
  intros Hpf Hdb [db Hdb1]. assert (Hdb2 : mime_db w2 = Some db) by congruence.
  unfold send_file_head. rewrite !bind_unfold. cbn [get].
  destruct (guess_type_total path w1 db Hdb1) as [ctype1 Hg1].
  destruct (guess_type_total path w2 db Hdb2) as [ctype2 Hg2].
  assert (ctype1 = ctype2) as <-.
  { revert Hg1 Hg2. unfold guess_type.
    destruct (splitext path) as [base ext].
    destruct (extensions_map !! ext); [unfold ret; congruence|].
    destruct (extensions_map !! lower ext); [unfold ret; congruence|].
    rewrite !bind_unfold, (mimetypes_guess_type_loaded _ _ db Hdb1),
      (mimetypes_guess_type_loaded _ _ db Hdb2).
    destruct (MimeTypes_guess_type db path).1;
      [case_bool_decide|]; unfold ret; congruence. }
  rewrite !bind_unfold, Hg1, Hg2.
  rewrite <- Hpf, <- same_headers.
  pose proof (send_error_same_head "File not found" w1 w2 Hpf) as H404.
  destruct (endswith path "/"); [exact H404|].
  destruct (open_rb (pf w1) path) as [f|]; [|exact H404].
  destruct (not_modified _ _ _).
  - destruct (send_response_effect c1 304 w1) as [t1 H1].
    destruct (send_response_effect c2 304 w2) as [t2 H2].
    rewrite !bind_unfold, H1, H2, Hpf. eexists t1, t2, _, _.
    split; [reflexivity|]. split; [reflexivity|]. by apply same_head_plain.
  - destruct (send_response_effect c1 200 w1) as [t1 H1].
    destruct (send_response_effect c2 200 w2) as [t2 H2].
    rewrite !bind_unfold, H1, H2, Hpf. eexists t1, t2, _, _.
    split; [reflexivity|]. split; [reflexivity|]. by apply same_head_plain.
Qed.

(** The heads of the answers to two requests for the same path with the
    same headers, in two states of a process on the same platform. *)
Lemma send_head_same (w1 w2 : world) :
  pf w1 = pf w2 → mime_db w1 = mime_db w2 → is_Some (mime_db w1) →
  ∃ t1 t2 x y,
    send_head c1 w1 = (appended t1 w1, Ok x)
    ∧ send_head c2 w2 = (appended t2 w2, Ok y)
    ∧ same_head m1 m2 x y.
Proof.
  intros Hpf Hdb Hsome.
  unfold send_head. rewrite !bind_unfold. cbn [get].
  rewrite <- same_url, <- Hpf.
  destruct (isdir _ _); [|by apply send_file_head_same].
  destruct (negb _).
  - destruct (send_response_effect c1 301 w1) as [t1 H1].
    destruct (send_response_effect c2 301 w2) as [t2 H2].
    rewrite !bind_unfold, H1, H2, Hpf. eexists t1, t2, _, _.
    split; [reflexivity|]. split; [reflexivity|].
    rewrite <- Hpf. by apply same_head_plain.
  - destruct (list_find _ _) as [[i index]|]; [by apply send_file_head_same|].
    destruct (list_directory _ _) as [page|].
    + destruct (send_response_effect c1 200 w1) as [t1 H1].
      destruct (send_response_effect c2 200 w2) as [t2 H2].
      rewrite !bind_unfold, H1, H2, Hpf. eexists t1, t2, _, _.
      split; [reflexivity|]. split; [reflexivity|].
      rewrite <- Hpf. by apply same_head_plain.
    + by apply send_error_same_head.
Qed.

End TwoRequests.

Lemma response_eq (r1 r2 : response) :
  status r1 = status r2 → resp_headers r1 = resp_headers r2 →
  body r1 = body r2 → r1 = r2.
Proof. destruct r1, r2. cbn. by intros -> -> ->. Qed.

(** The answers to the same request in two states of a process. *)
Lemma call_method_same (c1 c2 : connection) (w1 w2 w1' w2' : world)
    (r1 r2 : response) :
  conn_request c1 = conn_request c2 →
  pf w1 = pf w2 → mime_db w1 = mime_db w2 → is_Some (mime_db w1) →
  call_method c1 w1 = (w1', Ok r1) →
  call_method c2 w2 = (w2', Ok r2) →
  r1 = r2.
Proof.
  intros Hreq Hpf Hdb Hsome.
  destruct (send_head_same c1 c2) with (w1 := w1) (w2 := w2)
    as (t1 & t2 & [x fx] & [y fy] & H1 & H2 & Hst & Hh & Hf & page & Hb1 & Hb2);
    [by unfold request_url; rewrite Hreq|by rewrite Hreq|done..|].
  cbn in Hst, Hh, Hf, Hb1, Hb2. subst fy.
  rewrite <- Hreq in Hb2.
  unfold call_method. rewrite <- Hreq.
  destruct (bool_decide (command (conn_request c1) = "GET")) eqn:Hget;
    [|destruct (bool_decide (command (conn_request c1) = "HEAD")) eqn:Hhead].
  - unfold do_GET. rewrite !bind_unfold, H1, H2. cbn [snd fst].
    destruct fx as [f|]; intros [= _ <-] [= _ <-].
    + by apply response_eq.
    + apply response_eq; [done..|]. by rewrite Hb1, Hb2.
  - unfold do_HEAD. rewrite !bind_unfold, H1, H2. cbn.
    intros [= _ <-] [= _ <-].
    apply response_eq; [done..|]. by rewrite Hb1, Hb2.
  - destruct (send_error_effect c1 501
                ("Unsupported method ("
                 +:+ repr_str (command (conn_request c1)) +:+ ")") w1)
      as [t1' ->].
    destruct (send_error_effect c2 501
                ("Unsupported method ("
                 +:+ repr_str (command (conn_request c1)) +:+ ")") w2)
      as [t2' ->].
    rewrite <- Hreq, Hpf. by intros [= _ <-] [= _ <-].
Qed.

(** X18. The server keeps nothing between requests: on a given platform
    (its files, its clock, its MIME table), two answers to the same request
    are the same answer, in whatever runs they are sent, whatever the
    command line and the other clients were and whatever was served
    before. *)
Theorem answers_do_not_depend_on_history (p : platform)
    (bound1 bound2 : gmap Z port_state) (clients1 clients2 : list connection)
    (id1 id2 : nat) (req : http_request) (r1 r2 : response) :
  Sent id1 req r1 ∈ trace (python serve_py (boot p bound1 clients1)).1 →
  Sent id2 req r2 ∈ trace (python serve_py (boot p bound2 clients2)).1 →
  r1 = r2.
Proof.
  intros (c1 & w1 & w1' & Hreq1 & Hpf1 & Hdb1 & Hcall1)%run_responses
         (c2 & w2 & w2' & Hreq2 & Hpf2 & Hdb2 & Hcall2)%run_responses.
  apply (call_method_same c1 c2 w1 w2 w1' w2');
    [congruence|congruence|congruence|by eexists|done|done].
Qed.

Lemma answers_do_not_depend_on_history_witness :
  ∃ r,
    Sent 1 (conn_request (demo_get "/index.html" [])) r
    ∈ trace (python serve_py
               (boot (demo_platform ["--port"; "8001"]) ∅
                  [demo_stalled 2; demo_get "/app.js" [];
                   demo_get "/index.html" []])).1
    ∧ r = demo_response 200 (demo_file_headers "text/html" "11") "<h1>hi</h1>".
Proof.
  eexists. split; [vm_compute; repeat constructor|].
  eapply (answers_do_not_depend_on_history
            (demo_platform ["--port"; "8001"]) ∅ ∅
            [demo_stalled 2; demo_get "/app.js" []; demo_get "/index.html" []]
            [demo_get "/index.html" []] 1 1
            (conn_request (demo_get "/index.html" [])));
    vm_compute; repeat constructor.
Defined.

(** X19. A [HEAD] request is answered as the [GET] request for the same
    path with the same headers is, without the body: on a given platform
    the two answers have the same status and the same headers, so the
    [Content-Length] of the [HEAD] is the length of what the [GET] sends,
    and the answer to the [HEAD] has no body. *)
Theorem head_mirrors_get (p : platform)
    (bound1 bound2 : gmap Z port_state) (clients1 clients2 : list connection)
    (id1 id2 : nat) (req_head req_get : http_request) (r_head r_get : response) :
  command req_head = "HEAD" →
  command req_get = "GET" →
  path req_head = path req_get →
  headers req_head = headers req_get →
  Sent id1 req_head r_head ∈ trace (python serve_py (boot p bound1 clients1)).1 →
  Sent id2 req_get r_get ∈ trace (python serve_py (boot p bound2 clients2)).1 →
  status r_head = status r_get
  ∧ resp_headers r_head = resp_headers r_get
  ∧ body r_head = [].
Proof.
  intros Hhead Hget Hpath Hheaders
         (c1 & w1 & w1' & <- & Hpf1 & Hdb1 & Hcall1)%run_responses
         (c2 & w2 & w2' & <- & Hpf2 & Hdb2 & Hcall2)%run_responses.
  destruct (send_head_same c1 c2 Hpath Hheaders w1 w2)
    as (t1 & t2 & [x fx] & [y fy] & H1 & H2 & Hst & Hh & Hf & page & Hb1 & _);
    [congruence|congruence|by eexists|].
  cbn in Hst, Hh, Hf, Hb1. subst fy.
  unfold call_method in Hcall1, Hcall2.
  rewrite Hhead in Hcall1. rewrite Hget in Hcall2.
  rewrite (bool_decide_eq_false_2 ("HEAD" = "GET")) in Hcall1 by done.
  rewrite (bool_decide_eq_true_2 ("HEAD" = "HEAD")) in Hcall1 by done.
  rewrite (bool_decide_eq_true_2 ("GET" = "GET")) in Hcall2 by done.
  unfold do_HEAD in Hcall1. unfold do_GET in Hcall2.
  rewrite bind_unfold, H1 in Hcall1. rewrite bind_unfold, H2 in Hcall2.
  cbn in Hcall1, Hcall2. injection Hcall1 as _ <-.
  rewrite Hhead in Hb1. rewrite bool_decide_eq_true_2 in Hb1 by done.
  destruct fx as [f|]; injection Hcall2 as _ <-; cbn; done.
Qed.

Lemma head_mirrors_get_witness :
  status (demo_response 200 (demo_file_headers "text/html" "11") "") = 200
  ∧ resp_headers (demo_response 200 (demo_file_headers "text/html" "11") "")
    = resp_headers
        (demo_response 200 (demo_file_headers "text/html" "11") "<h1>hi</h1>")
  ∧ body (demo_response 200 (demo_file_headers "text/html" "11") "") = [].
Proof.
  apply (head_mirrors_get (demo_platform []) ∅ ∅
           [demo_client 1 "HEAD" "/index.html" [] None]
           [demo_get "/index.html" []] 1 1
           (conn_request (demo_client 1 "HEAD" "/index.html" [] None))
           (conn_request (demo_get "/index.html" []))
           (demo_response 200 (demo_file_headers "text/html" "11") "")
           (demo_response 200 (demo_file_headers "text/html" "11")
              "<h1>hi</h1>"));
    [done|done|done|done|vm_compute; repeat constructor..].
Defined.

(** ** The rounds of the serve loop, one by one *)



(** X21. Failures before the handler do not end the loop.  An [OSError]
    from [accept] is passed over without a trace.  An [Exception] from the
    start of the thread (no thread can be started, say) is handed to
    [ResilientTCPServer.handle_error] in the main thread, which reports it
    unless its class is one of the two it passes over, and the connection
    is shut down and closed. *)
Theorem failures_before_the_handler (self : server) (c : connection)
    (rest : list connection) (w : world) (e : exn) :
  server_cls self = ResilientTCPServer →
  (accept_error c = Some e → except_OSError e = true →
   serve_loop self (c :: rest) w = serve_loop self rest w)
  ∧ (accept_error c = None → thread_start_error c = Some e →
     except_Exception e = true →
     serve_loop self (c :: rest) w
     = serve_loop self rest
         (appended
            ([Accepted (conn_id c)]
             ++ (if bool_decide (exn_class e ∈ [BrokenPipeError;
                                                ConnectionResetError])
                 then []
                 else [Stderr dashes40;
                       Stderr ("Exception occurred during processing of request from "
                               +:+ repr_address (client_address c));
                       StderrTraceback (Some e);
                       Stderr dashes40])
             ++ [ConnShutdown (conn_id c); ConnClose (conn_id c)]) w)).
Proof.
  intros Hcls.
  assert (Hbegin : ∀ wx, serve_loop self (c :: rest) wx
            = match _handle_request_noblock self c wx with
              | (w1, Ok _) => serve_loop self rest w1
              | (w1, Raise e') => (w1, Raise e')
              | (w1, Pending) => (w1, Pending)
              end) by done.
  split.
  - intros Hacc Hos. rewrite Hbegin.
    unfold _handle_request_noblock. rewrite bind_unfold.
    rewrite (try_except_caught _ _ w w (with_exc_info (Some e) w) e
               (λ _, ret None) (Ok None));
      [|by unfold get_request; rewrite bind_unfold, Hacc
       |by cbn; rewrite Hos|done].
    by rewrite with_exc_info_twice, with_exc_info_same.
  - intros Hacc Hstart Hex. rewrite Hbegin.
    unfold _handle_request_noblock. rewrite bind_unfold.
    set (wA := appended [Accepted (conn_id c)] w).
    rewrite (try_except_returns _ _ w wA (Some c))
      by (unfold get_request; by rewrite Hacc).
    destruct (handle_error_effect c (with_exc_info (Some e) wA))
      as (t' & Herr & _ & Hsilent & Hlogs).
    rewrite (try_except_caught _ _ wA wA
               (appended [ConnShutdown (conn_id c); ConnClose (conn_id c)]
                  (appended t' (with_exc_info (Some e) wA))) e
               (λ _, handle_error (server_cls self) c ;; shutdown_request c)
               (Ok tt));
      [|by unfold process_request; rewrite Hstart|by cbn; rewrite Hex
       |by rewrite bind_unfold, Hcls, Herr, shutdown_request_effect].
    rewrite !with_exc_info_appended, with_exc_info_twice, with_exc_info_same.
    assert (Ht' : t' = if bool_decide (exn_class e ∈ [BrokenPipeError;
                                                      ConnectionResetError])
                       then []
                       else [Stderr dashes40;
                             Stderr ("Exception occurred during processing of request from "
                                     +:+ repr_address (client_address c));
                             StderrTraceback (Some e);
                             Stderr dashes40]).
    { case_bool_decide as Hin.
      - apply Hsilent. by exists e.
      - apply Hlogs. intros Hnil. apply Hin.
        apply Hsilent in Hnil as (e' & [= <-] & ?). done. }
    subst wA. by rewrite !appended_app, Ht'.
Qed.

Lemma failures_before_the_handler_witness :
  serve_loop demo_server [demo_no_thread 1] demo_world
  = serve_loop demo_server []
      (appended
         [Accepted 1;
          Stderr dashes40;
          Stderr "Exception occurred during processing of request from ('127.0.0.1', 50001)";
          StderrTraceback (Some (raise_of RuntimeError "can't start new thread"));
          Stderr dashes40;
          ConnShutdown 1; ConnClose 1] demo_world).
Proof.
  destruct (failures_before_the_handler demo_server (demo_no_thread 1) []
              demo_world (raise_of RuntimeError "can't start new thread"))
    as [_ Hstart]; [done|].
  by apply Hstart.
Defined.
